(** * dataPlot: the CSV row extractor and the line-plot driver

    A shallow embedding of [manData.py] (combine_csv_files) and of
    [dataPlot.py] (subplots_ajdust, plot_line2D), with the properties of
    the repository's specification stated over it.

    Conventions.
    - A text file is the string Python's text layer hands to the program:
      line ends are already the single character LF.
    - Python integers are [Z]; list slices follow Python's rules for
      negative and out-of-range bounds.
    - A Python exception is a value of [exn]; effects that happened before
      it was raised stay in the state. *)

From Stdlib Require Import ZArith QArith Lia Ascii String.
From stdpp Require Import base option list gmap strings.

Local Open Scope string_scope.
Local Open Scope list_scope.
Local Open Scope Z_scope.

(** ** Part I: manData.py *)

Module ManData.

(** *** Text files as Python reads and writes them *)

Definition LF : ascii := "010"%char.

(** [f.readlines()]: the text cut after every LF, the LF kept; a last
    piece without LF is a line too. *)
Fixpoint readlines (s : string) : list string :=
  match s with
  | EmptyString => []
  | String c s' =>
      if Ascii.eqb c LF then String c EmptyString :: readlines s'
      else match readlines s' with
           | [] => [String c EmptyString]
           | l :: ls => String c l :: ls
           end
  end.

(** [file.writelines(ls)]: the strings written one after the other,
    nothing added between them. *)
Fixpoint writelines (ls : list string) : string :=
  match ls with
  | [] => EmptyString
  | l :: ls' => l +:+ writelines ls'
  end.

(** *** Python list slices, for a positive step *)

(** A slice bound as Python normalises it: a negative bound counts from
    the end, and the result is clipped to [0, n]. *)
Definition slice_bound (n i : Z) : Z :=
  if i <? 0 then Z.max (i + n) 0 else Z.min i n.

(** [l[start:stop]] *)
Definition slice {A} (l : list A) (start stop : Z) : list A :=
  let n := Z.of_nat (length l) in
  let lo := slice_bound n start in
  let hi := slice_bound n stop in
  take (Z.to_nat (hi - lo)) (drop (Z.to_nat lo) l).

(** Keep one element, pass [step - 1], keep one, ...; [skip] is how many
    are still to be passed over before the next one kept. *)
Fixpoint stride_aux {A} (step skip : nat) (l : list A) : list A :=
  match l with
  | [] => []
  | x :: l' =>
      match skip with
      | O => x :: stride_aux step (step - 1) l'
      | S k => stride_aux step k l'
      end
  end.

(** [l[start:stop:step]], [step >= 1] *)
Definition slice_step {A} (l : list A) (start stop step : Z) : list A :=
  stride_aux (Z.to_nat step) 0 (slice l start stop).

(** *** combine_csv_files *)

(** One element of [csv_files]: [(name, start, end)] or
    [(name, start, end, step)]. *)
Record range := Range {
  csv_file_name : string;
  line_start : Z;
  line_end : Z;
  line_step : option Z   (* [Some s] for a 4-tuple *)
}.

Inductive exn :=
| FileNotFoundError (path : string).

(** The file system: path to text.  A call ends normally or by an
    exception, and the files written so far stay written either way. *)
Inductive outcome :=
| Done (fs : gmap string string)
| Raised (e : exn) (fs : gmap string string).

(** The lines one range selects from the lines of its file
    (manData.py, lines 23-35, without the file handling). *)
Definition select_lines (lines : list string) (r : range) : list string :=
  let step := match line_step r with Some s => s | None => 1 end in
  let n := Z.of_nat (length lines) in
  let line_end' := if n <? line_end r then n - 1 else line_end r in
  if 1 <? step
  then slice_step lines (line_start r) (line_end' + 1) step
  else slice lines (line_start r) (line_end' + 1).

(** [open(name, 'a')] followed by [writelines]: the file is created when
    it is not there. *)
Definition append_file (path : string) (ls : list string)
    (fs : gmap string string) : gmap string string :=
  <[path := default EmptyString (fs !! path) +:+ writelines ls]> fs.

(** The body of the loop, for one range. *)
Definition combine_one (new_csv_file : string) (fs : gmap string string)
    (r : range) : outcome :=
  match fs !! csv_file_name r with
  | None => Raised (FileNotFoundError (csv_file_name r)) fs
  | Some text => Done (append_file new_csv_file (select_lines (readlines text) r) fs)
  end.

Fixpoint combine_loop (new_csv_file : string) (csv_files : list range)
    (fs : gmap string string) : outcome :=
  match csv_files with
  | [] => Done fs
  | r :: rest =>
      match combine_one new_csv_file fs r with
      | Done fs' => combine_loop new_csv_file rest fs'
      | Raised e fs' => Raised e fs'
      end
  end.

(** [os.path.exists] and [os.remove], then the loop. *)
Definition combine_csv_files (new_csv_file : string) (csv_files : list range)
    (fs : gmap string string) : outcome :=
  combine_loop new_csv_file csv_files (delete new_csv_file fs).

(** *** The ranges as the specification words them *)

(** "Every [step]-th line from [start] to [end] inclusive": line [i] of
    the file is copied exactly when [start <= i <= end] and [i - start]
    is a multiple of [step].  [i] is the index of the head of [lines]. *)
Fixpoint spec_lines_from (start stop step i : Z) (lines : list string) : list string :=
  match lines with
  | [] => []
  | l :: rest =>
      (if bool_decide (start <= i <= stop /\ (i - start) mod step = 0)
       then [l] else [])
      ++ spec_lines_from start stop step (i + 1) rest
  end.

(** The step of the specification: [step] when it is greater than 1,
    every line when it is absent or 1. *)
Definition spec_step (r : range) : Z :=
  match line_step r with
  | Some s => if 1 <? s then s else 1
  | None => 1
  end.

Definition spec_lines (lines : list string) (r : range) : list string :=
  spec_lines_from (line_start r) (line_end r) (spec_step r) 0 lines.

(** *** Vocabulary of the statements *)

(** A complete line: no LF but the one that ends it. *)
Fixpoint complete_line (l : string) : bool :=
  match l with
  | EmptyString => false
  | String c EmptyString => Ascii.eqb c LF
  | String c r => negb (Ascii.eqb c LF) && complete_line r
  end.

Definition range_ok (dest : string) (fs : gmap string string) (r : range) : Prop :=
  csv_file_name r <> dest /\ is_Some (fs !! csv_file_name r)
  /\ 0 <= line_start r /\ 0 <= line_end r.

Definition source_lines (fs : gmap string string) (r : range) : list string :=
  readlines (default EmptyString (fs !! csv_file_name r)).

Definition copied (fs : gmap string string) (rs : list range) : list string :=
  flat_map (fun r => spec_lines (source_lines fs r) r) rs.

(** The file system a call leaves, however it ends. *)
Definition files_after (o : outcome) : gmap string string :=
  match o with
  | Done fs => fs
  | Raised _ fs => fs
  end.

(** The text of the source file of a range. *)
Definition source_text (fs : gmap string string) (r : range) : string :=
  default EmptyString (fs !! csv_file_name r).

(** A range that covers its whole file: from line 0, in steps of one, to
    the last line or beyond. *)
Definition whole_file (fs : gmap string string) (r : range) : Prop :=
  line_start r = 0 /\ spec_step r = 1 /\ 0 <= line_end r
  /\ Z.of_nat (length (source_lines fs r)) - 1 <= line_end r.

End ManData.

(** ** Part II: dataPlot.py *)

Module DataPlot.

(** *** Python values of the configuration *)

(** Keys of the dictionaries: integers and strings (line identifiers are
    either, the file counter of the resolver is an integer, a file path is
    a string).  A string never equals an integer. *)
Inductive pykey :=
| KInt (n : Z)
| KStr (s : string).

#[global] Instance pykey_eq_dec : EqDecision pykey.
Proof. solve_decision. Defined.

(** A [dict] in insertion order. *)
Definition dict (V : Type) : Type := list (pykey * V).

(** [d[k]] read, [None] for a KeyError *)
Fixpoint dict_get {V} (d : dict V) (k : pykey) : option V :=
  match d with
  | [] => None
  | (k', v) :: d' => if decide (k = k') then Some v else dict_get d' k
  end.

(** [k in d]: a test on the keys *)
Definition dict_in {V} (k : pykey) (d : dict V) : bool :=
  bool_decide (is_Some (dict_get d k)).

(** [d[k] = v]: in place when the key is there, at the end when not *)
Fixpoint dict_set {V} (d : dict V) (k : pykey) (v : V) : dict V :=
  match d with
  | [] => [(k, v)]
  | (k', v') :: d' =>
      if decide (k = k') then (k, v) :: d' else (k', v') :: dict_set d' k v
  end.

(** Numbers of the configuration: an int literal or a float literal, the
    float kept as the decimal that is written. *)
Inductive pynum :=
| PyInt (n : Z)
| PyFloat (q : Q).

(** Keyword dictionaries handed on to matplotlib as they are. *)
Definition kwargs : Type := list (string * string).

(** A column of numbers, and a table as [pd.read_csv] returns it. *)
Definition series : Type := list Q.
Definition table : Type := gmap string series.

Definition ylim : Type := Q * Q.

(** Truth values of [d.get(key, False)] used as a condition *)
Definition truthy_str (o : option string) : bool :=
  match o with
  | Some s => negb (String.eqb s EmptyString)
  | None => false
  end.

Definition truthy_list {A} (o : option (list A)) : bool :=
  match o with
  | Some (_ :: _) => true
  | _ => false
  end.

Definition truthy_bool (o : option bool) : bool := default false o.

(** *** The three configuration dictionaries

    Each recognised key is a field; [None] is an absent key. *)

Record fig_cfg := FigCfg {
  num_rows : option Z;
  num_cols : option Z;
  width : option pynum;
  height : option pynum;
  fig_title : option string;
  fig_title_y : option pynum;
  fontsize : option pynum;
  left : option pynum;
  right : option pynum;
  bottom : option pynum;
  top : option pynum;
  wspace : option pynum;
  hspace : option pynum;
  subtitle_kwargs : option kwargs;
  legend_id : option (list Z);
  legend_kwargs : option kwargs;
  file_path : option string;
  filename : option string;
  fig_format : option string
}.

Record plot_data := PlotData {
  xlabel : option string;
  ylabel : option string;
  xlim : option ylim;
  ylim_cfg : option ylim;
  xscale : option string;
  yscale : option string;
  xticks : option (list Q);
  yticks : option (list Q);
  xticks_kwargs : option kwargs;
  yticks_kwargs : option kwargs;
  xticks_percentage : option bool;
  yticks_percentage : option bool;
  title : option string;
  title_y : option pynum;
  show_grid : option string;
  grid_axis : option string;
  grid_properties : option kwargs;
  line : option (list pykey);
  legend : option (list pykey);
  legends_position : option string;
  lgdncol : option Z;
  bbox_to_anchor : option (list Q);
  xspan : option (list Q);
  yspan : option series;
  fill_properties : option kwargs
}.

Record line_data := LineData {
  xdata : option (string * string);       (* (file, column) *)
  xdata_array : option series;
  ydata : option (string * string);
  ydata_array : option series;
  rightYAxis : option string;
  ylim_right : option ylim;
  rightYAxis_percentage : option bool;
  color : option string;
  linestyle : option string;
  marker : option string;
  markevery : option Z;
  label : option string;
  line_kwargs : option kwargs
}.

Definition set_xdata_array (a : series) (ld : line_data) : line_data :=
  LineData (xdata ld) (Some a) (ydata ld) (ydata_array ld) (rightYAxis ld)
    (ylim_right ld) (rightYAxis_percentage ld) (color ld) (linestyle ld)
    (marker ld) (markevery ld) (label ld) (line_kwargs ld).

Definition set_ydata_array (a : series) (ld : line_data) : line_data :=
  LineData (xdata ld) (xdata_array ld) (ydata ld) (Some a) (rightYAxis ld)
    (ylim_right ld) (rightYAxis_percentage ld) (color ld) (linestyle ld)
    (marker ld) (markevery ld) (label ld) (line_kwargs ld).

(** *** Exceptions *)

Inductive exn :=
| ValueError (msg : string)
| FileNotFoundError (path : string)
| KeyError (k : pykey)
| IndexError.

Definition xdata_missing : exn :=
  ValueError "xdata or xdata_array is missing in line_cfg".
Definition ydata_missing : exn :=
  ValueError "ydata or ydata_array is missing in line_cfg".

(** *** pandas and matplotlib, as far as the program uses them

    The calls the program makes are recorded in the order they are made,
    with their arguments.  Axes and drawn lines are named by numbers: the
    axes of the grid are [0 .. rows*cols-1] in row-major order (the order
    of [axs.flatten()]), [twinx] and [plot] return fresh numbers. *)

Inductive call :=
| Subplots (rows cols : Z) (figsize : pynum * pynum)
| Suptitle (t : string) (y : pynum) (kw : kwargs)
| SubplotsAdjust (l b r t ws hs : pynum)
| SetXlabel (ax : nat) (s : string)
| SetYlabel (ax : nat) (s : string)
| SetXlim (ax : nat) (l : ylim)
| SetYlim (ax : nat) (l : ylim)
| SetXscale (ax : nat) (s : string)
| SetYscale (ax : nat) (s : string)
| SetXticks (ax : nat) (ticks : list Q) (kw : kwargs)
| SetYticks (ax : nat) (ticks : list Q) (kw : kwargs)
| XPercentFormatter (ax : nat)
| YPercentFormatter (ax : nat)
| SetTitle (ax : nat) (s : string) (y : pynum)
| Grid (ax : nat) (which axis : string) (kw : kwargs)
| Twinx (ax new_ax : nat)
| Plot (ax handle : nat) (x y : series) (color linestyle : string)
       (marker : option string) (markevery : Z) (label : option string)
       (kw : kwargs)
| FillBetween (ax : nat) (x : list Q) (y1 y2 : Q) (where_ : list bool)
       (kw : kwargs)
| Legend (ax : nat) (handles : list nat) (loc : option string)
       (ncol : option Z) (bbox : option (list Q))
| FigLegend (lines : list nat) (labels : list string) (kw : kwargs)
| Savefig (path : string)
| PltShow.

(** What is kept of one axes: its y view limits, the lines drawn on it
    (handle and label, in drawing order), and the handles of its legend
    ([None]: no legend yet). *)
Record axes_state := AxesState {
  ax_ylim : ylim;
  ax_lines : list (nat * option string);
  ax_legend : option (list nat)
}.

Definition new_axes : axes_state := AxesState (0%Q, 1%Q) [] None.

(** The state a call runs in: the CSV files on disk, the paths read by
    [pd.read_csv] so far, [rcParams['font.size']], the matplotlib calls so
    far, the axes (an axes is its position in the list) and the number of
    lines drawn. *)
Record world := World {
  storage : gmap string table;
  reads : list string;
  font_size : option pynum;
  calls : list call;
  axes : list axes_state;
  next_handle : nat
}.

Definition init_world (st : gmap string table) : world :=
  World st [] None [] [] 0.

Inductive result (A : Type) :=
| Ok (a : A)
| Raise (e : exn).
Arguments Ok {A} a.
Arguments Raise {A} e.

(** State and exceptions: a raised exception keeps the state reached. *)
Definition M (A : Type) : Type := world -> result A * world.

#[global] Instance M_ret : MRet M := fun A a w => (Ok a, w).
#[global] Instance M_bind : MBind M := fun A B f m w =>
  match m w with
  | (Ok a, w') => f a w'
  | (Raise e, w') => (Raise e, w')
  end.

Definition raise {A} (e : exn) : M A := fun w => (Raise e, w).

Definition when_ (b : bool) (m : M unit) : M unit :=
  if b then m else mret tt.

Definition from_option {A} (e : exn) (o : option A) : M A :=
  match o with
  | Some a => mret a
  | None => raise e
  end.

Fixpoint for_each {A} (l : list A) (body : A -> M unit) : M unit :=
  match l with
  | [] => mret tt
  | x :: l' => body x ;; for_each l' body
  end.

(** Python's [l[i]] on a sequence: negative [i] counts from the end. *)
Definition py_index {A} (l : list A) (i : Z) : option A :=
  let n := Z.of_nat (length l) in
  if (0 <=? i) && (i <? n) then l !! Z.to_nat i
  else if (- n <=? i) && (i <? 0) then l !! Z.to_nat (i + n)
  else None.

(** *** The library calls

    [autoscale c l] is what matplotlib makes of the y view limits [l] of
    an axes when call [c] is issued on it (drawing rescales the view,
    changing the scale or the ticks may move it).  The program does not
    depend on how: it is a parameter.

    Calls are recorded, not validated: what matplotlib itself would
    reject (a grid without rows, arrays of different lengths, a keyword
    given twice through a keyword dictionary) is outside this model.  Of
    pandas, the missing file and the missing column are modelled. *)

Section Program.

Variable autoscale : call -> ylim -> ylim.

Definition set_calls (cs : list call) (w : world) : world :=
  World (storage w) (reads w) (font_size w) cs (axes w) (next_handle w).

Definition set_axes (axs : list axes_state) (w : world) : world :=
  World (storage w) (reads w) (font_size w) (calls w) axs (next_handle w).

Definition axes_at (w : world) (a : nat) : axes_state :=
  default new_axes (axes w !! a).

Definition record (c : call) : M unit :=
  fun w => (Ok tt, set_calls (calls w ++ [c]) w).

Definition update_axes (a : nat) (f : axes_state -> axes_state) : M unit :=
  fun w => (Ok tt, set_axes (alter f a (axes w)) w).

Definition with_ylim (l : ylim) (s : axes_state) : axes_state :=
  AxesState l (ax_lines s) (ax_legend s).

(** A call on axes [a] that sets no view limit itself. *)
Definition ax_call (a : nat) (c : call) : M unit :=
  record c ;; update_axes a (fun s => with_ylim (autoscale c (ax_ylim s)) s).

(** [pd.read_csv(path)] *)
Definition read_csv (path : string) : M table :=
  fun w =>
    match storage w !! path with
    | Some t =>
        (Ok t, World (storage w) (reads w ++ [path]) (font_size w) (calls w)
                 (axes w) (next_handle w))
    | None => (Raise (FileNotFoundError path), w)
    end.

(** [plt.rcParams['font.size'] = v] *)
Definition set_rc_font_size (v : pynum) : M unit :=
  fun w => (Ok tt, World (storage w) (reads w) (Some v) (calls w) (axes w)
                     (next_handle w)).

(** [plt.subplots(rows, cols, figsize=..., squeeze=False)], the grid
    flattened *)
Definition plt_subplots (rows cols : Z) (figsize : pynum * pynum) : M (list nat) :=
  fun w =>
    let n := (Z.to_nat rows * Z.to_nat cols)%nat in
    let first := length (axes w) in
    (Ok (seq first n),
     set_axes (axes w ++ replicate n new_axes)
       (set_calls (calls w ++ [Subplots rows cols figsize]) w)).

(** [ax.get_ylim()] *)
Definition get_ylim (a : nat) : M ylim :=
  fun w => (Ok (ax_ylim (axes_at w a)), w).

(** [ax.set_ylim(l)]: the view limits become [l]. *)
Definition set_ylim (a : nat) (l : ylim) : M unit :=
  record (SetYlim a l) ;; update_axes a (with_ylim l).

(** [ax.twinx()]: a new axes *)
Definition twinx (a : nat) : M nat :=
  fun w =>
    let a2 := length (axes w) in
    (Ok a2, set_axes (axes w ++ [new_axes]) (set_calls (calls w ++ [Twinx a a2]) w)).

(** [ax.plot(x, y, ...)]: one new line, its handle returned *)
Definition plot (a : nat) (x y : series) (color linestyle : string)
    (marker : option string) (markevery : Z) (label : option string)
    (kw : kwargs) : M nat :=
  fun w =>
    let h := next_handle w in
    let c := Plot a h x y color linestyle marker markevery label kw in
    (Ok h,
     World (storage w) (reads w) (font_size w) (calls w ++ [c])
       (alter (fun s => AxesState (autoscale c (ax_ylim s))
                          (ax_lines s ++ [(h, label)]) (ax_legend s))
              a (axes w))
       (S (next_handle w))).

(** A label that a legend built without handles picks up: present, not
    empty, not starting with an underscore. *)
Definition legend_label (o : option string) : option string :=
  match o with
  | Some (String c s) => if Ascii.eqb c "_"%char then None else Some (String c s)
  | _ => None
  end.

(** [ax.get_legend_handles_labels()]: the labelled lines of the axes (a
    label handed to [fill_between] through 'fill_properties' is not
    followed). *)
Definition get_legend_handles_labels (a : nat) : M (list nat * list string) :=
  fun w =>
    let ls := omap (fun hl => pair (fst hl) <$> legend_label (snd hl))
                (ax_lines (axes_at w a)) in
    (Ok (map fst ls, map snd ls), w).

Definition with_legend (hs : list nat) (s : axes_state) : axes_state :=
  AxesState (ax_ylim s) (ax_lines s) (Some hs).

(** [ax.legend(handles=hs, loc=loc, ncol=ncol)]: replaces the legend of
    the axes. *)
Definition legend_handles (a : nat) (hs : list nat) (loc : string) (ncol : Z) : M unit :=
  record (Legend a hs (Some loc) (Some ncol) None) ;;
  update_axes a (with_legend hs).

(** [ax.legend(bbox_to_anchor=b)]: a new legend again, and with no
    handles given matplotlib takes the labelled lines of the axes. *)
Definition legend_anchor (a : nat) (b : list Q) : M unit :=
  hl ← get_legend_handles_labels a;
  record (Legend a (fst hl) None None (Some b)) ;;
  update_axes a (with_legend (fst hl)).

(** *** subplots_ajdust (dataPlot.py, lines 53-66) *)

Definition subplots_ajdust (cfg : fig_cfg) : M (list nat) :=
  let left_ := default (PyFloat 0.125) (left cfg) in
  let right_ := default (PyFloat 0.9) (right cfg) in
  let bottom_ := default (PyFloat 0.05) (bottom cfg) in
  let top_ := default (PyFloat 0.9) (top cfg) in
  let wspace_ := default (PyFloat 0.2) (wspace cfg) in
  let hspace_ := default (PyFloat 0.2) (hspace cfg) in
  let rows := default 1 (num_rows cfg) in
  let cols := default 1 (num_cols cfg) in
  let width_ := default (PyInt 6) (width cfg) in
  let height_ := default (PyInt 9) (height cfg) in
  set_rc_font_size (default (PyInt 10) (fontsize cfg)) ;;
  axs ← plt_subplots rows cols (width_, height_);
  record (Suptitle (default EmptyString (fig_title cfg))
            (default (PyFloat 0.98) (fig_title_y cfg))
            (default [] (subtitle_kwargs cfg))) ;;
  record (SubplotsAdjust left_ bottom_ right_ top_ wspace_ hspace_) ;;
  mret axs.

(** *** The data resolver (dataPlot.py, lines 173-211) *)

(** The three locals of the resolver. *)
Record resolver := Resolver {
  data_files : dict table;
  data_file_names : dict string;
  nfiles : Z
}.

Definition resolver_init : resolver := Resolver [] [] 0.

(** [data_files[k][col]] *)
Definition column_of (files : dict table) (k : pykey) (col : string) : M series :=
  t ← from_option (KeyError k) (dict_get files k);
  from_option (KeyError (KStr col)) (t !! col).

(** The search of lines 186-189 and 204-207: the first entry of
    [data_file_names] whose value is the path gives the column; when there
    is none the array of the line stays as it was. *)
Fixpoint find_loaded (names : dict string) (files : dict table)
    (path col : string) (old : option series) : M (option series) :=
  match names with
  | [] => mret old
  | (k, v) :: rest =>
      if String.eqb v path then a ← column_of files k col; mret (Some a)
      else find_loaded rest files path col old
  end.

Definition with_array_x (o : option series) (ld : line_data) : line_data :=
  match o with Some a => set_xdata_array a ld | None => ld end.
Definition with_array_y (o : option series) (ld : line_data) : line_data :=
  match o with Some a => set_ydata_array a ld | None => ld end.

(** lines 177-193 *)
Definition resolve_x (ld : line_data) (rs : resolver) : M (line_data * resolver) :=
  match xdata ld with
  | Some (path, col) =>
      if negb (dict_in (KStr path) (data_file_names rs)) then
        let n := nfiles rs + 1 in
        t ← read_csv path;
        let files := dict_set (data_files rs) (KInt n) t in
        let names := dict_set (data_file_names rs) (KInt n) path in
        a ← column_of files (KInt n) col;
        mret (set_xdata_array a ld, Resolver files names n)
      else
        o ← find_loaded (data_file_names rs) (data_files rs) path col (xdata_array ld);
        mret (with_array_x o ld, rs)
  | None =>
      match xdata_array ld with
      | Some _ => mret (ld, rs)
      | None => raise xdata_missing
      end
  end.

(** lines 195-211 *)
Definition resolve_y (ld : line_data) (rs : resolver) : M (line_data * resolver) :=
  match ydata ld with
  | Some (path, col) =>
      if negb (dict_in (KStr path) (data_file_names rs)) then
        let n := nfiles rs + 1 in
        let names := dict_set (data_file_names rs) (KInt n) path in
        t ← read_csv path;
        let files := dict_set (data_files rs) (KInt n) t in
        a ← column_of files (KInt n) col;
        mret (set_ydata_array a ld, Resolver files names n)
      else
        o ← find_loaded (data_file_names rs) (data_files rs) path col (ydata_array ld);
        mret (with_array_y o ld, rs)
  | None =>
      match ydata_array ld with
      | Some _ => mret (ld, rs)
      | None => raise ydata_missing
      end
  end.

(** The loop over [line_cfg.items()]; the entries come back with their
    arrays filled in, as the loop leaves them in [line_cfg]. *)
Fixpoint resolve_lines (line_cfg : dict line_data) (rs : resolver)
    : M (dict line_data) :=
  match line_cfg with
  | [] => mret []
  | (line_id, ld) :: rest =>
      r1 ← resolve_x ld rs;
      r2 ← resolve_y (fst r1) (snd r1);
      rest' ← resolve_lines rest (snd r2);
      mret ((line_id, fst r2) :: rest')
  end.

(** *** The renderer (dataPlot.py, lines 213-264) *)

Definition if_some {A} (o : option A) (f : A -> M unit) : M unit :=
  match o with
  | Some a => f a
  | None => mret tt
  end.

(** lines 215-236: labels, limits, scales, ticks, title, grid *)
Definition setup_axes (ax : nat) (pd : plot_data) : M unit :=
  if_some (xlabel pd) (fun s => ax_call ax (SetXlabel ax s)) ;;
  if_some (ylabel pd) (fun s => ax_call ax (SetYlabel ax s)) ;;
  if_some (xlim pd) (fun l => ax_call ax (SetXlim ax l)) ;;
  if_some (ylim_cfg pd) (fun l => set_ylim ax l) ;;
  ax_call ax (SetXscale ax (default "linear" (xscale pd))) ;;
  ax_call ax (SetYscale ax (default "linear" (yscale pd))) ;;
  when_ (truthy_list (xticks pd))
    (ax_call ax (SetXticks ax (default [] (xticks pd)) (default [] (xticks_kwargs pd)))) ;;
  when_ (truthy_list (yticks pd))
    (ax_call ax (SetYticks ax (default [] (yticks pd)) (default [] (yticks_kwargs pd)))) ;;
  when_ (truthy_bool (xticks_percentage pd)) (ax_call ax (XPercentFormatter ax)) ;;
  when_ (truthy_bool (yticks_percentage pd)) (ax_call ax (YPercentFormatter ax)) ;;
  if_some (title pd)
    (fun s => ax_call ax (SetTitle ax s (default (PyFloat 1.0) (title_y pd)))) ;;
  when_ (truthy_str (show_grid pd))
    (ax_call ax (Grid ax (default EmptyString (show_grid pd))
                   (default "both" (grid_axis pd))
                   (default [] (grid_properties pd)))).

(** lines 239-254: one line of the subplot *)
Definition draw_line (line_cfg : dict line_data) (ax : nat)
    (handles : dict nat) (line_id : pykey) : M (dict nat) :=
  ld ← from_option (KeyError line_id) (dict_get line_cfg line_id);
  x ← from_option (KeyError (KStr "xdata_array")) (xdata_array ld);
  y ← from_option (KeyError (KStr "ydata_array")) (ydata_array ld);
  if truthy_str (rightYAxis ld) then
    ax2 ← twinx ax;
    ax_call ax2 (SetYlabel ax2 (default EmptyString (rightYAxis ld))) ;;
    if_some (ylim_right ld) (fun l => set_ylim ax2 l) ;;
    when_ (truthy_bool (rightYAxis_percentage ld)) (ax_call ax2 (YPercentFormatter ax2)) ;;
    h ← plot ax2 x y (default "b" (color ld)) (default "-" (linestyle ld))
          (marker ld) (default 1 (markevery ld)) (label ld)
          (default [] (line_kwargs ld));
    mret (dict_set handles line_id h)
  else
    h ← plot ax x y (default "b" (color ld)) (default "-" (linestyle ld))
          (marker ld) (default 1 (markevery ld)) (label ld)
          (default [] (line_kwargs ld));
    mret (dict_set handles line_id h).

(** lines 237-254: the loop over the line list *)
Fixpoint draw_lines (line_cfg : dict line_data) (ax : nat)
    (line_ids : list pykey) (handles : dict nat) : M (dict nat) :=
  match line_ids with
  | [] => mret handles
  | line_id :: rest =>
      handles' ← draw_line line_cfg ax handles line_id;
      draw_lines line_cfg ax rest handles'
  end.

(** lines 255-258: the shaded span, between the limits read before it
    and put back after it *)
Definition shade_span (ax : nat) (pd : plot_data) : M unit :=
  lim ← get_ylim ax;
  match xspan pd, yspan pd with
  | Some xs, Some ys =>
      ax_call ax (FillBetween ax xs (fst lim) (snd lim)
                    (map (fun v => negb (Qle_bool v 0)) ys)
                    (default [] (fill_properties pd)))
  | _, _ => mret tt
  end ;;
  set_ylim ax lim.

(** [[handles[i] for i in ids]] *)
Fixpoint handles_of (handles : dict nat) (ids : list pykey) : M (list nat) :=
  match ids with
  | [] => mret []
  | i :: rest =>
      h ← from_option (KeyError i) (dict_get handles i);
      hs ← handles_of handles rest;
      mret (h :: hs)
  end.

(** lines 260-264: the legend of the subplot *)
Definition subplot_legend (ax : nat) (pd : plot_data) (handles : dict nat) : M unit :=
  if_some (legend pd) (fun ids =>
    handles_list ← handles_of handles ids;
    legend_handles ax handles_list (default "best" (legends_position pd))
      (default 1 (lgdncol pd)) ;;
    if_some (bbox_to_anchor pd) (fun b => legend_anchor ax b)).

(** lines 237-264, on the axes of the subplot *)
Definition render_lines (line_cfg : dict line_data) (ax : nat) (pd : plot_data) : M unit :=
  handles ← draw_lines line_cfg ax (default [] (line pd)) [];
  shade_span ax pd ;;
  subplot_legend ax pd handles.

(** lines 214-264: one pass of the loop over [plot_cfg.items()] *)
Definition render_subplot (axs : list nat) (line_cfg : dict line_data)
    (p : Z * plot_data) : M unit :=
  ax ← from_option IndexError (py_index axs (fst p - 1));
  setup_axes ax (snd p) ;;
  render_lines line_cfg ax (snd p).

(** *** The figure legend and the output (dataPlot.py, lines 265-277) *)

(** lines 267-268: handles and labels of the listed subplots, joined *)
Fixpoint collect_legends (axs : list nat) (ids : list Z) : M (list nat * list string) :=
  match ids with
  | [] => mret ([], [])
  | i :: rest =>
      ax ← from_option IndexError (py_index axs (i - 1));
      hl ← get_legend_handles_labels ax;
      tl ← collect_legends axs rest;
      mret (fst hl ++ fst tl, snd hl ++ snd tl)
  end.

Definition figure_legend (cfg : fig_cfg) (axs : list nat) : M unit :=
  when_ (truthy_list (legend_id cfg))
    (hl ← collect_legends axs (default [] (legend_id cfg));
     record (FigLegend (fst hl) (snd hl) (default [] (legend_kwargs cfg)))).

(** lines 272-276 *)
Definition save_figure (cfg : fig_cfg) : M unit :=
  let full_path :=
    default "./" (file_path cfg) +:+ default "new_fig" (filename cfg)
      +:+ "." +:+ default "png" (fig_format cfg) in
  record (Savefig full_path) ;;
  when_ (negb (String.eqb (default "png" (fig_format cfg)) "png"))
    (let full_path_png :=
       default "./" (file_path cfg) +:+ default "new_fig" (filename cfg)
         +:+ ".png" in
     record (Savefig full_path_png)).

(** *** plot_line2D (dataPlot.py, lines 170-277) *)

Definition plot_line2D (cfg : fig_cfg) (plot_cfg : list (Z * plot_data))
    (line_cfg : dict line_data) : M (dict line_data) :=
  axs ← subplots_ajdust cfg;
  line_cfg' ← resolve_lines line_cfg resolver_init;
  for_each plot_cfg (render_subplot axs line_cfg') ;;
  figure_legend cfg axs ;;
  save_figure cfg ;;
  record PltShow ;;
  mret line_cfg'.

End Program.

(** *** Vocabulary of the statements, and sample inputs *)

Definition empty_fig_cfg : fig_cfg :=
  FigCfg None None None None None None None None None None None None None
    None None None None None None.

Definition pdf_fig_cfg : fig_cfg :=
  FigCfg None None None None None None None None None None None None None
    None None None None None (Some "pdf").

Definition keys_int {V} (d : dict V) : Prop :=
  Forall (fun kv => exists n, fst kv = KInt n) d.

Definition add_read (path : string) (w : world) : world :=
  World (storage w) (reads w ++ [path]) (font_size w) (calls w) (axes w)
    (next_handle w).

(** An entry with no source for its x data, or none for its y data. *)
Definition deficient (ld : line_data) : Prop :=
  (xdata ld = None /\ xdata_array ld = None)
  \/ (ydata ld = None /\ ydata_array ld = None).

(** The paths an entry refers to, x first. *)
Definition referenced (ld : line_data) : list string :=
  match xdata ld with Some (p, _) => [p] | None => [] end
  ++ match ydata ld with Some (p, _) => [p] | None => [] end.

Definition referenced_paths (line_cfg : dict line_data) : list string :=
  flat_map (fun kv => referenced (snd kv)) line_cfg.

(** A (file, column) reference that the storage can serve. *)
Definition ref_resolves (st : gmap string table) (ref : option (string * string)) : Prop :=
  match ref with
  | Some (p, c) => exists t, st !! p = Some t /\ is_Some (t !! c)
  | None => True
  end.

Definition refs_resolve (st : gmap string table) (line_cfg : dict line_data) : Prop :=
  Forall (fun kv => ref_resolves st (xdata (snd kv)) /\ ref_resolves st (ydata (snd kv)))
    line_cfg.

(** Nothing of the figure changes. *)
Definition same_figure (w w' : world) : Prop :=
  storage w' = storage w /\ font_size w' = font_size w /\ calls w' = calls w
  /\ axes w' = axes w /\ next_handle w' = next_handle w.

(** A line identifier the loop can draw: it is in [line_cfg] and both of
    its arrays are there. *)
Definition drawable (line_cfg : dict line_data) (line_id : pykey) : Prop :=
  exists ld, dict_get line_cfg line_id = Some ld
             /\ is_Some (xdata_array ld) /\ is_Some (ydata_array ld).

(** A line with a label for a right y-axis. *)
Definition secondary (line_cfg : dict line_data) (line_id : pykey) : bool :=
  match dict_get line_cfg line_id with
  | Some ld => truthy_str (rightYAxis ld)
  | None => false
  end.

(** The [plot] call that draws [ld] on axes [a] with handle [h]. *)
Definition plot_of (a h : nat) (ld : line_data) (x y : series) : call :=
  Plot a h x y (default "b" (color ld)) (default "-" (linestyle ld))
    (marker ld) (default 1 (markevery ld)) (label ld)
    (default [] (line_kwargs ld)).

(** The axes created by [twinx] in a trace, and the axes of its [plot]
    calls, in order. *)
Definition twinx_created (cs : list call) : list nat :=
  omap (fun c => match c with Twinx _ a2 => Some a2 | _ => None end) cs.

Definition plot_axes (cs : list call) : list nat :=
  omap (fun c => match c with Plot a _ _ _ _ _ _ _ _ _ => Some a | _ => None end) cs.

(** The handle [h] belongs to line [line_id]: it was given out between
    the counter values [lo] and [hi], by a [plot] call of the trace [cs]
    that draws the arrays of the line with the label of the line. *)
Definition handle_of (line_cfg : dict line_data) (cs : list call)
    (lo hi : nat) (line_id : pykey) (h : nat) : Prop :=
  (lo <= h < hi)%nat
  /\ exists ld x y a,
       dict_get line_cfg line_id = Some ld
       /\ xdata_array ld = Some x /\ ydata_array ld = Some y
       /\ In (plot_of a h ld x y) cs.

(** The axes on which the lines of [ids] were drawn, the lines of the
    primary axes left out. *)
Definition secondary_plots (line_cfg : dict line_data) (ids : list pykey)
    (axs : list nat) : list nat :=
  omap (fun p => if secondary line_cfg (fst p) then Some (snd p) else None)
    (zip ids axs).

Definition no_autoscale : call -> ylim -> ylim := fun _ l => l.

Definition empty_line : line_data :=
  LineData None None None None None None None None None None None None None.

Definition empty_plot : plot_data :=
  PlotData None None None None None None None None None None None None None
    None None None None None None None None None None None None.

(** A file with the columns x and y, and a line that takes both of its
    columns from it. *)
Definition xy_table : table := <["x" := [1%Q; 2%Q]]> (<["y" := [3%Q; 4%Q]]> ∅).
Definition one_file : gmap string table := <["f.csv" := xy_table]> ∅.

Definition line_of (file : string) (lbl : string) : line_data :=
  LineData (Some (file, "x")) None (Some (file, "y")) None None None None
    None None None None (Some lbl) None.

Definition plot_with (lines : list pykey) (leg : option (list pykey))
    (bbox : option (list Q)) : plot_data :=
  PlotData None None None None None None None None None None None None None
    None None None None (Some lines) leg None None bbox None None None.

(** Resolved lines, as the renderer finds them: the third argument is the
    'rightYAxis' label. *)
Definition resolved_line (lbl : string) (right_axis : option string) : line_data :=
  LineData None (Some [1%Q; 2%Q]) None (Some [3%Q; 4%Q]) right_axis None None
    None None None None (Some lbl) None.

Definition three_lines : dict line_data :=
  [(KInt 1, resolved_line "one" (Some "%"));
   (KInt 2, resolved_line "two" None);
   (KInt 3, resolved_line "three" (Some "mV"))].

(** A figure with one axes and nothing drawn. *)
Definition one_axes_world : world := World ∅ [] None [] [new_axes] 0.

(** What one subplot must satisfy for its rendering to succeed with the
    legend asked for. *)
Definition renderable (line_cfg : dict line_data) (pd : plot_data) : Prop :=
  bbox_to_anchor pd = None
  /\ Forall (drawable line_cfg) (default [] (line pd))
  /\ forall ids, legend pd = Some ids ->
                 Forall (fun id => In id (default [] (line pd))) ids.

(** The number of lines drawn by a list of subplots. *)
Definition lines_drawn (plot_cfg : list (Z * plot_data)) : nat :=
  sum_list (map (fun p => length (default [] (line (snd p)))) plot_cfg).

(** The legend of axes [b] is not touched, and no axes disappears. *)
Definition keeps_legend (b : nat) (w w' : world) : Prop :=
  (length (axes w) <= length (axes w'))%nat
  /\ ((b < length (axes w))%nat ->
      ax_legend (axes_at w' b) = ax_legend (axes_at w b)).

Definition Keeps {A} (b : nat) (m : M A) : Prop :=
  forall w, keeps_legend b w (snd (m w)).

Definition Quiet (m : M unit) : Prop :=
  forall w, exists w' cs,
    m w = (Ok tt, w')
    /\ calls w' = calls w ++ cs
    /\ next_handle w' = next_handle w
    /\ length (axes w') = length (axes w).

Definition two_axes_world : world := World ∅ [] None [] [new_axes; new_axes] 0.

(** The column a (file, column) reference stands for. *)
Definition column (st : gmap string table) (ref : string * string) : option series :=
  st !! fst ref ≫= fun t => t !! snd ref.

(** The array the resolver leaves for one axis: the column of the
    reference when there is one, else the array that was given. *)
Definition resolved_array (st : gmap string table)
    (ref : option (string * string)) (given : option series) : option series :=
  match ref with
  | Some r => column st r
  | None => given
  end.

(** An entry after the resolver: both arrays are there, and they are the
    only fields that differ. *)
Definition resolved_entry (st : gmap string table) (ld ld' : line_data) : Prop :=
  is_Some (xdata_array ld') /\ is_Some (ydata_array ld')
  /\ xdata_array ld' = resolved_array st (xdata ld) (xdata_array ld)
  /\ ydata_array ld' = resolved_array st (ydata ld) (ydata_array ld)
  /\ set_xdata_array [] (set_ydata_array [] ld')
     = set_xdata_array [] (set_ydata_array [] ld).

(** An entry the resolver cannot complete. *)
Definition unresolvable (st : gmap string table) (ld : line_data) : Prop :=
  deficient ld \/ ~ ref_resolves st (xdata ld) \/ ~ ref_resolves st (ydata ld).

Definition saved (cs : list call) : list string :=
  omap (fun c => match c with Savefig p => Some p | _ => None end) cs.

Definition is_save (c : call) : bool :=
  match c with Savefig _ => true | _ => false end.

Definition draws_only (w w' : world) : Prop :=
  storage w' = storage w /\ reads w' = reads w
  /\ saved (calls w') = saved (calls w).

Definition DrawsOnly {A} (m : M A) : Prop :=
  forall w, draws_only w (snd (m w)).

(** The [savefig] calls of lines 272-276. *)
Definition save_calls (cfg : fig_cfg) : list call :=
  let dir := default "./" (file_path cfg) in
  let name := default "new_fig" (filename cfg) in
  let fmt := default "png" (fig_format cfg) in
  Savefig (dir +:+ name +:+ "." +:+ fmt)
  :: (if String.eqb fmt "png" then [] else [Savefig (dir +:+ name +:+ ".png")]).

(** The exception of [draw_line] for an identifier that cannot be drawn. *)
Definition draw_error (line_cfg : dict line_data) (line_id : pykey) : exn :=
  match dict_get line_cfg line_id with
  | None => KeyError line_id
  | Some ld =>
      match xdata_array ld with
      | None => KeyError (KStr "xdata_array")
      | Some _ => KeyError (KStr "ydata_array")
      end
  end.

(** A subplot the program can render on a grid of [n] axes: its key
    addresses an axes, its lines are entries of [line_cfg], and its
    legend list names lines of its own line list. *)
Definition subplot_ok (line_cfg : dict line_data) (n : Z) (p : Z * plot_data) : Prop :=
  1 - n <= fst p <= n
  /\ Forall (fun id => is_Some (dict_get line_cfg id)) (default [] (line (snd p)))
  /\ forall ids, legend (snd p) = Some ids ->
                 Forall (fun id => In id (default [] (line (snd p)))) ids.

(** The number of axes of the grid. *)
Definition grid_size (cfg : fig_cfg) : nat :=
  (Z.to_nat (default 1%Z (num_rows cfg)) * Z.to_nat (default 1%Z (num_cols cfg)))%nat.

(** The lines of a trace: the axes, the handle and the label of each
    [plot] call, in order. *)
Definition plots (cs : list call) : list (nat * nat * option string) :=
  omap (fun c => match c with
                 | Plot a h _ _ _ _ _ _ lbl _ => Some (a, h, lbl)
                 | _ => None
                 end) cs.

(** The figure legends of a trace: their handles and labels. *)
Definition fig_legends (cs : list call) : list (list nat * list string) :=
  omap (fun c => match c with FigLegend hs ls _ => Some (hs, ls) | _ => None end) cs.

(** A call that draws no line and creates neither axes nor figure
    legend. *)
Definition plain (c : call) : bool :=
  match c with
  | Plot _ _ _ _ _ _ _ _ _ _ | Twinx _ _ | FigLegend _ _ _ => false
  | _ => true
  end.

(** The figure agrees with its trace, on a grid of [n] axes: the grid is
    there, the axes made by [twinx] lie beyond it, no figure legend has
    been made, every line of an axes was plotted on that axes, and no
    handle was given out twice. *)
Definition consistent (n : nat) (w : world) : Prop :=
  (n <= length (axes w))%nat
  /\ Forall (fun a2 => (n <= a2)%nat) (twinx_created (calls w))
  /\ fig_legends (calls w) = []
  /\ (forall a h lbl, In (h, lbl) (ax_lines (axes_at w a)) ->
                      In (a, h, lbl) (plots (calls w)))
  /\ (forall a h lbl, In (a, h, lbl) (plots (calls w)) -> (h < next_handle w)%nat)
  /\ forall a a' h lbl lbl',
       In (a, h, lbl) (plots (calls w)) -> In (a', h, lbl') (plots (calls w)) ->
       a' = a.

Definition Preserves {A} (n : nat) (m : M A) : Prop :=
  forall w, consistent n w -> consistent n (snd (m w)).

(** The shaded span of a subplot carries no label of its own.  (With a
    'label' among the 'fill_properties' matplotlib lists the shaded
    region among the legend entries of the axes; the lines are all that
    [get_legend_handles_labels] follows here.) *)
Definition shade_unlabelled (pd : plot_data) : Prop :=
  xspan pd = None \/ yspan pd = None
  \/ ~ In "label" (map fst (default [] (fill_properties pd))).

(** A handle a figure legend over the subplots [ids] of a grid of [n]
    axes may hold: that of a line plotted, with a label that a legend
    shows, on the axes of one of them and on no other axes, and that
    axes was not made by [twinx]. *)
Definition grid_line (n : nat) (ids : list Z) (cs : list call) (h : nat) : Prop :=
  exists i a lbl,
    In i ids /\ py_index (seq 0 n) (i - 1) = Some a
    /\ In (a, h, Some lbl) (plots cs)
    /\ legend_label (Some lbl) = Some lbl
    /\ ~ In a (twinx_created cs)
    /\ forall a' lbl', In (a', h, lbl') (plots cs) -> a' = a.

(** A figure whose legend is that of its first subplot. *)
Definition legend_fig_cfg : fig_cfg :=
  FigCfg None None None None None None None None None None None None None
    None (Some [1]) None None None None.

(** What goes wrong with one (file, column) reference, if anything:
    [pd.read_csv] does not find the file, or the file has no such
    column. *)
Definition ref_error (st : gmap string table) (ref : string * string) : option exn :=
  match st !! fst ref with
  | None => Some (FileNotFoundError (fst ref))
  | Some t =>
      match t !! snd ref with
      | None => Some (KeyError (KStr (snd ref)))
      | Some _ => None
      end
  end.

(** What goes wrong with the x data of an entry, and with its y data:
    the error of the reference when there is one, the ValueError of the
    missing key when there is neither a reference nor an array. *)
Definition x_error (st : gmap string table) (ld : line_data) : option exn :=
  match xdata ld with
  | Some ref => ref_error st ref
  | None => match xdata_array ld with Some _ => None | None => Some xdata_missing end
  end.

Definition y_error (st : gmap string table) (ld : line_data) : option exn :=
  match ydata ld with
  | Some ref => ref_error st ref
  | None => match ydata_array ld with Some _ => None | None => Some ydata_missing end
  end.

(** The data sources of [line_cfg] in the order the resolver goes through
    them, entry by entry and x before y, each with what goes wrong with
    it; and the first thing that goes wrong. *)
Definition source_errors (st : gmap string table) (line_cfg : dict line_data)
    : list (option exn) :=
  flat_map (fun kv => [x_error st (snd kv); y_error st (snd kv)]) line_cfg.

Fixpoint first_error (errs : list (option exn)) : option exn :=
  match errs with
  | [] => None
  | Some e :: _ => Some e
  | None :: rest => first_error rest
  end.

End DataPlot.

(** ** Part III: facts about manData.py *)

Module ManDataFacts.
Import ManData.

Import ManData.

(** *** Strings and lines *)

Lemma append_nil_l (b : string) : EmptyString +:+ b = b.
Proof. reflexivity. Qed.

Lemma append_cons (c : ascii) (a b : string) :
  String c a +:+ b = String c (a +:+ b).
Proof. reflexivity. Qed.

Lemma append_assoc (a b c : string) : (a +:+ b) +:+ c = a +:+ (b +:+ c).
Proof.
  induction a as [|x a IH]; [reflexivity|].
  rewrite !append_cons. f_equal. exact IH.
Qed.

Lemma append_empty_r (a : string) : a +:+ EmptyString = a.
Proof.
  induction a as [|x a IH]; [reflexivity|].
  rewrite append_cons. f_equal. exact IH.
Qed.

Lemma writelines_app (xs ys : list string) :
  writelines (xs ++ ys) = writelines xs +:+ writelines ys.
Proof.
  induction xs as [|x xs IH]; simpl; [reflexivity|].
  now rewrite IH, append_assoc.
Qed.

(** Writing back the lines of a text gives the text. *)
Lemma writelines_readlines (s : string) : writelines (readlines s) = s.
Proof.
  induction s as [|c s IH]; simpl; [reflexivity|].
  destruct (Ascii.eqb c LF) eqn:E.
  - simpl. rewrite IH. reflexivity.
  - destruct (readlines s) as [|l ls]; simpl in *.
    + rewrite <- IH. reflexivity.
    + rewrite append_cons, IH. reflexivity.
Qed.

Lemma readlines_line (l s : string) :
  complete_line l = true -> readlines (l +:+ s) = l :: readlines s.
Proof.
  induction l as [|c l IH]; [discriminate|].
  rewrite append_cons. destruct l as [|c' l'].
  - simpl. intros ->. reflexivity.
  - intros [Hc Hl]%andb_true_iff. apply negb_true_iff in Hc.
    cbn [readlines]. rewrite Hc, (IH Hl). reflexivity.
Qed.

Lemma readlines_writelines (ls : list string) (s : string) :
  Forall (fun l => complete_line l = true) ls ->
  readlines (writelines ls +:+ s) = ls ++ readlines s.
Proof.
  induction 1 as [|l ls Hl _ IH]; simpl; [reflexivity|].
  rewrite append_assoc, (readlines_line _ _ Hl), IH. reflexivity.
Qed.

(** Every line of a text but the last one is complete. *)
Lemma readlines_complete (s : string) (k : nat) :
  (k < length (readlines s))%nat ->
  Forall (fun l => complete_line l = true) (take k (readlines s)).
Proof.
  revert k. induction s as [|c s IH]; intros k; simpl.
  - intros H. exfalso. lia.
  - destruct (Ascii.eqb c LF) eqn:E.
    + destruct k as [|k]; simpl; [constructor|].
      intros H. constructor; [exact E|]. apply IH. lia.
    + destruct (readlines s) as [|l ls] eqn:R; simpl.
      * intros H. assert (k = 0%nat) as -> by lia. constructor.
      * destruct k as [|k]; simpl; [constructor|]. intros H.
        specialize (IH (S k)). simpl in IH.
        assert (Hk : (S k < S (length ls))%nat) by lia.
        apply IH in Hk. inversion Hk as [|? ? Hl Hrest]; subst.
        constructor; [|exact Hrest].
        destruct l as [|c' l']; [discriminate|].
        simpl. rewrite E. simpl. exact Hl.
Qed.

(** *** Slices *)

Lemma stride_one {A} (l : list A) : stride_aux 1 0 l = l.
Proof. induction l as [|x l IH]; simpl; [reflexivity | now rewrite IH]. Qed.

Lemma slice_nonneg {A} (l : list A) (s e : Z) :
  0 <= s -> 0 <= e ->
  slice l s e = take (Z.to_nat (e - s)) (drop (Z.to_nat s) l).
Proof.
  intros Hs He. unfold slice, slice_bound.
  destruct (Z.ltb_spec s 0); [lia|]. destruct (Z.ltb_spec e 0); [lia|].
  destruct (Z_le_gt_dec (Z.of_nat (length l)) s) as [Hge|Hlt].
  - rewrite !drop_ge by lia. now rewrite !take_nil.
  - rewrite (Z.min_l s) by lia.
    destruct (Z_le_gt_dec e (Z.of_nat (length l))).
    + now rewrite (Z.min_l e) by lia.
    + rewrite (Z.min_r e) by lia.
      rewrite !take_ge; [reflexivity | |]; rewrite length_drop; lia.
Qed.

(** *** The slices of the code select the lines of the specification *)

Section Ranges.

Variables start stop step : Z.
Hypothesis step_pos : 0 < step.

Lemma spec_after_stop (l : list string) (i : Z) :
  stop < i -> spec_lines_from start stop step i l = [].
Proof.
  revert i. induction l as [|x l IH]; intros i Hi; simpl; [reflexivity|].
  rewrite bool_decide_eq_false_2 by lia. simpl. apply IH. lia.
Qed.

Lemma spec_before_start (l : list string) (i : Z) :
  i <= start ->
  spec_lines_from start stop step i l
  = spec_lines_from start stop step start (drop (Z.to_nat (start - i)) l).
Proof.
  revert i. induction l as [|x l IH]; intros i Hi.
  - now rewrite drop_nil.
  - destruct (Z.eq_dec i start) as [->|Hne].
    + now rewrite Z.sub_diag.
    + simpl. rewrite bool_decide_eq_false_2 by lia. simpl.
      rewrite IH by lia.
      replace (Z.to_nat (start - i)) with (S (Z.to_nat (start - (i + 1)))) by lia.
      reflexivity.
Qed.

Lemma spec_empty (l : list string) (i : Z) :
  stop < start \/ i + Z.of_nat (length l) <= start ->
  spec_lines_from start stop step i l = [].
Proof.
  revert i. induction l as [|x l IH]; intros i Hi; simpl; [reflexivity|].
  simpl in Hi. rewrite bool_decide_eq_false_2 by lia. simpl. apply IH. lia.
Qed.

Lemma stride_spec (l : list string) (i : Z) (skip : nat) :
  start <= i -> (skip < Z.to_nat step)%nat ->
  (i - start + Z.of_nat skip) mod step = 0 ->
  stride_aux (Z.to_nat step) skip (take (Z.to_nat (stop + 1 - i)) l)
  = spec_lines_from start stop step i l.
Proof.
  revert i skip. induction l as [|x l IH]; intros i skip Hi Hskip Hmod.
  - now rewrite take_nil.
  - destruct (Z_lt_le_dec stop i) as [Hgt|Hle].
    + rewrite spec_after_stop by lia.
      replace (Z.to_nat (stop + 1 - i)) with 0%nat by lia. reflexivity.
    + replace (Z.to_nat (stop + 1 - i)) with (S (Z.to_nat (stop + 1 - (i + 1)))) by lia.
      cbn [take stride_aux spec_lines_from]. destruct skip as [|k].
      * rewrite Z.add_0_r in Hmod.
        rewrite bool_decide_eq_true_2 by (split; [lia | exact Hmod]).
        simpl. f_equal. apply IH; [lia | lia |].
        replace (i + 1 - start + Z.of_nat (Z.to_nat step - 1))
          with (i - start + 1 * step) by lia.
        now rewrite Z_mod_plus_full.
      * rewrite bool_decide_eq_false_2.
        2:{ intros [_ H0]. rewrite Zplus_mod, H0, Z.add_0_l, Z.mod_mod in Hmod by lia.
            rewrite Z.mod_small in Hmod by lia. lia. }
        simpl. apply IH; [lia | lia |].
        now replace (i + 1 - start + Z.of_nat k) with (i - start + Z.of_nat (S k)) by lia.
Qed.

Lemma spec_stop_beyond (l : list string) (i stop' : Z) :
  i + Z.of_nat (length l) - 1 <= stop ->
  i + Z.of_nat (length l) - 1 <= stop' ->
  spec_lines_from start stop step i l = spec_lines_from start stop' step i l.
Proof.
  revert i. induction l as [|x l IH]; intros i H1 H2; simpl; [reflexivity|].
  simpl in H1, H2. rewrite (IH (i + 1)) by lia. f_equal.
  rewrite (bool_decide_ext _ (start <= i <= stop' /\ (i - start) mod step = 0));
    [reflexivity | lia].
Qed.

End Ranges.

Lemma spec_step_pos (r : range) : 0 < spec_step r.
Proof.
  unfold spec_step. destruct (line_step r) as [s|]; [|lia].
  destruct (Z.ltb_spec 1 s); lia.
Qed.

(** The slice the code takes, written with [take] and [drop]. *)
Lemma select_lines_take_drop (lines : list string) (r : range) :
  0 <= line_start r -> 0 <= line_end r ->
  select_lines lines r
  = stride_aux (Z.to_nat (spec_step r)) 0
      (take (Z.to_nat (line_end r + 1 - line_start r))
         (drop (Z.to_nat (line_start r)) lines)).
Proof.
  intros Hs He. unfold select_lines, slice_step, spec_step.
  set (n := Z.of_nat (length lines)).
  assert (Hslice : slice lines (line_start r)
            ((if n <? line_end r then n - 1 else line_end r) + 1)
          = take (Z.to_nat (line_end r + 1 - line_start r))
              (drop (Z.to_nat (line_start r)) lines)).
  { destruct (Z.ltb_spec n (line_end r)).
    - rewrite slice_nonneg by lia.
      rewrite !take_ge; [reflexivity | |]; rewrite length_drop; lia.
    - now rewrite slice_nonneg by lia. }
  destruct (line_step r) as [s|].
  - destruct (Z.ltb_spec 1 s); rewrite Hslice; [reflexivity|].
    now rewrite stride_one.
  - simpl. rewrite Hslice. now rewrite stride_one.
Qed.

(** The code selects the lines the specification describes. *)
Lemma select_lines_spec (lines : list string) (r : range) :
  0 <= line_start r -> 0 <= line_end r ->
  select_lines lines r = spec_lines lines r.
Proof.
  intros Hs He. rewrite select_lines_take_drop by assumption.
  unfold spec_lines. pose proof (spec_step_pos r) as Hp.
  rewrite spec_before_start by lia. rewrite Z.sub_0_r.
  symmetry. rewrite <- stride_spec with (skip := 0%nat); [reflexivity| lia | lia | lia |].
  now rewrite Z.sub_diag.
Qed.

(** *** One range *)

Lemma append_file_lookup (dest : string) (ls : list string) (fs : gmap string string) :
  append_file dest ls fs !! dest
  = Some (default EmptyString (fs !! dest) +:+ writelines ls).
Proof. unfold append_file. apply lookup_insert_eq. Qed.

Lemma append_file_other (dest p : string) (ls : list string) (fs : gmap string string) :
  p <> dest -> append_file dest ls fs !! p = fs !! p.
Proof. intros Hp. unfold append_file. now rewrite lookup_insert_ne. Qed.

(** C3. A range whose end index is at or beyond the number of lines of its
    file raises nothing and copies, in steps of [step], the lines from
    [start] through the last line of the file: the end index acts as the
    index of the last line.  Without a step these are all the lines from
    [start] on. *)
Theorem combine_one_end_beyond_file
    (dest : string) (fs : gmap string string) (r : range) (text : string) :
  fs !! csv_file_name r = Some text ->
  0 <= line_start r ->
  Z.of_nat (length (readlines text)) <= line_end r ->
  let lines := readlines text in
  let last := Z.of_nat (length lines) - 1 in
  combine_one dest fs r
  = Done (append_file dest
            (spec_lines_from (line_start r) last (spec_step r) 0 lines) fs)
  /\ (spec_step r = 1 ->
      combine_one dest fs r
      = Done (append_file dest (drop (Z.to_nat (line_start r)) lines) fs)).
Proof.
  intros Hsrc Hs He. cbv zeta. unfold combine_one. rewrite Hsrc.
  split.
  - rewrite select_lines_spec by lia. unfold spec_lines.
    rewrite (spec_stop_beyond _ _ _ _ 0 (Z.of_nat (length (readlines text)) - 1));
      [reflexivity | lia | lia].
  - intros H1. rewrite select_lines_take_drop by lia. rewrite H1.
    change (Z.to_nat 1) with 1%nat. rewrite stride_one.
    rewrite take_ge; [reflexivity|]. rewrite length_drop. lia.
Qed.

Lemma combine_one_end_beyond_file_witness :
  combine_one "out.csv" {["a.csv" := "1
2
3
"]} (Range "a.csv" 1 7 None)
  = Done (<["out.csv" := "2
3
"]> {["a.csv" := "1
2
3
"]}).
Proof.
  pose proof (combine_one_end_beyond_file "out.csv" {["a.csv" := "1
2
3
"]} (Range "a.csv" 1 7 None) "1
2
3
") as H.
  simpl in H. destruct H as [_ H]; [reflexivity | lia | lia |].
  rewrite H by reflexivity. reflexivity.
Defined.

(** C10. A range whose start index is greater than its end index, or
    greater than the index of the last line of its file, raises nothing
    and adds nothing: the destination keeps the text it had (it is created
    empty when it was not there), every other file is as before. *)
Theorem combine_one_empty_range
    (dest : string) (fs : gmap string string) (r : range) (text : string) :
  fs !! csv_file_name r = Some text ->
  0 <= line_start r -> 0 <= line_end r ->
  Z.min (line_end r) (Z.of_nat (length (readlines text)) - 1) < line_start r ->
  exists fs',
    combine_one dest fs r = Done fs'
    /\ fs' !! dest = Some (default EmptyString (fs !! dest))
    /\ forall p, p <> dest -> fs' !! p = fs !! p.
Proof.
  intros Hsrc Hs He Hlt. unfold combine_one. rewrite Hsrc.
  rewrite select_lines_spec by lia. unfold spec_lines.
  rewrite spec_empty by lia.
  eexists. split; [reflexivity|]. split.
  - rewrite append_file_lookup. simpl. now rewrite append_empty_r.
  - intros p Hp. now apply append_file_other.
Qed.

Lemma combine_one_empty_range_witness :
  exists fs',
    combine_one "out.csv" {["a.csv" := "1
2
"; "out.csv" := "x
"]} (Range "a.csv" 3 1 None) = Done fs'
    /\ fs' !! "out.csv" = Some "x
".
Proof.
  destruct (combine_one_empty_range "out.csv" {["a.csv" := "1
2
"; "out.csv" := "x
"]} (Range "a.csv" 3 1 None) "1
2
") as (fs' & H1 & H2 & _); [reflexivity | simpl; lia | simpl; lia | simpl; lia |].
  exists fs'. split; [exact H1 | exact H2].
Defined.

(** *** The whole call *)

Lemma combine_loop_spec (dest : string) (fs0 : gmap string string) (rs : list range) :
  Forall (range_ok dest fs0) rs ->
  forall fs,
    (forall r, In r rs -> fs !! csv_file_name r = fs0 !! csv_file_name r) ->
    exists fs',
      combine_loop dest rs fs = Done fs'
      /\ (forall p, p <> dest -> fs' !! p = fs !! p)
      /\ fs' !! dest =
           match rs with
           | [] => fs !! dest
           | _ => Some (default EmptyString (fs !! dest) +:+ writelines (copied fs0 rs))
           end.
Proof.
  induction rs as [|r rest IH]; intros Hok fs Hsame.
  - exists fs. simpl. auto.
  - apply Forall_cons in Hok as [(Hne & [text Htext] & Hs & He) Hrest].
    simpl. unfold combine_one. rewrite (Hsame r) by (now left). rewrite Htext.
    rewrite select_lines_spec by assumption.
    assert (Hsel : spec_lines (source_lines fs0 r) r = spec_lines (readlines text) r).
    { unfold source_lines. now rewrite Htext. }
    set (sel := spec_lines (readlines text) r) in *.
    destruct (IH Hrest (append_file dest sel fs)) as (fs' & Hrun & Hother & Hdest).
    { intros r' Hr'. rewrite append_file_other.
      - apply Hsame. now right.
      - rewrite Forall_forall in Hrest. apply list_elem_of_In in Hr'.
        now destruct (Hrest r' Hr') as (Hne' & _). }
    exists fs'. split; [exact Hrun|]. split.
    + intros p Hp. rewrite (Hother p Hp). now apply append_file_other.
    + rewrite Hdest, append_file_lookup. unfold copied. simpl. rewrite Hsel.
      destruct rest as [|r2 rest'].
      * simpl. now rewrite app_nil_r.
      * simpl. now rewrite !writelines_app, !append_assoc.
Qed.

Lemma spec_lines_no_step (lines : list string) (name : string) (s e : Z) :
  0 <= s -> 0 <= e ->
  spec_lines lines (Range name s e None)
  = take (Z.to_nat (e + 1 - s)) (drop (Z.to_nat s) lines).
Proof.
  intros Hs He. rewrite <- select_lines_spec by assumption.
  rewrite select_lines_take_drop by assumption. apply stride_one.
Qed.

(** C6. The destination is removed first; then, for ranges of files other
    than the destination, with indices that are not negative, the
    destination receives range after range, in the order given, the lines
    the specification describes (every [step]-th line from [start] to
    [end] inclusive for a step greater than 1, every line from [start] to
    [end] inclusive otherwise), and nothing else changes.  For the ranges
    [('a.csv',0,2), ('b.csv',0,1)] of a five-line and a three-line file the
    destination has exactly five lines: the first three of a.csv, then the
    first two of b.csv. *)
Theorem combine_csv_files_ranges
    (dest : string) (rs : list range) (fs : gmap string string) :
  Forall (range_ok dest fs) rs ->
  exists fs',
    combine_csv_files dest rs fs = Done fs'
    /\ (forall p, p <> dest -> fs' !! p = fs !! p)
    /\ fs' !! dest =
         match rs with
         | [] => None
         | _ => Some (writelines (copied fs rs))
         end
    /\ forall a b,
         rs = [Range "a.csv" 0 2 None; Range "b.csv" 0 1 None] ->
         fs !! "a.csv" = Some a -> fs !! "b.csv" = Some b ->
         length (readlines a) = 5%nat -> length (readlines b) = 3%nat ->
         exists out,
           fs' !! dest = Some out
           /\ readlines out = take 3 (readlines a) ++ take 2 (readlines b)
           /\ length (readlines out) = 5%nat.
Proof.
  intros Hok.
  destruct (combine_loop_spec dest fs rs Hok (delete dest fs))
    as (fs' & Hrun & Hother & Hdest).
  { intros r Hr. rewrite Forall_forall in Hok. apply list_elem_of_In in Hr.
    destruct (Hok r Hr) as (Hne & _). now rewrite lookup_delete_ne. }
  assert (Hd : fs' !! dest
               = match rs with [] => None | _ => Some (writelines (copied fs rs)) end).
  { rewrite Hdest, lookup_delete_eq. now destruct rs. }
  exists fs'. split; [exact Hrun|]. split; [|split; [exact Hd|]].
  - intros p Hp. rewrite (Hother p Hp). now rewrite lookup_delete_ne.
  - intros a b -> Ha Hb Hla Hlb. eexists. split; [exact Hd|].
    unfold copied, source_lines. simpl. rewrite Ha, Hb. simpl.
    rewrite !spec_lines_no_step by lia. simpl Z.to_nat.
    change (Z.to_nat (2 + 1 - 0)) with 3%nat.
    change (Z.to_nat (1 + 1 - 0)) with 2%nat.
    rewrite !drop_0, app_nil_r.
    assert (Hr : readlines (writelines (take 3 (readlines a) ++ take 2 (readlines b)))
                 = take 3 (readlines a) ++ take 2 (readlines b)).
    { rewrite <- (append_empty_r (writelines _)).
      rewrite readlines_writelines.
      - simpl. now rewrite app_nil_r.
      - apply Forall_app. split; apply readlines_complete; lia. }
    rewrite Hr. split; [reflexivity|].
    rewrite length_app, !length_take. lia.
Qed.

Lemma combine_csv_files_ranges_witness :
  exists fs',
    combine_csv_files "out.csv"
      [Range "a.csv" 0 2 None; Range "b.csv" 0 1 None]
      {["a.csv" := "a0
a1
a2
a3
a4"; "b.csv" := "b0
b1
b2
"; "out.csv" := "old
"]} = Done fs'
    /\ fs' !! "out.csv" = Some "a0
a1
a2
b0
b1
".
Proof.
  destruct (combine_csv_files_ranges "out.csv"
      [Range "a.csv" 0 2 None; Range "b.csv" 0 1 None]
      {["a.csv" := "a0
a1
a2
a3
a4"; "b.csv" := "b0
b1
b2
"; "out.csv" := "old
"]}) as (fs' & Hrun & _ & Hdest & _).
  - repeat constructor; try discriminate; try lia; eexists; reflexivity.
  - exists fs'. split; [exact Hrun | exact Hdest].
Defined.

End ManDataFacts.

(** ** Part IV: facts about dataPlot.py *)

Module DataPlotFacts.
Import DataPlot.

Import DataPlot.

(** *** Running the monad *)

Lemma bind_ok {A B} (m : M A) (f : A -> M B) (w w' : world) (a : A) :
  m w = (Ok a, w') -> (m ≫= f) w = f a w'.
Proof. intros H. unfold mbind, M_bind. now rewrite H. Qed.

Lemma bind_raise {A B} (m : M A) (f : A -> M B) (w w' : world) (e : exn) :
  m w = (Raise e, w') -> (m ≫= f) w = (Raise e, w').
Proof. intros H. unfold mbind, M_bind. now rewrite H. Qed.

(** C8. With the keys absent, [subplots_ajdust] asks for a 1 x 1 grid of
    width 6 and height 9, sets the font size to 10 and adjusts the layout
    to left 0.125, right 0.9, bottom 0.05, top 0.9, wspace 0.2 and
    hspace 0.2. *)
Theorem subplots_ajdust_defaults (cfg : fig_cfg) (w : world) :
  exists rows cols wd ht fsz l r b t ws hs axs w',
    subplots_ajdust cfg w = (Ok axs, w')
    /\ font_size w' = Some fsz
    /\ calls w'
       = calls w ++ [Subplots rows cols (wd, ht);
                     Suptitle (default EmptyString (fig_title cfg))
                       (default (PyFloat 0.98) (fig_title_y cfg))
                       (default [] (subtitle_kwargs cfg));
                     SubplotsAdjust l b r t ws hs]
    /\ (num_rows cfg = None -> rows = 1)
    /\ (num_cols cfg = None -> cols = 1)
    /\ (width cfg = None -> wd = PyInt 6)
    /\ (height cfg = None -> ht = PyInt 9)
    /\ (fontsize cfg = None -> fsz = PyInt 10)
    /\ (left cfg = None -> l = PyFloat 0.125)
    /\ (right cfg = None -> r = PyFloat 0.9)
    /\ (bottom cfg = None -> b = PyFloat 0.05)
    /\ (top cfg = None -> t = PyFloat 0.9)
    /\ (wspace cfg = None -> ws = PyFloat 0.2)
    /\ (hspace cfg = None -> hs = PyFloat 0.2).
Proof.
  do 13 eexists. split; [reflexivity|]. split; [reflexivity|].
  split; [simpl; rewrite <- !app_assoc; reflexivity|].
  repeat split; intros ->; reflexivity.
Qed.

Lemma subplots_ajdust_defaults_witness :
  exists axs w',
    subplots_ajdust empty_fig_cfg (init_world ∅) = (Ok axs, w')
    /\ font_size w' = Some (PyInt 10)
    /\ calls w' = [Subplots 1 1 (PyInt 6, PyInt 9);
                              Suptitle EmptyString (PyFloat 0.98) [];
                              SubplotsAdjust (PyFloat 0.125) (PyFloat 0.05)
                                (PyFloat 0.9) (PyFloat 0.9) (PyFloat 0.2)
                                (PyFloat 0.2)].
Proof.
  destruct (subplots_ajdust_defaults empty_fig_cfg (init_world ∅))
    as (rows & cols & wd & ht & fsz & l & r & b & t & ws & hs
        & axs & w' & Hrun & Hfont & Hcalls & H1 & H2 & H3 & H4 & H5 & H6 & H7
        & H8 & H9 & H10 & H11).
  exists axs, w'. split; [exact Hrun|].
  rewrite H1, H2, H3, H4, H6, H7, H8, H9, H10, H11 in Hcalls by reflexivity.
  rewrite H5 in Hfont by reflexivity. split; [exact Hfont | exact Hcalls].
Defined.

(** C7. The figure is saved at [file_path + filename + '.' + fig_format],
    with './', 'new_fig' and 'png' for absent keys; for the format 'png'
    that is the only file written, for any other format a second file
    with the same path and name and the extension '.png' follows. *)
Theorem save_figure_paths (cfg : fig_cfg) (w : world) :
  let dir := default "./" (file_path cfg) in
  let name := default "new_fig" (filename cfg) in
  let fmt := default "png" (fig_format cfg) in
  exists w',
    save_figure cfg w = (Ok tt, w')
    /\ (fmt = "png" -> calls w' = calls w ++ [Savefig (dir +:+ name +:+ ".png")])
    /\ (fmt <> "png" ->
        calls w' = calls w ++ [Savefig (dir +:+ name +:+ "." +:+ fmt);
                               Savefig (dir +:+ name +:+ ".png")]).
Proof.
  cbv zeta. unfold save_figure.
  destruct (String.eqb_spec (default "png" (fig_format cfg)) "png") as [E|E].
  - eexists. split; [reflexivity|]. split; [|intros H; contradiction].
    intros _. rewrite E. reflexivity.
  - eexists. split; [reflexivity|]. split; [intros H; contradiction|].
    intros _. simpl. rewrite <- app_assoc. reflexivity.
Qed.

Lemma save_figure_paths_witness :
  (exists w', save_figure empty_fig_cfg (init_world ∅) = (Ok tt, w')
              /\ calls w' = [Savefig "./new_fig.png"])
  /\ (exists w', save_figure pdf_fig_cfg (init_world ∅) = (Ok tt, w')
                 /\ calls w' = [Savefig "./new_fig.pdf"; Savefig "./new_fig.png"]).
Proof.
  split.
  - destruct (save_figure_paths empty_fig_cfg (init_world ∅)) as (w' & Hrun & Hpng & _).
    exists w'. split; [exact Hrun|]. apply Hpng. reflexivity.
  - destruct (save_figure_paths pdf_fig_cfg (init_world ∅)) as (w' & Hrun & _ & Hother).
    exists w'. split; [exact Hrun|]. apply Hother. simpl. discriminate.
Defined.

(** *** The state of one axes *)

Lemma axes_at_alter (w : world) (f : axes_state -> axes_state) (a : nat) :
  (a < length (axes w))%nat ->
  axes_at (set_axes (alter f a (axes w)) w) a = f (axes_at w a).
Proof.
  intros Ha. unfold axes_at. simpl. rewrite list_lookup_alter_eq.
  destruct (lookup_lt_is_Some_2 _ _ Ha) as [s Hs]. rewrite Hs. reflexivity.
Qed.

Section WithLibrary.

Variable autoscale : call -> ylim -> ylim.

(** C5. Whatever the shading does to the view, after the step of lines
    255-258 the y-limits of the axes are the ones it had when the step
    began, with and without a span to shade. *)
Theorem shade_span_keeps_ylim (ax : nat) (pd : plot_data) (w : world) :
  exists w',
    shade_span autoscale ax pd w = (Ok tt, w')
    /\ ax_ylim (axes_at w' ax) = ax_ylim (axes_at w ax)
    /\ exists shading,
         calls w' = calls w ++ shading ++ [SetYlim ax (ax_ylim (axes_at w ax))]
         /\ (shading = [] <-> xspan pd = None \/ yspan pd = None).
Proof.
  assert (Hlim : forall f : axes_state -> axes_state,
    ax_ylim (default new_axes
               (with_ylim (ax_ylim (axes_at w ax)) <$> (f <$> axes w !! ax)))
    = ax_ylim (axes_at w ax)).
  { intros f. unfold axes_at. now destruct (axes w !! ax). }
  unfold shade_span.
  destruct (xspan pd) as [xs|], (yspan pd) as [ys|].
  - eexists. split; [reflexivity|]. split.
    + unfold axes_at at 1. simpl. rewrite !list_lookup_alter_eq. apply Hlim.
    + eexists [_]. split.
      * simpl. rewrite <- app_assoc. reflexivity.
      * split; [discriminate | intros [H|H]; discriminate H].
  - eexists. split; [reflexivity|]. split.
    + unfold axes_at. simpl. rewrite list_lookup_alter_eq.
      now destruct (axes w !! ax).
    + exists []. split; [reflexivity | split; auto].
  - eexists. split; [reflexivity|]. split.
    + unfold axes_at. simpl. rewrite list_lookup_alter_eq.
      now destruct (axes w !! ax).
    + exists []. split; [reflexivity | split; auto].
  - eexists. split; [reflexivity|]. split.
    + unfold axes_at. simpl. rewrite list_lookup_alter_eq.
      now destruct (axes w !! ax).
    + exists []. split; [reflexivity | split; auto].
Qed.

End WithLibrary.

(** *** The resolver *)

Lemma dict_get_set_eq {V} (d : dict V) (k : pykey) (v : V) :
  dict_get (dict_set d k v) k = Some v.
Proof.
  induction d as [|[k' v'] d IH]; simpl.
  - now rewrite decide_True.
  - destruct (decide (k = k')) as [E|E]; simpl.
    + now rewrite decide_True.
    + now rewrite decide_False.
Qed.

Lemma keys_int_set {V} (d : dict V) (n : Z) (v : V) :
  keys_int d -> keys_int (dict_set d (KInt n) v).
Proof.
  unfold keys_int. induction 1 as [|[k' v'] d Hk Hd IH]; simpl.
  - repeat constructor. now exists n.
  - destruct (decide (KInt n = k')); constructor; auto. now exists n.
Qed.

(** A path is never among the keys of [data_file_names]: they are the
    values of the counter [nfiles]. *)
Lemma path_not_in_names {V} (d : dict V) (path : string) :
  keys_int d -> dict_in (KStr path) d = false.
Proof.
  unfold dict_in. intros H. apply bool_decide_eq_false_2.
  induction H as [|[k v] d [n Hk] Hd IH]; simpl in *.
  - intros [? ?]. discriminate.
  - subst k. rewrite decide_False by discriminate. exact IH.
Qed.

(** What [resolve_x] does: every reference to a file reads the file. *)
Lemma resolve_x_run (ld : line_data) (rs : resolver) (w : world) :
  keys_int (data_file_names rs) ->
  resolve_x ld rs w =
  match xdata ld with
  | Some (path, col) =>
      match storage w !! path with
      | None => (Raise (FileNotFoundError path), w)
      | Some t =>
          match t !! col with
          | None => (Raise (KeyError (KStr col)), add_read path w)
          | Some a =>
              (Ok (set_xdata_array a ld,
                   Resolver (dict_set (data_files rs) (KInt (nfiles rs + 1)) t)
                     (dict_set (data_file_names rs) (KInt (nfiles rs + 1)) path)
                     (nfiles rs + 1)),
               add_read path w)
          end
      end
  | None =>
      match xdata_array ld with
      | Some _ => (Ok (ld, rs), w)
      | None => (Raise xdata_missing, w)
      end
  end.
Proof.
  intros Hk. unfold resolve_x.
  destruct (xdata ld) as [[path col]|]; [|now destruct (xdata_array ld)].
  rewrite (path_not_in_names _ path Hk). simpl.
  unfold mbind, M_bind, read_csv, column_of.
  destruct (storage w !! path) as [t|]; [|reflexivity].
  unfold mbind, M_bind. rewrite dict_get_set_eq. simpl.
  now destruct (t !! col).
Qed.

Lemma resolve_y_run (ld : line_data) (rs : resolver) (w : world) :
  keys_int (data_file_names rs) ->
  resolve_y ld rs w =
  match ydata ld with
  | Some (path, col) =>
      match storage w !! path with
      | None => (Raise (FileNotFoundError path), w)
      | Some t =>
          match t !! col with
          | None => (Raise (KeyError (KStr col)), add_read path w)
          | Some a =>
              (Ok (set_ydata_array a ld,
                   Resolver (dict_set (data_files rs) (KInt (nfiles rs + 1)) t)
                     (dict_set (data_file_names rs) (KInt (nfiles rs + 1)) path)
                     (nfiles rs + 1)),
               add_read path w)
          end
      end
  | None =>
      match ydata_array ld with
      | Some _ => (Ok (ld, rs), w)
      | None => (Raise ydata_missing, w)
      end
  end.
Proof.
  intros Hk. unfold resolve_y.
  destruct (ydata ld) as [[path col]|]; [|now destruct (ydata_array ld)].
  rewrite (path_not_in_names _ path Hk). simpl.
  unfold mbind, M_bind, read_csv, column_of.
  destruct (storage w !! path) as [t|]; [|reflexivity].
  unfold mbind, M_bind. rewrite dict_get_set_eq. simpl.
  now destruct (t !! col).
Qed.

Lemma same_figure_refl (w : world) : same_figure w w.
Proof. repeat split. Qed.

Lemma same_figure_trans (w1 w2 w3 : world) :
  same_figure w1 w2 -> same_figure w2 w3 -> same_figure w1 w3.
Proof. unfold same_figure. intuition congruence. Qed.

Lemma same_figure_add_read (p : string) (w : world) : same_figure w (add_read p w).
Proof. repeat split. Qed.

Create HintDb resolver.
#[local] Hint Resolve same_figure_refl same_figure_add_read keys_int_set : resolver.

(** One entry: its x reference, then its y reference. *)
Lemma resolve_entry (ld : line_data) (rs : resolver) (w : world) :
  keys_int (data_file_names rs) ->
  exists res w',
    (resolve_x ld rs ≫= fun r1 => resolve_y (fst r1) (snd r1)) w = (res, w')
    /\ same_figure w w'
    /\ match res with
       | Ok r2 =>
           keys_int (data_file_names (snd r2))
           /\ ~ deficient ld
           /\ reads w' = reads w ++ referenced ld
       | Raise e =>
           ref_resolves (storage w) (xdata ld) ->
           ref_resolves (storage w) (ydata ld) ->
           deficient ld /\ (e = xdata_missing \/ e = ydata_missing)
       end.
Proof.
  intros Hk. unfold mbind, M_bind, referenced, deficient.
  rewrite (resolve_x_run ld rs w Hk).
  destruct (xdata ld) as [[px cx]|] eqn:Ex.
  - destruct (storage w !! px) as [t|] eqn:Et.
    2:{ do 2 eexists. split; [reflexivity|]. split; [auto with resolver|].
        intros (t & Ht & _) _. congruence. }
    destruct (t !! cx) as [a|] eqn:Ea.
    2:{ do 2 eexists. split; [reflexivity|]. split; [auto with resolver|].
        intros (t' & Ht' & [a' Ha']) _. congruence. }
    rewrite resolve_y_run by (simpl; auto with resolver). simpl.
    destruct (ydata ld) as [[py cy]|] eqn:Ey.
    + destruct (storage w !! py) as [t2|] eqn:Et2.
      2:{ do 2 eexists. split; [reflexivity|]. split; [auto with resolver|].
          intros _ (t' & Ht' & _). congruence. }
      destruct (t2 !! cy) as [a2|] eqn:Ea2.
      2:{ do 2 eexists. split; [reflexivity|]. split; [repeat split|].
          intros _ (t' & Ht' & [a' Ha']). congruence. }
      do 2 eexists. split; [reflexivity|]. split; [repeat split|].
      simpl. split; [auto with resolver|]. split.
      * intros [[H _]|[H _]]; discriminate H.
      * now rewrite <- app_assoc.
    + destruct (ydata_array ld) as [ay|] eqn:Eay.
      * do 2 eexists. split; [reflexivity|]. split; [auto with resolver|].
        simpl. split; [auto with resolver|]. split.
        -- intros [[H _]|[_ H]]; discriminate H.
        -- now rewrite ?app_nil_r.
      * do 2 eexists. split; [reflexivity|]. split; [auto with resolver|].
        intros _ _. split; [right|]; auto.
  - destruct (xdata_array ld) as [ax|] eqn:Eax.
    2:{ do 2 eexists. split; [reflexivity|]. split; [auto with resolver|].
        intros _ _. split; [left|]; auto. }
    rewrite resolve_y_run by exact Hk. simpl.
    destruct (ydata ld) as [[py cy]|] eqn:Ey.
    + destruct (storage w !! py) as [t2|] eqn:Et2.
      2:{ do 2 eexists. split; [reflexivity|]. split; [auto with resolver|].
          intros _ (t' & Ht' & _). congruence. }
      destruct (t2 !! cy) as [a2|] eqn:Ea2.
      2:{ do 2 eexists. split; [reflexivity|]. split; [auto with resolver|].
          intros _ (t' & Ht' & [a' Ha']). congruence. }
      do 2 eexists. split; [reflexivity|]. split; [auto with resolver|].
      simpl. split; [auto with resolver|]. split; [|reflexivity].
      intros [[_ H]|[H _]]; congruence.
    + destruct (ydata_array ld) as [ay|] eqn:Eay.
      * do 2 eexists. split; [reflexivity|]. split; [auto with resolver|].
        simpl. split; [exact Hk|]. split; [|now rewrite ?app_nil_r].
        intros [[_ H]|[_ H]]; congruence.
      * do 2 eexists. split; [reflexivity|]. split; [auto with resolver|].
        intros _ _. split; [right|]; auto.
Qed.

Lemma bind_assoc {A B C} (m : M A) (f : A -> M B) (g : B -> M C) (w : world) :
  (m ≫= fun a => f a ≫= g) w = ((m ≫= f) ≫= g) w.
Proof.
  unfold mbind, M_bind. destruct (m w) as [[a|e] w1]; reflexivity.
Qed.

(** The loop over the entries. *)
Lemma resolve_lines_run (line_cfg : dict line_data) :
  forall (rs : resolver) (w : world),
    keys_int (data_file_names rs) ->
    exists res w',
      resolve_lines line_cfg rs w = (res, w')
      /\ same_figure w w'
      /\ match res with
         | Ok _ =>
             Forall (fun kv => ~ deficient (snd kv)) line_cfg
             /\ reads w' = reads w ++ referenced_paths line_cfg
         | Raise e =>
             refs_resolve (storage w) line_cfg ->
             e = xdata_missing \/ e = ydata_missing
         end.
Proof.
  induction line_cfg as [|[line_id ld] rest IH]; intros rs w Hk.
  - do 2 eexists. split; [reflexivity|]. split; [apply same_figure_refl|].
    simpl. split; [constructor | now rewrite app_nil_r].
  - cbn [resolve_lines]. rewrite bind_assoc.
    destruct (resolve_entry ld rs w Hk) as (res & w1 & Hrun & Hfig & Hres).
    destruct res as [r2|e].
    + rewrite (bind_ok _ _ _ _ _ Hrun). destruct Hres as (Hk2 & Hnd & Hreads).
      destruct (IH (snd r2) w1 Hk2) as (res' & w2 & Hrun' & Hfig' & Hres').
      destruct res' as [rest'|e].
      * rewrite (bind_ok _ _ _ _ _ Hrun'). do 2 eexists.
        split; [reflexivity|]. split; [eapply same_figure_trans; eauto|].
        destruct Hres' as [Hnd' Hreads']. split; [constructor; auto|].
        rewrite Hreads', Hreads. unfold referenced_paths. simpl.
        now rewrite app_assoc.
      * rewrite (bind_raise _ _ _ _ _ Hrun'). do 2 eexists.
        split; [reflexivity|]. split; [eapply same_figure_trans; eauto|].
        intros Hall. apply Forall_cons in Hall as [_ Hall]. apply Hres'.
        destruct Hfig as [-> _]. exact Hall.
    + rewrite (bind_raise _ _ _ _ _ Hrun). do 2 eexists.
      split; [reflexivity|]. split; [exact Hfig|].
      intros Hall. apply Forall_cons in Hall as [[Hx Hy] _].
      now destruct (Hres Hx Hy).
Qed.

(** The exception of the resolver is that of the first source that
    fails. *)
Lemma resolve_entry_error (ld : line_data) (rs : resolver) (w : world) :
  keys_int (data_file_names rs) ->
  exists res w',
    (resolve_x ld rs ≫= fun r1 => resolve_y (fst r1) (snd r1)) w = (res, w')
    /\ storage w' = storage w
    /\ match res with
       | Ok r2 =>
           keys_int (data_file_names (snd r2))
           /\ x_error (storage w) ld = None /\ y_error (storage w) ld = None
       | Raise e =>
           first_error [x_error (storage w) ld; y_error (storage w) ld] = Some e
       end.
Proof.
  intros Hk. unfold mbind, M_bind, x_error, y_error, ref_error.
  rewrite (resolve_x_run ld rs w Hk).
  destruct (xdata ld) as [[px cx]|] eqn:Ex; simpl.
  - destruct (storage w !! px) as [t|] eqn:Et;
      [|do 2 eexists; split; [reflexivity|]; split; reflexivity].
    destruct (t !! cx) as [a|] eqn:Ea;
      [|do 2 eexists; split; [reflexivity|]; split; reflexivity].
    rewrite resolve_y_run by (simpl; auto with resolver). simpl.
    destruct (ydata ld) as [[py cy]|] eqn:Ey; simpl.
    + destruct (storage w !! py) as [t2|] eqn:Et2;
        [|do 2 eexists; split; [reflexivity|]; split; reflexivity].
      destruct (t2 !! cy) as [a2|] eqn:Ea2;
        [|do 2 eexists; split; [reflexivity|]; split; reflexivity].
      do 2 eexists. split; [reflexivity|]. split; [reflexivity|]. simpl.
      split; [auto with resolver | split; reflexivity].
    + destruct (ydata_array ld) as [ay|] eqn:Eay;
        [|do 2 eexists; split; [reflexivity|]; split; reflexivity].
      do 2 eexists. split; [reflexivity|]. split; [reflexivity|]. simpl.
      split; [auto with resolver | split; reflexivity].
  - destruct (xdata_array ld) as [ax|] eqn:Eax;
      [|do 2 eexists; split; [reflexivity|]; split; reflexivity].
    rewrite resolve_y_run by exact Hk. simpl.
    destruct (ydata ld) as [[py cy]|] eqn:Ey; simpl.
    + destruct (storage w !! py) as [t2|] eqn:Et2;
        [|do 2 eexists; split; [reflexivity|]; split; reflexivity].
      destruct (t2 !! cy) as [a2|] eqn:Ea2;
        [|do 2 eexists; split; [reflexivity|]; split; reflexivity].
      do 2 eexists. split; [reflexivity|]. split; [reflexivity|]. simpl.
      split; [auto with resolver | split; reflexivity].
    + destruct (ydata_array ld) as [ay|] eqn:Eay;
        [|do 2 eexists; split; [reflexivity|]; split; reflexivity].
      do 2 eexists. split; [reflexivity|]. split; [reflexivity|]. simpl.
      split; [exact Hk | split; reflexivity].
Qed.

Lemma resolve_lines_error (line_cfg : dict line_data) :
  forall (rs : resolver) (w : world),
    keys_int (data_file_names rs) ->
    exists res w',
      resolve_lines line_cfg rs w = (res, w')
      /\ storage w' = storage w
      /\ first_error (source_errors (storage w) line_cfg)
         = match res with Ok _ => None | Raise e => Some e end.
Proof.
  induction line_cfg as [|[line_id ld] rest IH]; intros rs w Hk.
  - do 2 eexists. split; [reflexivity|]. split; reflexivity.
  - cbn [resolve_lines]. rewrite bind_assoc.
    destruct (resolve_entry_error ld rs w Hk) as (res & w1 & Hrun & Hst & Hres).
    unfold source_errors. cbn [flat_map snd app].
    fold (source_errors (storage w) rest).
    destruct res as [r2|e].
    + rewrite (bind_ok _ _ _ _ _ Hrun). destruct Hres as (Hk2 & Hx & Hy).
      destruct (IH (snd r2) w1 Hk2) as (res' & w2 & Hrun' & Hst' & Hres').
      rewrite Hx, Hy. cbn [first_error]. rewrite <- Hst, Hres'.
      destruct res' as [rest'|e].
      * rewrite (bind_ok _ _ _ _ _ Hrun'). do 2 eexists.
        split; [reflexivity|]. split; [congruence | reflexivity].
      * rewrite (bind_raise _ _ _ _ _ Hrun'). do 2 eexists.
        split; [reflexivity|]. split; [congruence | reflexivity].
    + rewrite (bind_raise _ _ _ _ _ Hrun). do 2 eexists.
      split; [reflexivity|]. split; [exact Hst|].
      cbn [first_error] in Hres |- *.
      destruct (x_error (storage w) ld); [exact Hres|].
      destruct (y_error (storage w) ld); [exact Hres | discriminate Hres].
Qed.

Lemma ref_error_resolves (st : gmap string table) (ref : string * string) :
  ref_resolves st (Some ref) -> ref_error st ref = None.
Proof.
  destruct ref as [p c]. intros (t & Ht & [a Ha]). unfold ref_error. simpl.
  now rewrite Ht, Ha.
Qed.

Lemma x_error_resolves (st : gmap string table) (ld : line_data) :
  ref_resolves st (xdata ld) ->
  x_error st ld = None \/ x_error st ld = Some xdata_missing.
Proof.
  intros Hr. unfold x_error. destruct (xdata ld) as [ref|].
  - left. now apply ref_error_resolves.
  - destruct (xdata_array ld); auto.
Qed.

Lemma y_error_resolves (st : gmap string table) (ld : line_data) :
  ref_resolves st (ydata ld) ->
  y_error st ld = None \/ y_error st ld = Some ydata_missing.
Proof.
  intros Hr. unfold y_error. destruct (ydata ld) as [ref|].
  - left. now apply ref_error_resolves.
  - destruct (ydata_array ld); auto.
Qed.

Lemma source_errors_app (st : gmap string table) (l1 l2 : dict line_data) :
  source_errors st (l1 ++ l2) = source_errors st l1 ++ source_errors st l2.
Proof. apply flat_map_app. Qed.

(** Entries whose references can be read contribute a ValueError or
    nothing. *)
Lemma first_error_readable (st : gmap string table) (pre : dict line_data)
    (rest : list (option exn)) :
  refs_resolve st pre ->
  first_error (source_errors st pre ++ rest) = Some xdata_missing
  \/ first_error (source_errors st pre ++ rest) = Some ydata_missing
  \/ first_error (source_errors st pre ++ rest) = first_error rest.
Proof.
  induction 1 as [|kv pre [Hx Hy] _ IH]; [now right; right|].
  unfold source_errors. cbn [flat_map app]. fold (source_errors st pre).
  destruct (x_error_resolves st (snd kv) Hx) as [-> | ->]; [|now left].
  destruct (y_error_resolves st (snd kv) Hy) as [-> | ->]; [|now right; left].
  exact IH.
Qed.

(** With a deficient entry, readable references before it and a readable
    x reference of its own, the first thing that goes wrong is a
    ValueError. *)
Lemma first_error_deficient (st : gmap string table) (pre post : dict line_data)
    (kv : pykey * line_data) :
  refs_resolve st pre -> ref_resolves st (xdata (snd kv)) -> deficient (snd kv) ->
  first_error (source_errors st (pre ++ kv :: post)) = Some xdata_missing
  \/ first_error (source_errors st (pre ++ kv :: post)) = Some ydata_missing.
Proof.
  intros Hpre Hx Hdef. rewrite source_errors_app.
  destruct (first_error_readable st pre (source_errors st (kv :: post)) Hpre)
    as [H|[H|H]]; [now left | now right |].
  rewrite H. unfold source_errors. cbn [flat_map app first_error].
  destruct (x_error_resolves st (snd kv) Hx) as [Hxe|Hxe]; rewrite Hxe; [|now left].
  destruct Hdef as [[Hd1 Hd2]|[Hd1 Hd2]].
  - unfold x_error in Hxe. rewrite Hd1, Hd2 in Hxe. discriminate Hxe.
  - unfold y_error. rewrite Hd1, Hd2. now right.
Qed.

(** *** Drawing the lines of a subplot *)

Section Drawing.

Variable autoscale : call -> ylim -> ylim.
Variable line_cfg : dict line_data.
Variable ax : nat.

Lemma draw_line_run (handles : dict nat) (line_id : pykey) (w : world)
    (ld : line_data) (x y : series) :
  dict_get line_cfg line_id = Some ld ->
  xdata_array ld = Some x -> ydata_array ld = Some y ->
  exists w' cs a,
    draw_line autoscale line_cfg ax handles line_id w
    = (Ok (dict_set handles line_id (next_handle w)), w')
    /\ calls w' = calls w ++ cs
    /\ next_handle w' = S (next_handle w)
    /\ In (plot_of a (next_handle w) ld x y) cs
    /\ plot_axes cs = [a]
    /\ (if truthy_str (rightYAxis ld)
        then a = length (axes w) /\ twinx_created cs = [a]
             /\ length (axes w') = S (length (axes w))
        else a = ax /\ twinx_created cs = []
             /\ length (axes w') = length (axes w)).
Proof.
  intros Hld Hx Hy. unfold draw_line, mbind, M_bind. rewrite Hld. simpl.
  rewrite Hx. simpl. rewrite Hy. simpl.
  destruct (truthy_str (rightYAxis ld)).
  - unfold twinx, ax_call, if_some, when_, set_ylim, record, update_axes,
      plot, mbind, M_bind, mret, M_ret.
    destruct (ylim_right ld) as [l|], (truthy_bool (rightYAxis_percentage ld));
      simpl;
      (do 3 eexists; split; [reflexivity|]; split;
       [simpl; rewrite <- ?app_assoc; reflexivity|];
       split; [reflexivity|]; split;
       [unfold plot_of; simpl; auto 10|];
       split; [reflexivity|]; split; [reflexivity|]; split; [reflexivity|];
       simpl; rewrite ?length_alter, length_app; simpl; lia).
  - unfold plot. do 3 eexists. split; [reflexivity|]. split; [reflexivity|].
    split; [reflexivity|]. split; [left; reflexivity|].
    split; [reflexivity|]. split; [reflexivity|]. split; [reflexivity|].
    simpl. now rewrite length_alter.
Qed.

Lemma dict_get_set {V} (d : dict V) (k k' : pykey) (v : V) :
  dict_get (dict_set d k v) k'
  = if decide (k' = k) then Some v else dict_get d k'.
Proof.
  induction d as [|[k0 v0] d IH]; simpl.
  - destruct (decide (k' = k)); reflexivity.
  - destruct (decide (k = k0)) as [->|Hne]; simpl.
    + destruct (decide (k' = k0)); reflexivity.
    + destruct (decide (k' = k0)) as [->|Hne'].
      * now rewrite decide_False by congruence.
      * exact IH.
Qed.

Lemma handle_of_weaken (cs cs1 cs2 : list call) (lo lo' hi hi' : nat) id h :
  handle_of line_cfg cs lo hi id h ->
  (lo' <= lo)%nat -> (hi <= hi')%nat ->
  handle_of line_cfg (cs1 ++ cs ++ cs2) lo' hi' id h.
Proof.
  intros [Hr (ld & x & y & a & H1 & H2 & H3 & H4)] Hlo Hhi.
  split; [lia|]. exists ld, x, y, a. repeat split; auto.
  apply in_or_app. right. apply in_or_app. now left.
Qed.

Lemma twinx_created_app (cs1 cs2 : list call) :
  twinx_created (cs1 ++ cs2) = twinx_created cs1 ++ twinx_created cs2.
Proof. apply omap_app. Qed.

Lemma plot_axes_app (cs1 cs2 : list call) :
  plot_axes (cs1 ++ cs2) = plot_axes cs1 ++ plot_axes cs2.
Proof. apply omap_app. Qed.

Lemma secondary_plots_cons (id : pykey) (ids : list pykey) (a : nat) (axs : list nat) :
  secondary_plots line_cfg (id :: ids) (a :: axs)
  = (if secondary line_cfg id then [a] else []) ++ secondary_plots line_cfg ids axs.
Proof. unfold secondary_plots. simpl. now destruct (secondary line_cfg id). Qed.

Lemma draw_lines_run (ids : list pykey) :
  Forall (drawable line_cfg) ids ->
  forall (handles : dict nat) (w : world),
  exists handles' w' cs,
    draw_lines autoscale line_cfg ax ids handles w = (Ok handles', w')
    /\ calls w' = calls w ++ cs
    /\ next_handle w' = (next_handle w + length ids)%nat
    /\ length (axes w')
       = (length (axes w) + length (List.filter (secondary line_cfg) ids))%nat
    /\ twinx_created cs
       = seq (length (axes w)) (length (List.filter (secondary line_cfg) ids))
    /\ length (plot_axes cs) = length ids
    /\ secondary_plots line_cfg ids (plot_axes cs) = twinx_created cs
    /\ Forall (fun p => secondary line_cfg (fst p) = false -> snd p = ax)
         (zip ids (plot_axes cs))
    /\ (forall id, ~ In id ids -> dict_get handles' id = dict_get handles id)
    /\ (forall id, In id ids ->
          exists h, dict_get handles' id = Some h
                    /\ handle_of line_cfg cs (next_handle w) (next_handle w') id h).
Proof.
  induction 1 as [|id rest (ld & Hld & [x Hx] & [y Hy]) _ IH]; intros handles w.
  - exists handles, w, []. simpl. rewrite app_nil_r.
    repeat split; try reflexivity; try lia; try constructor.
  - destruct (draw_line_run handles id w ld x y Hld Hx Hy)
      as (w1 & cs1 & a & Hrun1 & Hcalls1 & Hnext1 & Hplot1 & Hpa1 & Hsec1).
    destruct (IH (dict_set handles id (next_handle w)) w1)
      as (handles' & w' & cs2 & Hrun2 & Hcalls2 & Hnext2 & Hlen2 & Htw2 & Hpl2
          & Hsp2 & Hprim2 & Hold2 & Hnew2).
    exists handles', w', (cs1 ++ cs2).
    cbn [draw_lines]. rewrite (bind_ok _ _ _ _ _ Hrun1).
    split; [exact Hrun2|]. split; [now rewrite Hcalls2, Hcalls1, app_assoc|].
    split; [simpl; lia|].
    assert (Hs : secondary line_cfg id = truthy_str (rightYAxis ld)).
    { unfold secondary. now rewrite Hld. }
    rewrite twinx_created_app, plot_axes_app, Hpa1. cbn [app List.filter zip zip_with].
    rewrite secondary_plots_cons, Hs.
    assert (Hhandles :
      (forall id0, ~ In id0 (id :: rest) -> dict_get handles' id0 = dict_get handles id0)
      /\ (forall id0, In id0 (id :: rest) ->
            exists h, dict_get handles' id0 = Some h
                      /\ handle_of line_cfg (cs1 ++ cs2) (next_handle w) (next_handle w') id0 h)).
    { split.
      - intros id' Hid'. rewrite Hold2 by (simpl in Hid'; tauto).
        rewrite dict_get_set.
        rewrite decide_False; [reflexivity | intros ->; simpl in Hid'; tauto].
      - intros id' Hid'. destruct (in_dec pykey_eq_dec id' rest) as [Hin|Hout].
        + destruct (Hnew2 id' Hin) as (h & Hh & Hof). exists h. split; [exact Hh|].
          apply (handle_of_weaken cs2 cs1 [] _ (next_handle w) _ (next_handle w')) in Hof;
            [|lia..].
          now rewrite app_nil_r in Hof.
        + destruct Hid' as [<-|Hin]; [|contradiction].
          exists (next_handle w). rewrite (Hold2 id Hout), dict_get_set.
          rewrite decide_True by reflexivity. split; [reflexivity|].
          split; [lia|]. exists ld, x, y, a.
          repeat split; auto. apply in_or_app. now left. }
    destruct (truthy_str (rightYAxis ld));
      destruct Hsec1 as (Ha & Htw1 & Hlen1); rewrite Htw1.
    + cbn [length app]. rewrite Hlen2, Htw2, Hlen1, Hpl2, Hsp2, Htw2, Hlen1, Ha.
      split; [lia|]. split; [reflexivity|]. split; [reflexivity|].
      split; [reflexivity|]. split; [constructor; [simpl; rewrite Hs; discriminate | exact Hprim2]|].
      exact Hhandles.
    + cbn [length app]. rewrite Hlen2, Htw2, Hlen1, Hpl2, Hsp2, Htw2, Hlen1.
      split; [lia|]. split; [reflexivity|]. split; [reflexivity|].
      split; [reflexivity|]. split; [constructor; [intros _; exact Ha | exact Hprim2]|].
      exact Hhandles.
Qed.

(** C9. Every line of the list that carries a (non-empty) 'rightYAxis'
    label gets an axes of its own from [twinx] and is drawn on it: for [n]
    such lines the loop creates [n] axes, pairwise different and different
    from every axes that existed before, the i-th of these lines is drawn
    on the i-th of them, and the other lines are drawn on the primary
    axes. *)
Theorem draw_lines_secondary_axes (ids : list pykey) (handles : dict nat) (w : world) :
  Forall (drawable line_cfg) ids ->
  let n := length (List.filter (secondary line_cfg) ids) in
  exists handles' w' cs,
    draw_lines autoscale line_cfg ax ids handles w = (Ok handles', w')
    /\ calls w' = calls w ++ cs
    /\ length (twinx_created cs) = n
    /\ NoDup (twinx_created cs)
    /\ Forall (fun a => (length (axes w) <= a)%nat) (twinx_created cs)
    /\ length (axes w') = (length (axes w) + n)%nat
    /\ length (plot_axes cs) = length ids
    /\ secondary_plots line_cfg ids (plot_axes cs) = twinx_created cs
    /\ Forall (fun p => secondary line_cfg (fst p) = false -> snd p = ax)
         (zip ids (plot_axes cs)).
Proof.
  intros Hd n.
  destruct (draw_lines_run ids Hd handles w)
    as (handles' & w' & cs & Hrun & Hcalls & _ & Hlen & Htw & Hpl & Hsp & Hprim & _).
  exists handles', w', cs. rewrite Htw.
  split; [exact Hrun|]. split; [exact Hcalls|]. split; [apply length_seq|].
  split; [apply NoDup_seq|]. split; [|repeat split; try assumption; now rewrite <- Htw].
  apply Forall_forall. intros a Ha. apply elem_of_seq in Ha. lia.
Qed.

Lemma handles_of_run (handles : dict nat) (ids : list pykey) (w : world) :
  (forall id, In id ids -> is_Some (dict_get handles id)) ->
  exists hs,
    handles_of handles ids w = (Ok hs, w)
    /\ Forall2 (fun id h => dict_get handles id = Some h) ids hs.
Proof.
  induction ids as [|id ids IH]; intros Hall.
  - exists []. split; [reflexivity | constructor].
  - destruct (Hall id (or_introl eq_refl)) as [h Hh].
    destruct IH as (hs & Hrun & Hhs); [intros; apply Hall; now right|].
    exists (h :: hs). split; [|now constructor].
    cbn [handles_of]. unfold mbind, M_bind at 1. rewrite Hh. simpl.
    unfold mbind, M_bind. now rewrite Hrun.
Qed.

Lemma shade_span_run (pd : plot_data) (w : world) :
  exists w' cs,
    shade_span autoscale ax pd w = (Ok tt, w')
    /\ calls w' = calls w ++ cs
    /\ next_handle w' = next_handle w
    /\ length (axes w') = length (axes w).
Proof.
  unfold shade_span.
  destruct (xspan pd) as [xs|], (yspan pd) as [ys|];
    (do 2 eexists; split; [reflexivity|]; split;
     [simpl; rewrite <- ?app_assoc; reflexivity|];
     split; [reflexivity|]; simpl; now rewrite ?length_alter).
Qed.

End Drawing.

(** *** Steps that leave the legend of an axes alone *)

Section Legends.

Variable autoscale : call -> ylim -> ylim.
Variable b : nat.

Lemma keeps_legend_refl (w : world) : keeps_legend b w w.
Proof. split; auto. Qed.

Lemma keeps_legend_trans (w1 w2 w3 : world) :
  keeps_legend b w1 w2 -> keeps_legend b w2 w3 -> keeps_legend b w1 w3.
Proof.
  intros [H1 H2] [H3 H4]. split; [lia|]. intros Hb.
  rewrite H4 by lia. now apply H2.
Qed.

Lemma keeps_same_axes (w w' : world) : axes w' = axes w -> keeps_legend b w w'.
Proof. intros H. unfold keeps_legend, axes_at. rewrite H. auto. Qed.

Lemma Keeps_ret {A} (a : A) : Keeps b (mret a).
Proof. intros w. apply keeps_legend_refl. Qed.

Lemma Keeps_raise {A} (e : exn) : Keeps b (raise (A := A) e).
Proof. intros w. apply keeps_legend_refl. Qed.

Lemma Keeps_bind {A B} (m : M A) (f : A -> M B) :
  Keeps b m -> (forall a, Keeps b (f a)) -> Keeps b (m ≫= f).
Proof.
  intros Hm Hf w. specialize (Hm w). unfold mbind, M_bind.
  destruct (m w) as [[a|e] w1]; simpl in *; [|exact Hm].
  eapply keeps_legend_trans; [exact Hm | apply Hf].
Qed.

Lemma Keeps_from_option {A} (e : exn) (o : option A) : Keeps b (from_option e o).
Proof. destruct o; [apply Keeps_ret | apply Keeps_raise]. Qed.

Lemma Keeps_if_some {A} (o : option A) (f : A -> M unit) :
  (forall a, Keeps b (f a)) -> Keeps b (if_some o f).
Proof. intros Hf. destruct o; [apply Hf | apply Keeps_ret]. Qed.

Lemma Keeps_when (c : bool) (m : M unit) : Keeps b m -> Keeps b (when_ c m).
Proof. intros Hm. destruct c; [exact Hm | apply Keeps_ret]. Qed.

Lemma Keeps_record (c : call) : Keeps b (record c).
Proof. intros w. now apply keeps_same_axes. Qed.

Lemma legend_alter (f : axes_state -> axes_state) (a : nat) (l : list axes_state) :
  (forall s, ax_legend (f s) = ax_legend s) ->
  ax_legend (default new_axes (alter f a l !! b))
  = ax_legend (default new_axes (l !! b)).
Proof.
  intros Hf. destruct (decide (a = b)) as [->|Hne].
  - rewrite list_lookup_alter_eq. destruct (l !! b); simpl; [apply Hf | reflexivity].
  - now rewrite list_lookup_alter_ne.
Qed.

Lemma legend_alter_ne (f : axes_state -> axes_state) (a : nat) (l : list axes_state) :
  a <> b ->
  ax_legend (default new_axes (alter f a l !! b))
  = ax_legend (default new_axes (l !! b)).
Proof. intros Hne. now rewrite list_lookup_alter_ne. Qed.

Lemma Keeps_update_axes (a : nat) (f : axes_state -> axes_state) :
  (forall s, ax_legend (f s) = ax_legend s) -> Keeps b (update_axes a f).
Proof.
  intros Hf w. split; simpl; [now rewrite length_alter|].
  intros _. unfold axes_at. simpl. now apply legend_alter.
Qed.

Lemma Keeps_update_axes_ne (a : nat) (f : axes_state -> axes_state) :
  a <> b -> Keeps b (update_axes a f).
Proof.
  intros Hne w. split; simpl; [now rewrite length_alter|].
  intros _. unfold axes_at. simpl. now apply legend_alter_ne.
Qed.

Lemma Keeps_ax_call (a : nat) (c : call) : Keeps b (ax_call autoscale a c).
Proof.
  unfold ax_call. apply Keeps_bind; [apply Keeps_record|].
  intros _. now apply Keeps_update_axes.
Qed.

Lemma Keeps_set_ylim (a : nat) (l : ylim) : Keeps b (set_ylim a l).
Proof.
  unfold set_ylim. apply Keeps_bind; [apply Keeps_record|].
  intros _. now apply Keeps_update_axes.
Qed.

Lemma Keeps_get_ylim (a : nat) : Keeps b (get_ylim a).
Proof. intros w. apply keeps_legend_refl. Qed.

Lemma Keeps_twinx (a : nat) : Keeps b (twinx a).
Proof.
  intros w. split; simpl; [rewrite length_app; lia|].
  intros Hb. unfold axes_at. simpl. now rewrite lookup_app_l.
Qed.

Lemma Keeps_plot (a : nat) x y c ls mk me lbl kw :
  Keeps b (plot autoscale a x y c ls mk me lbl kw).
Proof.
  intros w. split; simpl; [now rewrite length_alter|].
  intros _. unfold axes_at. simpl. now apply legend_alter.
Qed.

Lemma Keeps_get_legend_handles_labels (a : nat) :
  Keeps b (get_legend_handles_labels a).
Proof. intros w. apply keeps_legend_refl. Qed.

Lemma Keeps_legend_handles (a : nat) hs loc ncol :
  a <> b -> Keeps b (legend_handles a hs loc ncol).
Proof.
  intros Hne. unfold legend_handles. apply Keeps_bind; [apply Keeps_record|].
  intros _. now apply Keeps_update_axes_ne.
Qed.

Lemma Keeps_legend_anchor (a : nat) bb :
  a <> b -> Keeps b (legend_anchor a bb).
Proof.
  intros Hne. unfold legend_anchor.
  apply Keeps_bind; [apply Keeps_get_legend_handles_labels|]. intros hl.
  apply Keeps_bind; [apply Keeps_record|].
  intros _. now apply Keeps_update_axes_ne.
Qed.

Lemma Keeps_handles_of (handles : dict nat) (ids : list pykey) :
  Keeps b (handles_of handles ids).
Proof.
  induction ids as [|i ids IH]; [apply Keeps_ret|].
  cbn [handles_of]. apply Keeps_bind; [apply Keeps_from_option|]. intros h.
  apply Keeps_bind; [exact IH|]. intros hs. apply Keeps_ret.
Qed.

Lemma Keeps_draw_line line_cfg ax handles line_id :
  Keeps b (draw_line autoscale line_cfg ax handles line_id).
Proof.
  unfold draw_line.
  apply Keeps_bind; [apply Keeps_from_option|]. intros ld.
  apply Keeps_bind; [apply Keeps_from_option|]. intros x.
  apply Keeps_bind; [apply Keeps_from_option|]. intros y.
  destruct (truthy_str (rightYAxis ld)).
  - apply Keeps_bind; [apply Keeps_twinx|]. intros ax2.
    apply Keeps_bind; [apply Keeps_ax_call|]. intros _.
    apply Keeps_bind; [apply Keeps_if_some; intros; apply Keeps_set_ylim|]. intros _.
    apply Keeps_bind; [apply Keeps_when, Keeps_ax_call|]. intros _.
    apply Keeps_bind; [apply Keeps_plot|]. intros h. apply Keeps_ret.
  - apply Keeps_bind; [apply Keeps_plot|]. intros h. apply Keeps_ret.
Qed.

Lemma Keeps_draw_lines line_cfg ax ids :
  forall handles, Keeps b (draw_lines autoscale line_cfg ax ids handles).
Proof.
  induction ids as [|i ids IH]; intros handles; [apply Keeps_ret|].
  cbn [draw_lines]. apply Keeps_bind; [apply Keeps_draw_line | apply IH].
Qed.

Lemma Keeps_shade_span ax pd : Keeps b (shade_span autoscale ax pd).
Proof.
  unfold shade_span. apply Keeps_bind; [apply Keeps_get_ylim|]. intros lim.
  apply Keeps_bind; [|intros _; apply Keeps_set_ylim].
  destruct (xspan pd), (yspan pd); try apply Keeps_ret. apply Keeps_ax_call.
Qed.

Lemma Keeps_setup_axes ax pd : Keeps b (setup_axes autoscale ax pd).
Proof.
  unfold setup_axes.
  repeat first
    [ apply Keeps_ax_call | apply Keeps_set_ylim
    | apply Keeps_if_some; intros | apply Keeps_when
    | apply Keeps_bind; [|intros _] ].
Qed.

Lemma Keeps_subplot_legend ax pd handles :
  ax <> b -> Keeps b (subplot_legend ax pd handles).
Proof.
  intros Hne. unfold subplot_legend. apply Keeps_if_some. intros ids.
  apply Keeps_bind; [apply Keeps_handles_of|]. intros hs.
  apply Keeps_bind; [now apply Keeps_legend_handles|]. intros _.
  apply Keeps_if_some. intros bb. now apply Keeps_legend_anchor.
Qed.

Lemma Keeps_render_lines line_cfg ax pd :
  ax <> b -> Keeps b (render_lines autoscale line_cfg ax pd).
Proof.
  intros Hne. unfold render_lines.
  apply Keeps_bind; [apply Keeps_draw_lines|]. intros handles.
  apply Keeps_bind; [apply Keeps_shade_span|]. intros _.
  now apply Keeps_subplot_legend.
Qed.

Lemma Keeps_render_subplot axs line_cfg (p : Z * plot_data) :
  (forall ax, py_index axs (fst p - 1) = Some ax -> ax <> b) ->
  Keeps b (render_subplot autoscale axs line_cfg p).
Proof.
  intros Hne. unfold render_subplot.
  destruct (py_index axs (fst p - 1)) as [ax|]; [|apply Keeps_raise].
  simpl. intros w. change (keeps_legend b w
    (snd ((setup_axes autoscale ax (snd p) ≫=
            fun _ => render_lines autoscale line_cfg ax (snd p)) w))).
  revert w. apply Keeps_bind; [apply Keeps_setup_axes|]. intros _.
  apply Keeps_render_lines. now apply Hne.
Qed.

Lemma Keeps_for_each_subplot axs line_cfg (plot_cfg : list (Z * plot_data)) :
  Forall (fun p => forall ax, py_index axs (fst p - 1) = Some ax -> ax <> b) plot_cfg ->
  Keeps b (for_each plot_cfg (render_subplot autoscale axs line_cfg)).
Proof.
  induction 1 as [|p rest Hp _ IH]; [apply Keeps_ret|].
  cbn [for_each]. apply Keeps_bind; [now apply Keeps_render_subplot|].
  intros _. exact IH.
Qed.

End Legends.

(** *** Steps that end normally and draw nothing *)

Section QuietSteps.

Variable autoscale : call -> ylim -> ylim.

Lemma Quiet_ret : Quiet (mret tt).
Proof. intros w. exists w, []. now rewrite app_nil_r. Qed.

Lemma Quiet_seq (m1 m2 : M unit) : Quiet m1 -> Quiet m2 -> Quiet (m1 ;; m2).
Proof.
  intros H1 H2 w. destruct (H1 w) as (w1 & cs1 & Hrun1 & Hc1 & Hn1 & Hl1).
  destruct (H2 w1) as (w2 & cs2 & Hrun2 & Hc2 & Hn2 & Hl2).
  exists w2, (cs1 ++ cs2). rewrite (bind_ok _ _ _ _ _ Hrun1).
  split; [exact Hrun2|]. split; [now rewrite Hc2, Hc1, app_assoc|].
  split; congruence.
Qed.

Lemma Quiet_ax_call (a : nat) (c : call) : Quiet (ax_call autoscale a c).
Proof.
  intros w. do 2 eexists. split; [reflexivity|]. split; [reflexivity|].
  split; [reflexivity|]. simpl. now rewrite length_alter.
Qed.

Lemma Quiet_set_ylim (a : nat) (l : ylim) : Quiet (set_ylim a l).
Proof.
  intros w. do 2 eexists. split; [reflexivity|]. split; [reflexivity|].
  split; [reflexivity|]. simpl. now rewrite length_alter.
Qed.

Lemma Quiet_if_some {A} (o : option A) (f : A -> M unit) :
  (forall a, Quiet (f a)) -> Quiet (if_some o f).
Proof. intros Hf. destruct o; [apply Hf | apply Quiet_ret]. Qed.

Lemma Quiet_when (c : bool) (m : M unit) : Quiet m -> Quiet (when_ c m).
Proof. intros Hm. destruct c; [exact Hm | apply Quiet_ret]. Qed.

Lemma Quiet_setup_axes (ax : nat) (pd : plot_data) : Quiet (setup_axes autoscale ax pd).
Proof.
  unfold setup_axes.
  repeat first
    [ apply Quiet_ax_call | apply Quiet_set_ylim
    | apply Quiet_if_some; intros | apply Quiet_when
    | apply Quiet_seq ].
Qed.

End QuietSteps.

(** *** One subplot, then all of them *)

Section Subplots.

Variable autoscale : call -> ylim -> ylim.
Variable line_cfg : dict line_data.

(** Lines 237-264 for a renderable subplot. *)
Lemma render_lines_run (ax : nat) (pd : plot_data) (w : world) :
  renderable line_cfg pd ->
  (ax < length (axes w))%nat ->
  exists w' cs,
    render_lines autoscale line_cfg ax pd w = (Ok tt, w')
    /\ calls w' = calls w ++ cs
    /\ next_handle w' = (next_handle w + length (default [] (line pd)))%nat
    /\ forall ids, legend pd = Some ids ->
         exists hs,
           ax_legend (axes_at w' ax) = Some hs
           /\ Forall2 (handle_of line_cfg cs (next_handle w) (next_handle w')) ids hs.
Proof.
  intros (Hbbox & Hdraw & Hsub) Hax. unfold render_lines.
  destruct (draw_lines_run autoscale line_cfg ax _ Hdraw [] w)
    as (handles & w1 & cs1 & Hrun1 & Hcalls1 & Hnext1 & Hlen1 & _ & _ & _ & _ & _ & Hnew).
  destruct (shade_span_run autoscale ax pd w1) as (w2 & cs2 & Hrun2 & Hcalls2 & Hnext2 & Hlen2).
  rewrite (bind_ok _ _ _ _ _ Hrun1), (bind_ok _ _ _ _ _ Hrun2).
  unfold subplot_legend. rewrite Hbbox.
  destruct (legend pd) as [ids|] eqn:Hleg; cbn [if_some].
  - pose proof (Hsub ids eq_refl) as Hin_lines. rewrite Forall_forall in Hin_lines.
    destruct (handles_of_run handles ids w2) as (hs & Hrun3 & Hhs).
    { intros id Hid. apply list_elem_of_In in Hid.
      destruct (Hnew id (Hin_lines id Hid)) as (h & Hh & _). now exists h. }
    rewrite (bind_ok _ _ _ _ _ Hrun3).
    set (lg := Legend ax hs (Some (default "best" (legends_position pd)))
                 (Some (default 1 (lgdncol pd))) None).
    eexists _, (cs1 ++ cs2 ++ [lg]). split; [reflexivity|]. split; [|split].
    + simpl. rewrite Hcalls2, Hcalls1, <- !app_assoc. reflexivity.
    + simpl. lia.
    + intros ids' [= <-]. exists hs. split.
      * unfold axes_at. simpl. rewrite list_lookup_alter_eq.
        destruct (lookup_lt_is_Some_2 (axes w2) ax) as [s Hs]; [lia|].
        rewrite Hs. reflexivity.
      * simpl. rewrite Hnext2.
        apply Forall2_same_length_lookup_2; [eapply Forall2_length; eauto|].
        intros i id h Hid Hh.
        pose proof (Forall2_lookup_lr _ _ _ _ _ _ Hhs Hid Hh) as Hget.
        assert (Hin : In id (default [] (line pd))).
        { apply Hin_lines. eapply list_elem_of_lookup_2; eauto. }
        destruct (Hnew id Hin) as (h' & Hh' & Hof).
        assert (h' = h) as -> by congruence.
        apply (handle_of_weaken line_cfg cs1 [] (cs2 ++ [lg]) _ (next_handle w) _ (next_handle w1)) in Hof;
          [exact Hof | lia | lia].
  - eexists _, (cs1 ++ cs2). split; [reflexivity|]. split; [|split].
    + simpl. rewrite Hcalls2, Hcalls1, <- !app_assoc. reflexivity.
    + simpl. lia.
    + intros ids' [=].
Qed.

(** Lines 214-264 for a renderable subplot whose axes exists. *)
Lemma render_subplot_run (axs : list nat) (p : Z * plot_data) (ax : nat) (w : world) :
  py_index axs (fst p - 1) = Some ax ->
  renderable line_cfg (snd p) ->
  (ax < length (axes w))%nat ->
  exists w' cs,
    render_subplot autoscale axs line_cfg p w = (Ok tt, w')
    /\ calls w' = calls w ++ cs
    /\ next_handle w' = (next_handle w + length (default [] (line (snd p))))%nat
    /\ (length (axes w) <= length (axes w'))%nat
    /\ forall ids, legend (snd p) = Some ids ->
         exists hs,
           ax_legend (axes_at w' ax) = Some hs
           /\ Forall2 (handle_of line_cfg cs (next_handle w) (next_handle w')) ids hs.
Proof.
  intros Hidx Hok Hax.
  assert (Hlen : (length (axes w)
                  <= length (axes (snd (render_subplot autoscale axs line_cfg p w))))%nat).
  { apply (Keeps_render_subplot autoscale (S ax) axs line_cfg p).
    intros ax' Hax'. rewrite Hidx in Hax'. injection Hax' as <-. lia. }
  assert (Heq : render_subplot autoscale axs line_cfg p w
                = (setup_axes autoscale ax (snd p) ;;
                   render_lines autoscale line_cfg ax (snd p)) w).
  { unfold render_subplot. rewrite Hidx. reflexivity. }
  rewrite Heq in *. clear Heq.
  destruct (Quiet_setup_axes autoscale ax (snd p) w) as (w1 & cs1 & Hrun1 & Hc1 & Hn1 & Hl1).
  destruct (render_lines_run ax (snd p) w1 Hok) as (w2 & cs2 & Hrun2 & Hc2 & Hn2 & Hleg);
    [lia|].
  rewrite (bind_ok _ _ _ _ _ Hrun1) in *. rewrite Hrun2 in *. simpl in Hlen.
  exists w2, (cs1 ++ cs2). split; [reflexivity|].
  split; [now rewrite Hc2, Hc1, app_assoc|]. split; [lia|]. split; [exact Hlen|].
  intros ids Hids. destruct (Hleg ids Hids) as (hs & Hhs & Hof).
  exists hs. split; [exact Hhs|]. rewrite <- Hn1.
  eapply Forall2_impl; [exact Hof|]. intros id h H.
  apply (handle_of_weaken line_cfg cs2 cs1 [] _ (next_handle w1) _ (next_handle w2)) in H;
    [|lia..].
  now rewrite app_nil_r in H.
Qed.

Lemma lines_drawn_cons (p : Z * plot_data) (rest : list (Z * plot_data)) :
  lines_drawn (p :: rest)
  = (length (default [] (line (snd p))) + lines_drawn rest)%nat.
Proof. reflexivity. Qed.

Lemma lines_drawn_take_le (plot_cfg : list (Z * plot_data)) (j k : nat) :
  (j <= k)%nat ->
  (lines_drawn (take j plot_cfg) <= lines_drawn (take k plot_cfg))%nat.
Proof.
  revert j k. induction plot_cfg as [|p rest IH]; intros j k Hjk.
  - now rewrite !take_nil.
  - destruct j as [|j]; [unfold lines_drawn at 1; simpl; lia|]. destruct k as [|k]; [lia|].
    cbn [take]. rewrite !lines_drawn_cons. specialize (IH j k). lia.
Qed.

Lemma handle_of_range (cs : list call) (lo hi : nat) (ids : list pykey)
    (hs : list nat) (h : nat) :
  Forall2 (handle_of line_cfg cs lo hi) ids hs -> In h hs -> (lo <= h < hi)%nat.
Proof.
  induction 1 as [|id h' ids hs [Hr _] _ IH]; intros Hin; [destruct Hin|].
  destruct Hin as [<-|Hin]; [exact Hr | now apply IH].
Qed.

(** The loop over the subplots, each on an axes of its own.  The k-th
    subplot draws its lines with the handles from
    [next_handle w + lines_drawn (take k plot_cfg)] on. *)
Lemma render_subplots_run (axs : list nat) (plot_cfg : list (Z * plot_data)) :
  forall (targets : list nat) (w : world),
    Forall2 (fun p ax => py_index axs (fst p - 1) = Some ax) plot_cfg targets ->
    NoDup targets ->
    Forall (fun ax => (ax < length (axes w))%nat) targets ->
    Forall (fun p => renderable line_cfg (snd p)) plot_cfg ->
    exists w' cs,
      for_each plot_cfg (render_subplot autoscale axs line_cfg) w = (Ok tt, w')
      /\ calls w' = calls w ++ cs
      /\ forall k p ax ids,
           plot_cfg !! k = Some p -> targets !! k = Some ax ->
           legend (snd p) = Some ids ->
           exists hs,
             ax_legend (axes_at w' ax) = Some hs
             /\ Forall2 (handle_of line_cfg cs
                           (next_handle w + lines_drawn (take k plot_cfg))
                           (next_handle w + lines_drawn (take (S k) plot_cfg)))
                  ids hs.
Proof.
  induction plot_cfg as [|p rest IH]; intros targets w Hidx Hnd Hlt Hok.
  - exists w, []. split; [reflexivity|]. split; [now rewrite app_nil_r|].
    intros k p ax ids Hk. discriminate Hk.
  - apply Forall2_cons_inv_l in Hidx as (ax & trest & Hp & Hrest & ->).
    apply NoDup_cons in Hnd as [Hnotin Hnd].
    apply Forall_cons in Hlt as [Hax Hlt]. apply Forall_cons in Hok as [Hokp Hok].
    destruct (render_subplot_run axs p ax w Hp Hokp Hax)
      as (w1 & cs1 & Hrun1 & Hc1 & Hn1 & Hl1 & Hleg1).
    destruct (IH trest w1 Hrest Hnd) as (w' & cs2 & Hrun2 & Hc2 & Hleg2); [|exact Hok|].
    { eapply Forall_impl; [exact Hlt|]. simpl. intros a Ha. lia. }
    exists w', (cs1 ++ cs2). cbn [for_each]. rewrite (bind_ok _ _ _ _ _ Hrun1).
    split; [exact Hrun2|]. split; [now rewrite Hc2, Hc1, app_assoc|].
    intros k q a ids Hk Ha Hids. destruct k as [|k]; simpl in Hk, Ha.
    + injection Hk as <-. injection Ha as <-.
      destruct (Hleg1 ids Hids) as (hs & Hhs & Hof). exists hs. split.
      * assert (Hkeep : keeps_legend ax w1 w').
        { pose proof (Keeps_for_each_subplot autoscale ax axs line_cfg rest) as HK.
          unfold Keeps in HK.
          replace w' with (snd (for_each rest (render_subplot autoscale axs line_cfg) w1))
            by (now rewrite Hrun2).
          apply HK.
          eapply Forall2_Forall_l; [exact Hrest|].
          apply Forall_forall. intros a' Ha' q Hq ax' Hax' ->.
          rewrite Hq in Hax'. injection Hax' as ->. now apply Hnotin. }
        destruct Hkeep as [_ Hkeep]. rewrite Hkeep by lia. exact Hhs.
      * rewrite take_0. cbn [take]. rewrite take_0, lines_drawn_cons.
        change (lines_drawn []) with 0%nat.
        eapply Forall2_impl; [exact Hof|]. intros id h H.
        apply (handle_of_weaken line_cfg cs1 [] cs2 _ (next_handle w + 0) _
                 (next_handle w + (length (default [] (line (snd p))) + 0))) in H;
          [exact H | lia | lia].
    + destruct (Hleg2 k q a ids Hk Ha Hids) as (hs & Hhs & Hof).
      exists hs. split; [exact Hhs|].
      cbn [take]. rewrite !lines_drawn_cons.
      eapply Forall2_impl; [exact Hof|]. intros id h H.
      apply (handle_of_weaken line_cfg cs2 cs1 [] _
               (next_handle w + (length (default [] (line (snd p)))
                                 + lines_drawn (take k rest))) _
               (next_handle w + (length (default [] (line (snd p)))
                                 + lines_drawn (take (S k) rest)))) in H;
        [|lia..].
      now rewrite app_nil_r in H.
Qed.

(** C2, as the code has it.  Let every subplot be renderable: its lines
    can be drawn, the identifiers of its legend list are in its own line
    list, and it has no 'bbox_to_anchor'; and let the subplots have axes
    of their own.  Then the loop over the subplots ends without an
    exception, and for every subplot with a legend list the legend of its
    axes holds one handle per identifier of the list, in the order of the
    list: the handle that a [plot] call made for this subplot returned
    for the arrays and the label of that line.  The legends of two
    different subplots have no handle in common. *)
Theorem subplot_legends (axs : list nat) (plot_cfg : list (Z * plot_data))
    (targets : list nat) (w : world) :
  Forall2 (fun p ax => py_index axs (fst p - 1) = Some ax) plot_cfg targets ->
  NoDup targets ->
  Forall (fun ax => (ax < length (axes w))%nat) targets ->
  Forall (fun p => renderable line_cfg (snd p)) plot_cfg ->
  exists w' cs,
    for_each plot_cfg (render_subplot autoscale axs line_cfg) w = (Ok tt, w')
    /\ calls w' = calls w ++ cs
    /\ (forall k p ax ids,
          plot_cfg !! k = Some p -> targets !! k = Some ax ->
          legend (snd p) = Some ids ->
          exists hs,
            ax_legend (axes_at w' ax) = Some hs
            /\ Forall2 (handle_of line_cfg cs
                          (next_handle w + lines_drawn (take k plot_cfg))
                          (next_handle w + lines_drawn (take (S k) plot_cfg)))
                 ids hs)
    /\ (forall k1 k2 p1 p2 ax1 ax2 hs1 hs2 h,
          k1 <> k2 ->
          plot_cfg !! k1 = Some p1 -> targets !! k1 = Some ax1 ->
          plot_cfg !! k2 = Some p2 -> targets !! k2 = Some ax2 ->
          is_Some (legend (snd p1)) -> is_Some (legend (snd p2)) ->
          ax_legend (axes_at w' ax1) = Some hs1 ->
          ax_legend (axes_at w' ax2) = Some hs2 ->
          In h hs1 -> ~ In h hs2).
Proof.
  intros Hidx Hnd Hlt Hok.
  destruct (render_subplots_run axs plot_cfg targets w Hidx Hnd Hlt Hok)
    as (w' & cs & Hrun & Hcalls & Hleg).
  exists w', cs. split; [exact Hrun|]. split; [exact Hcalls|]. split; [exact Hleg|].
  intros k1 k2 p1 p2 ax1 ax2 hs1 hs2 h Hne Hp1 Ht1 Hp2 Ht2 [ids1 Hl1] [ids2 Hl2]
    Hhs1 Hhs2 Hin1 Hin2.
  destruct (Hleg k1 p1 ax1 ids1 Hp1 Ht1 Hl1) as (hs1' & Hhs1' & Hof1).
  destruct (Hleg k2 p2 ax2 ids2 Hp2 Ht2 Hl2) as (hs2' & Hhs2' & Hof2).
  assert (hs1' = hs1) as -> by congruence. assert (hs2' = hs2) as -> by congruence.
  pose proof (handle_of_range _ _ _ _ _ _ Hof1 Hin1) as Hr1.
  pose proof (handle_of_range _ _ _ _ _ _ Hof2 Hin2) as Hr2.
  destruct (Nat.lt_total k1 k2) as [Hlt12|[Heq|Hlt21]]; [|contradiction|].
  - pose proof (lines_drawn_take_le plot_cfg (S k1) k2 ltac:(lia)). lia.
  - pose proof (lines_drawn_take_le plot_cfg (S k2) k1 ltac:(lia)). lia.
Qed.

End Subplots.

(** *** The whole call *)

Section WholeCall.

Variable autoscale : call -> ylim -> ylim.

Lemma subplots_ajdust_run (cfg : fig_cfg) (w : world) :
  exists axs w0,
    subplots_ajdust cfg w = (Ok axs, w0)
    /\ storage w0 = storage w /\ reads w0 = reads w
    /\ plot_axes (calls w0) = plot_axes (calls w).
Proof.
  do 2 eexists. split; [reflexivity|]. split; [reflexivity|].
  split; [reflexivity|]. simpl. rewrite <- !app_assoc, plot_axes_app.
  simpl. now rewrite app_nil_r.
Qed.

(** With well-formed (string) paths, a resolver run that succeeds has read
    a file for every (file, column) reference of [line_cfg], in order:
    once per reference, not once per file. *)
Lemma resolve_lines_reads_every_reference
    (line_cfg line_cfg' : dict line_data) (w w' : world) :
  resolve_lines line_cfg resolver_init w = (Ok line_cfg', w') ->
  reads w' = reads w ++ referenced_paths line_cfg.
Proof.
  intros Hrun.
  destruct (resolve_lines_run line_cfg resolver_init w) as (res & w1 & Hrun1 & _ & Hres);
    [constructor|].
  rewrite Hrun in Hrun1. injection Hrun1 as <- <-. now destruct Hres.
Qed.

(** C1, on the code.  One line that takes x and y from the same file: the
    call succeeds and [f.csv] has been read twice. *)
Theorem plot_line2D_reads_file_twice :
  exists line_cfg' w',
    plot_line2D autoscale empty_fig_cfg [] [(KInt 1, line_of "f.csv" "one")]
      (init_world one_file) = (Ok line_cfg', w')
    /\ reads w' = ["f.csv"; "f.csv"].
Proof. do 2 eexists. split; vm_compute; reflexivity. Qed.

(** C4, as the code has it.  When an entry has no source for its x data
    or none for its y data, the call ends with an exception after the
    calls of [subplots_ajdust] and before any line is drawn.  The
    exception is that of the first source that fails when [line_cfg] is
    gone through entry by entry, x before y: the ValueError of the
    missing key, the FileNotFoundError of a file that is not there, the
    KeyError of a column the file does not have.  So it is the
    ValueError whenever the references of the entries before a deficient
    entry and the x reference of that entry can be served by the storage,
    and in particular whenever every reference of [line_cfg] can. *)
Theorem plot_line2D_missing_data
    (cfg : fig_cfg) (plot_cfg : list (Z * plot_data))
    (line_cfg : dict line_data) (w : world) :
  Exists (fun kv => deficient (snd kv)) line_cfg ->
  exists e w',
    plot_line2D autoscale cfg plot_cfg line_cfg w = (Raise e, w')
    /\ calls w' = calls (snd (subplots_ajdust cfg w))
    /\ plot_axes (calls w') = plot_axes (calls w)
    /\ first_error (source_errors (storage w) line_cfg) = Some e
    /\ (forall pre kv post,
          line_cfg = pre ++ kv :: post ->
          refs_resolve (storage w) pre ->
          ref_resolves (storage w) (xdata (snd kv)) ->
          deficient (snd kv) ->
          e = xdata_missing \/ e = ydata_missing)
    /\ (refs_resolve (storage w) line_cfg ->
        e = xdata_missing \/ e = ydata_missing).
Proof.
  intros Hdef. unfold plot_line2D.
  destruct (subplots_ajdust_run cfg w) as (axs & w0 & Hrun0 & Hst0 & _ & Hpl0).
  rewrite (bind_ok _ _ _ _ _ Hrun0).
  destruct (resolve_lines_run line_cfg resolver_init w0) as (res & w1 & Hrun1 & Hfig & Hres);
    [constructor|].
  destruct (resolve_lines_error line_cfg resolver_init w0) as (res' & w1' & Hrun1' & _ & Herr);
    [constructor|].
  rewrite Hrun1 in Hrun1'. injection Hrun1' as <- <-. rewrite Hst0 in Herr.
  destruct res as [cfg'|e].
  - exfalso. destruct Hres as [Hnone _].
    apply Exists_exists in Hdef as (kv & Hin & Hkv).
    rewrite Forall_forall in Hnone. exact (Hnone kv Hin Hkv).
  - rewrite (bind_raise _ _ _ _ _ Hrun1). exists e, w1.
    destruct Hfig as (_ & _ & Hcalls & _).
    split; [reflexivity|]. rewrite Hrun0. simpl. split; [exact Hcalls|].
    split; [now rewrite Hcalls|]. split; [exact Herr|]. split.
    + intros pre kv post -> Hpre Hx Hkv.
      destruct (first_error_deficient _ pre post kv Hpre Hx Hkv) as [H|H];
        rewrite H in Herr; injection Herr as <-; auto.
    + intros Hall. apply Hres. now rewrite Hst0.
Qed.

End WholeCall.

Lemma plot_line2D_missing_data_witness :
  exists w',
    plot_line2D no_autoscale empty_fig_cfg [(1, plot_with [KInt 1; KInt 2] None None)]
      [(KInt 1, line_of "f.csv" "one"); (KInt 2, empty_line);
       (KInt 3, line_of "missing.csv" "three")]
      (init_world one_file) = (Raise xdata_missing, w')
    /\ plot_axes (calls w') = [].
Proof.
  destruct (plot_line2D_missing_data no_autoscale empty_fig_cfg
              [(1, plot_with [KInt 1; KInt 2] None None)]
              [(KInt 1, line_of "f.csv" "one"); (KInt 2, empty_line);
               (KInt 3, line_of "missing.csv" "three")]
              (init_world one_file))
    as (e & w' & Hrun & _ & Hplots & Herr & _).
  - apply Exists_cons_tl, Exists_cons_hd. left. split; reflexivity.
  - exists w'. split; [|exact Hplots].
    rewrite Hrun. vm_compute in Herr. injection Herr as <-. reflexivity.
Defined.

(** C4 as worded fails: an entry without x data, after an entry whose
    file does not exist.  The call ends with FileNotFoundError, which is
    not a ValueError. *)
Lemma plot_line2D_missing_data_other_error :
  Exists (fun kv => deficient (snd kv))
    [(KInt 1, line_of "missing.csv" "one"); (KInt 2, empty_line)]
  /\ fst (plot_line2D no_autoscale empty_fig_cfg []
            [(KInt 1, line_of "missing.csv" "one"); (KInt 2, empty_line)]
            (init_world one_file))
     = Raise (FileNotFoundError "missing.csv")
  /\ forall msg, Raise (A := dict line_data) (FileNotFoundError "missing.csv")
                 <> Raise (ValueError msg).
Proof.
  split; [|split].
  - apply Exists_cons_tl, Exists_cons_hd. left. split; reflexivity.
  - vm_compute. reflexivity.
  - intros msg H. discriminate H.
Qed.

Lemma three_lines_drawable :
  Forall (drawable three_lines) [KInt 1; KInt 2; KInt 3].
Proof.
  repeat constructor; eexists; (split; [reflexivity|]); split; eexists; reflexivity.
Qed.

Lemma draw_lines_secondary_axes_witness :
  exists handles' w' cs,
    draw_lines no_autoscale three_lines 0 [KInt 1; KInt 2; KInt 3] [] one_axes_world
    = (Ok handles', w')
    /\ calls w' = cs
    /\ twinx_created cs = [1%nat; 2%nat]
    /\ plot_axes cs = [1%nat; 0%nat; 2%nat].
Proof.
  destruct (draw_lines_secondary_axes no_autoscale three_lines 0
              [KInt 1; KInt 2; KInt 3] [] one_axes_world three_lines_drawable)
    as (handles' & w' & cs & Hrun & Hcalls & _).
  exists handles', w', cs. split; [exact Hrun|]. split; [exact Hcalls|].
  vm_compute in Hrun. injection Hrun as _ <-. simpl in Hcalls. subst cs.
  split; reflexivity.
Defined.

Lemma subplot_legends_witness :
  exists w',
    for_each [(1, plot_with [KInt 1; KInt 2] (Some [KInt 2; KInt 1]) None);
              (2, plot_with [KInt 3] (Some [KInt 3]) None)]
      (render_subplot no_autoscale [0%nat; 1%nat] three_lines) two_axes_world
    = (Ok tt, w')
    /\ ax_legend (axes_at w' 0) = Some [1%nat; 0%nat]
    /\ ax_legend (axes_at w' 1) = Some [2%nat].
Proof.
  destruct (subplot_legends no_autoscale three_lines [0%nat; 1%nat]
              [(1, plot_with [KInt 1; KInt 2] (Some [KInt 2; KInt 1]) None);
               (2, plot_with [KInt 3] (Some [KInt 3]) None)]
              [0%nat; 1%nat] two_axes_world)
    as (w' & cs & Hrun & _).
  - repeat constructor.
  - apply (bool_decide_unpack _). vm_compute. exact I.
  - repeat constructor.
  - pose proof three_lines_drawable as Hd.
    apply Forall_cons in Hd as [H1 Hd]. apply Forall_cons in Hd as [H2 Hd].
    apply Forall_cons in Hd as [H3 _].
    constructor; [|constructor; [|constructor]].
    + split; [reflexivity|]. split; [repeat constructor; assumption|].
      intros ids [= <-]. constructor; [simpl; auto|]. constructor; [simpl; auto | constructor].
    + split; [reflexivity|]. split; [repeat constructor; assumption|].
      intros ids [= <-]. constructor; [simpl; auto | constructor].
  - exists w'. split; [exact Hrun|].
    vm_compute in Hrun. injection Hrun as <-. split; reflexivity.
Defined.

(** C2 as worded fails in two ways.  A legend list that names a line
    which is not in the line list of its subplot ends the call with a
    KeyError, although the line is in [line_cfg].  With 'bbox_to_anchor'
    the second [legend] call replaces the legend by one of all labelled
    lines of the axes: the legend list names line 1 only, the legend holds
    the handles of lines 1 and 2. *)
Lemma legend_not_the_listed_handles :
  fst (plot_line2D no_autoscale empty_fig_cfg
         [(1, plot_with [KInt 1] (Some [KInt 2]) None)]
         [(KInt 1, line_of "f.csv" "one"); (KInt 2, line_of "f.csv" "two")]
         (init_world one_file))
  = Raise (KeyError (KInt 2))
  /\ (let r := plot_line2D no_autoscale empty_fig_cfg
                 [(1, plot_with [KInt 1; KInt 2] (Some [KInt 1]) (Some [1%Q; 1%Q]))]
                 [(KInt 1, line_of "f.csv" "one"); (KInt 2, line_of "f.csv" "two")]
                 (init_world one_file) in
      (exists cfg', fst r = Ok cfg')
      /\ ax_legend (axes_at (snd r) 0) = Some [0%nat; 1%nat]
      /\ ax_legend (axes_at (snd r) 0) <> Some [0%nat]).
Proof.
  split; [vm_compute; reflexivity|].
  cbv zeta. split; [eexists; vm_compute; reflexivity|].
  split; [vm_compute; reflexivity|].
  vm_compute. discriminate.
Qed.

End DataPlotFacts.

(** ** Part V: more about manData.py *)

Module ManDataMore.
Import ManData.
Import ManDataFacts.

(** *** No other file is written *)

Lemma combine_loop_other_files (dest p : string) (rs : list range) :
  p <> dest ->
  forall fs, files_after (combine_loop dest rs fs) !! p = fs !! p.
Proof.
  intros Hp. induction rs as [|r rest IH]; intros fs; [reflexivity|].
  cbn [combine_loop]. unfold combine_one.
  destruct (fs !! csv_file_name r) as [text|]; [|reflexivity].
  rewrite IH. now apply append_file_other.
Qed.

(** X1. Whether the call ends normally or with an exception, no file
    other than the destination is created, changed or removed. *)
Theorem combine_csv_files_other_files
    (dest p : string) (rs : list range) (fs : gmap string string) :
  p <> dest ->
  files_after (combine_csv_files dest rs fs) !! p = fs !! p.
Proof.
  intros Hp. unfold combine_csv_files.
  rewrite combine_loop_other_files by exact Hp. now apply lookup_delete_ne.
Qed.

Lemma combine_csv_files_other_files_witness :
  files_after (combine_csv_files "out.csv"
                 [Range "a.csv" 0 1 None; Range "missing.csv" 0 1 None]
                 {["a.csv" := "1
2
"; "b.csv" := "x
"]}) !! "b.csv" = Some "x
".
Proof.
  rewrite (combine_csv_files_other_files "out.csv" "b.csv") by discriminate.
  reflexivity.
Defined.

(** *** Whole files *)

Lemma spec_lines_whole_file (fs : gmap string string) (r : range) :
  whole_file fs r -> spec_lines (source_lines fs r) r = source_lines fs r.
Proof.
  intros (Hs & Hst & He & Hlen).
  rewrite <- select_lines_spec by lia.
  rewrite select_lines_take_drop by lia. rewrite Hst, Hs.
  change (Z.to_nat 1) with 1%nat. rewrite stride_one. simpl.
  apply take_ge. lia.
Qed.

Lemma copied_whole_files (fs : gmap string string) (rs : list range) :
  Forall (whole_file fs) rs ->
  writelines (copied fs rs) = writelines (map (source_text fs) rs).
Proof.
  induction 1 as [|r rest Hr _ IH]; [reflexivity|].
  unfold copied in *. simpl. rewrite writelines_app, IH.
  rewrite (spec_lines_whole_file fs r Hr). unfold source_lines, source_text.
  now rewrite writelines_readlines.
Qed.

(** X2. Ranges that each cover their whole file concatenate the files:
    the destination is, character for character, the texts of the source
    files one after the other in the order of the ranges (a last line
    without a line end is joined with the first line of the next file). *)
Theorem combine_csv_files_concatenates
    (dest : string) (rs : list range) (fs : gmap string string) :
  rs <> [] ->
  Forall (range_ok dest fs) rs ->
  Forall (whole_file fs) rs ->
  exists fs',
    combine_csv_files dest rs fs = Done fs'
    /\ fs' !! dest = Some (writelines (map (source_text fs) rs)).
Proof.
  intros Hne Hok Hwhole.
  destruct (combine_loop_spec dest fs rs Hok (delete dest fs)) as (fs' & Hrun & _ & Hdest).
  { intros r Hr. rewrite Forall_forall in Hok. apply list_elem_of_In in Hr.
    destruct (Hok r Hr) as (Hd & _). now rewrite lookup_delete_ne. }
  exists fs'. split; [exact Hrun|]. rewrite Hdest. destruct rs as [|r rest]; [contradiction|].
  rewrite lookup_delete_eq. simpl default. rewrite append_nil_l.
  now rewrite copied_whole_files.
Qed.

Lemma combine_csv_files_concatenates_witness :
  exists fs',
    combine_csv_files "out.csv" [Range "a.csv" 0 5 None; Range "b.csv" 0 1 (Some 1)]
      {["a.csv" := "1
2"; "b.csv" := "x
y
"]} = Done fs'
    /\ fs' !! "out.csv" = Some "1
2x
y
".
Proof.
  destruct (combine_csv_files_concatenates "out.csv"
              [Range "a.csv" 0 5 None; Range "b.csv" 0 1 (Some 1)]
              {["a.csv" := "1
2"; "b.csv" := "x
y
"]}) as (fs' & Hrun & Hdest).
  - discriminate.
  - repeat constructor; try discriminate; try lia; eexists; reflexivity.
  - repeat constructor; vm_compute; congruence.
  - exists fs'. split; [exact Hrun | exact Hdest].
Defined.

(** *** Running the call again *)

Lemma copied_same_sources (fs fs' : gmap string string) (rs : list range) :
  (forall r, In r rs -> fs' !! csv_file_name r = fs !! csv_file_name r) ->
  copied fs' rs = copied fs rs.
Proof.
  induction rs as [|r rest IH]; intros Hsame; [reflexivity|].
  unfold copied in *. simpl. rewrite IH by (intros; apply Hsame; now right).
  unfold source_lines. now rewrite (Hsame r) by now left.
Qed.

(** X3. The destination is removed before anything is written, so the
    call does not append across invocations: for ranges of files other
    than the destination, a second call with the same arguments leaves
    the file system exactly as the first one left it. *)
Theorem combine_csv_files_idempotent
    (dest : string) (rs : list range) (fs fs1 : gmap string string) :
  Forall (range_ok dest fs) rs ->
  combine_csv_files dest rs fs = Done fs1 ->
  combine_csv_files dest rs fs1 = Done fs1.
Proof.
  intros Hok Hrun1.
  destruct (combine_loop_spec dest fs rs Hok (delete dest fs)) as (fs1' & Hrun & Hother & Hdest).
  { intros r Hr. rewrite Forall_forall in Hok. apply list_elem_of_In in Hr.
    destruct (Hok r Hr) as (Hd & _). now rewrite lookup_delete_ne. }
  unfold combine_csv_files in Hrun1. rewrite Hrun in Hrun1. injection Hrun1 as ->.
  assert (Hsrc : forall r, In r rs -> fs1 !! csv_file_name r = fs !! csv_file_name r).
  { intros r Hr. rewrite Forall_forall in Hok. apply list_elem_of_In in Hr.
    destruct (Hok r Hr) as (Hd & _). rewrite Hother by exact Hd.
    now apply lookup_delete_ne. }
  assert (Hok1 : Forall (range_ok dest fs1) rs).
  { apply Forall_forall. intros r Hr. rewrite Forall_forall in Hok.
    destruct (Hok r Hr) as (Hd & Hsome & Hs & He).
    repeat split; try assumption. apply list_elem_of_In in Hr. now rewrite Hsrc. }
  destruct (combine_loop_spec dest fs1 rs Hok1 (delete dest fs1))
    as (fs2 & Hrun2 & Hother2 & Hdest2).
  { intros r Hr. rewrite Forall_forall in Hok1. apply list_elem_of_In in Hr.
    destruct (Hok1 r Hr) as (Hd & _). now rewrite lookup_delete_ne. }
  unfold combine_csv_files. rewrite Hrun2. f_equal. apply map_eq. intros p.
  destruct (decide (p = dest)) as [->|Hp].
  - rewrite Hdest2, Hdest, (copied_same_sources fs fs1 rs Hsrc).
    destruct rs; now rewrite !lookup_delete_eq.
  - rewrite (Hother2 p Hp). now apply lookup_delete_ne.
Qed.

Lemma combine_csv_files_idempotent_witness :
  combine_csv_files "out.csv" [Range "a.csv" 0 0 None]
    (<["out.csv" := "1
"]> {["a.csv" := "1
2
"]})
  = Done (<["out.csv" := "1
"]> {["a.csv" := "1
2
"]}).
Proof.
  apply (combine_csv_files_idempotent "out.csv" [Range "a.csv" 0 0 None]
           {["a.csv" := "1
2
"]}).
  - repeat constructor; try discriminate; try lia; eexists; reflexivity.
  - vm_compute. reflexivity.
Defined.

(** *** A source that cannot be opened *)

Lemma combine_loop_app (dest : string) (pre rest : list range) (fs : gmap string string) :
  combine_loop dest (pre ++ rest) fs
  = match combine_loop dest pre fs with
    | Done fs1 => combine_loop dest rest fs1
    | Raised e fs1 => Raised e fs1
    end.
Proof.
  revert fs. induction pre as [|r pre IH]; intros fs; [reflexivity|].
  simpl. destruct (combine_one dest fs r); [apply IH | reflexivity].
Qed.

(** X4. The call stops at the first range whose file does not exist, with
    FileNotFoundError for that file.  The ranges after it are not looked
    at, and what the ranges before it wrote stays: the destination holds
    their lines (it does not exist when there was no range before), every
    other file is as it was. *)
Theorem combine_csv_files_missing_source
    (dest : string) (pre post : list range) (r : range) (fs : gmap string string) :
  Forall (range_ok dest fs) pre ->
  csv_file_name r <> dest ->
  fs !! csv_file_name r = None ->
  exists fs',
    combine_csv_files dest (pre ++ r :: post) fs
    = Raised (FileNotFoundError (csv_file_name r)) fs'
    /\ (forall p, p <> dest -> fs' !! p = fs !! p)
    /\ fs' !! dest = match pre with
                     | [] => None
                     | _ => Some (writelines (copied fs pre))
                     end.
Proof.
  intros Hok Hne Hmiss.
  destruct (combine_loop_spec dest fs pre Hok (delete dest fs)) as (fs1 & Hrun & Hother & Hdest).
  { intros q Hq. rewrite Forall_forall in Hok. apply list_elem_of_In in Hq.
    destruct (Hok q Hq) as (Hd & _). now rewrite lookup_delete_ne. }
  exists fs1. unfold combine_csv_files. rewrite combine_loop_app, Hrun.
  cbn [combine_loop]. unfold combine_one.
  rewrite (Hother _ Hne), lookup_delete_ne, Hmiss by congruence.
  split; [reflexivity|]. split.
  - intros p Hp. rewrite (Hother p Hp). now apply lookup_delete_ne.
  - rewrite Hdest. destruct pre; now rewrite lookup_delete_eq.
Qed.

Lemma combine_csv_files_missing_source_witness :
  exists fs',
    combine_csv_files "out.csv"
      [Range "a.csv" 0 0 None; Range "gone.csv" 0 1 None; Range "a.csv" 1 1 None]
      {["a.csv" := "1
2
"]} = Raised (FileNotFoundError "gone.csv") fs'
    /\ fs' !! "out.csv" = Some "1
".
Proof.
  destruct (combine_csv_files_missing_source "out.csv"
              [Range "a.csv" 0 0 None] [Range "a.csv" 1 1 None]
              (Range "gone.csv" 0 1 None) {["a.csv" := "1
2
"]}) as (fs' & Hrun & _ & Hdest).
  - repeat constructor; try discriminate; try lia; eexists; reflexivity.
  - discriminate.
  - reflexivity.
  - exists fs'. split; [exact Hrun | exact Hdest].
Defined.

(** X5. A first range that reads from the destination itself finds it
    removed: the call ends with FileNotFoundError and the file, whatever
    it held, is gone. *)
Theorem combine_csv_files_source_is_destination
    (dest : string) (r : range) (rest : list range) (fs : gmap string string) :
  csv_file_name r = dest ->
  combine_csv_files dest (r :: rest) fs
  = Raised (FileNotFoundError dest) (delete dest fs)
  /\ files_after (combine_csv_files dest (r :: rest) fs) !! dest = None.
Proof.
  intros Hsame. unfold combine_csv_files. cbn [combine_loop]. unfold combine_one.
  rewrite Hsame, lookup_delete_eq. split; [reflexivity|]. simpl.
  apply lookup_delete_eq.
Qed.

Lemma combine_csv_files_source_is_destination_witness :
  combine_csv_files "a.csv" [Range "a.csv" 0 1 None] {["a.csv" := "1
2
"]} = Raised (FileNotFoundError "a.csv") ∅.
Proof.
  destruct (combine_csv_files_source_is_destination "a.csv"
              (Range "a.csv" 0 1 None) [] {["a.csv" := "1
2
"]} eq_refl) as [H _].
  rewrite H. now rewrite delete_singleton_eq.
Defined.

(** *** How many lines a range copies *)

Lemma stride_aux_length {A} (step skip : nat) (l : list A) :
  (skip < step)%nat ->
  length (stride_aux step skip l) = ((length l + (step - 1 - skip)) / step)%nat.
Proof.
  intros Hskip. revert skip Hskip.
  induction l as [|x l IH]; intros skip Hskip.
  - simpl. symmetry. apply Nat.div_small. lia.
  - destruct skip as [|k]; cbn [stride_aux length].
    + rewrite IH by lia.
      replace (S (length l) + (step - 1 - 0))%nat with (length l + 1 * step)%nat by lia.
      rewrite Nat.div_add by lia.
      replace (step - 1 - (step - 1))%nat with 0%nat by lia.
      rewrite Nat.add_0_r. lia.
    + rewrite IH by lia. f_equal. lia.
Qed.

(** X6. A range with [0 <= start] that reaches into its file copies
    [(last - start) / step + 1] lines, where [last] is the smaller of
    [end] and the index of the last line of the file, and [step] is 1
    unless a step greater than 1 is given. *)
Theorem select_lines_count (lines : list string) (r : range) :
  0 <= line_start r ->
  let last := Z.min (line_end r) (Z.of_nat (length lines) - 1) in
  line_start r <= last ->
  Z.of_nat (length (select_lines lines r))
  = (last - line_start r) / spec_step r + 1.
Proof.
  intros Hs last Hlast. subst last.
  pose proof (spec_step_pos r) as Hstep.
  rewrite select_lines_take_drop by lia.
  rewrite stride_aux_length by lia.
  rewrite length_take, length_drop.
  set (m := Z.min (line_end r) (Z.of_nat (length lines) - 1) - line_start r) in *.
  replace (Z.to_nat (line_end r + 1 - line_start r) `min`
           (length lines - Z.to_nat (line_start r)))%nat
    with (Z.to_nat m + 1)%nat by (unfold m; lia).
  replace (Z.to_nat m + 1 + (Z.to_nat (spec_step r) - 1 - 0))%nat
    with (Z.to_nat m + 1 * Z.to_nat (spec_step r))%nat by lia.
  rewrite Nat.div_add by lia.
  rewrite Nat2Z.inj_add, Nat2Z.inj_div, !Z2Nat.id by (unfold m; lia).
  reflexivity.
Qed.

Lemma select_lines_count_witness :
  Z.of_nat (length (select_lines ["0"; "1"; "2"; "3"; "4"; "5"; "6"]
                      (Range "a.csv" 1 20 (Some 3)))) = 2.
Proof.
  rewrite (select_lines_count ["0"; "1"; "2"; "3"; "4"; "5"; "6"]
             (Range "a.csv" 1 20 (Some 3))); [reflexivity | simpl; lia | simpl; lia].
Defined.

(** *** Lines stay lines *)

Lemma spec_lines_from_Forall (P : string -> Prop) (start stop step : Z)
    (lines : list string) :
  Forall P lines ->
  forall i, Forall P (spec_lines_from start stop step i lines).
Proof.
  induction 1 as [|l rest Hl _ IH]; intros i; simpl; [constructor|].
  destruct (bool_decide _); simpl; [constructor; [exact Hl | apply IH] | apply IH].
Qed.

Lemma copied_Forall (P : string -> Prop) (fs : gmap string string) (rs : list range) :
  Forall (fun r => Forall P (source_lines fs r)) rs -> Forall P (copied fs rs).
Proof.
  induction 1 as [|r rest Hr _ IH]; [constructor|].
  unfold copied in *. simpl. apply Forall_app. split; [|exact IH].
  now apply spec_lines_from_Forall.
Qed.

(** X7. When every line of every source file ends with a line end, the
    destination read back line by line is exactly the list of the copied
    lines: no two of them are joined, none is split, and their order is
    the order of the ranges. *)
Theorem combine_csv_files_lines
    (dest : string) (rs : list range) (fs : gmap string string) :
  rs <> [] ->
  Forall (range_ok dest fs) rs ->
  Forall (fun r => Forall (fun l => complete_line l = true) (source_lines fs r)) rs ->
  exists fs' out,
    combine_csv_files dest rs fs = Done fs'
    /\ fs' !! dest = Some out
    /\ readlines out = copied fs rs.
Proof.
  intros Hne Hok Hlines.
  destruct (combine_loop_spec dest fs rs Hok (delete dest fs)) as (fs' & Hrun & _ & Hdest).
  { intros r Hr. rewrite Forall_forall in Hok. apply list_elem_of_In in Hr.
    destruct (Hok r Hr) as (Hd & _). now rewrite lookup_delete_ne. }
  exists fs', (writelines (copied fs rs)). split; [exact Hrun|]. split.
  - rewrite Hdest. destruct rs as [|r rest]; [contradiction|].
    rewrite lookup_delete_eq. simpl default. now rewrite append_nil_l.
  - rewrite <- (append_empty_r (writelines _)).
    rewrite readlines_writelines by now apply copied_Forall.
    simpl. apply app_nil_r.
Qed.

Lemma combine_csv_files_lines_witness :
  exists fs' out,
    combine_csv_files "out.csv" [Range "a.csv" 1 2 None; Range "a.csv" 0 9 (Some 2)]
      {["a.csv" := "1
2
3
"]} = Done fs'
    /\ fs' !! "out.csv" = Some out
    /\ readlines out = ["2
"; "3
"; "1
"; "3
"].
Proof.
  destruct (combine_csv_files_lines "out.csv"
              [Range "a.csv" 1 2 None; Range "a.csv" 0 9 (Some 2)]
              {["a.csv" := "1
2
3
"]}) as (fs' & out & Hrun & Hout & Hlines).
  - discriminate.
  - repeat constructor; try discriminate; try lia; eexists; reflexivity.
  - repeat constructor.
  - exists fs', out. split; [exact Hrun|]. split; [exact Hout | exact Hlines].
Defined.

End ManDataMore.

(** ** Part VI: more about dataPlot.py *)

Module DataPlotMore.
Import DataPlot.
Import DataPlotFacts.

(** *** What the resolver returns *)

Lemma ref_resolves_column (st : gmap string table) (p c : string) (t : table) (a : series) :
  st !! p = Some t -> t !! c = Some a ->
  ref_resolves st (Some (p, c)) /\ column st (p, c) = Some a.
Proof.
  intros Ht Ha. split.
  - exists t. split; [exact Ht | now exists a].
  - unfold column. simpl. rewrite Ht. simpl. exact Ha.
Qed.

Lemma resolve_entry_result (ld : line_data) (rs : resolver) (w : world) :
  keys_int (data_file_names rs) ->
  exists res w',
    (resolve_x ld rs ≫= fun r1 => resolve_y (fst r1) (snd r1)) w = (res, w')
    /\ storage w' = storage w
    /\ match res with
       | Ok r2 =>
           keys_int (data_file_names (snd r2))
           /\ resolved_entry (storage w) ld (fst r2)
           /\ ref_resolves (storage w) (xdata ld)
           /\ ref_resolves (storage w) (ydata ld)
       | Raise e => unresolvable (storage w) ld
       end.
Proof.
  intros Hk. unfold mbind, M_bind, unresolvable, deficient.
  rewrite (resolve_x_run ld rs w Hk).
  destruct (xdata ld) as [[px cx]|] eqn:Ex.
  - destruct (storage w !! px) as [t|] eqn:Et.
    2:{ do 2 eexists. split; [reflexivity|]. split; [reflexivity|].
        right. left. intros (t & Ht & _). congruence. }
    destruct (t !! cx) as [a|] eqn:Ea.
    2:{ do 2 eexists. split; [reflexivity|]. split; [reflexivity|].
        right. left. intros (t' & Ht' & [a' Ha']). congruence. }
    destruct (ref_resolves_column _ _ _ _ _ Et Ea) as [Hrx Hcx].
    rewrite resolve_y_run by (simpl; now apply keys_int_set). simpl.
    destruct (ydata ld) as [[py cy]|] eqn:Ey.
    + destruct (storage w !! py) as [t2|] eqn:Et2.
      2:{ do 2 eexists. split; [reflexivity|]. split; [reflexivity|].
          right. right. intros (t' & Ht' & _). congruence. }
      destruct (t2 !! cy) as [a2|] eqn:Ea2.
      2:{ do 2 eexists. split; [reflexivity|]. split; [reflexivity|].
          right. right. intros (t' & Ht' & [a' Ha']). congruence. }
      destruct (ref_resolves_column _ _ _ _ _ Et2 Ea2) as [Hry Hcy].
      do 2 eexists. split; [reflexivity|]. split; [reflexivity|]. simpl.
      split; [now apply keys_int_set, keys_int_set|].
      split; [|split; [exact Hrx | exact Hry]].
      unfold resolved_entry. simpl. rewrite Ex, Ey. simpl.
      rewrite Hcx, Hcy. repeat split; eauto.
    + destruct (ydata_array ld) as [ay|] eqn:Eay.
      * do 2 eexists. split; [reflexivity|]. split; [reflexivity|]. simpl.
        split; [now apply keys_int_set|].
        split; [|split; [exact Hrx | exact I]].
        unfold resolved_entry. simpl. rewrite Ex, Ey, Eay. simpl.
        rewrite Hcx. repeat split; eauto.
      * do 2 eexists. split; [reflexivity|]. split; [reflexivity|].
        left. right. auto.
  - destruct (xdata_array ld) as [ax|] eqn:Eax.
    2:{ do 2 eexists. split; [reflexivity|]. split; [reflexivity|].
        left. left. auto. }
    rewrite resolve_y_run by exact Hk. simpl.
    destruct (ydata ld) as [[py cy]|] eqn:Ey.
    + destruct (storage w !! py) as [t2|] eqn:Et2.
      2:{ do 2 eexists. split; [reflexivity|]. split; [reflexivity|].
          right. right. intros (t' & Ht' & _). congruence. }
      destruct (t2 !! cy) as [a2|] eqn:Ea2.
      2:{ do 2 eexists. split; [reflexivity|]. split; [reflexivity|].
          right. right. intros (t' & Ht' & [a' Ha']). congruence. }
      destruct (ref_resolves_column _ _ _ _ _ Et2 Ea2) as [Hry Hcy].
      do 2 eexists. split; [reflexivity|]. split; [reflexivity|]. simpl.
      split; [now apply keys_int_set|].
      split; [|split; [exact I | exact Hry]].
      unfold resolved_entry. simpl. rewrite Ex, Ey, Eax. simpl.
      rewrite Hcy. repeat split; eauto.
    + destruct (ydata_array ld) as [ay|] eqn:Eay.
      * do 2 eexists. split; [reflexivity|]. split; [reflexivity|]. simpl.
        split; [exact Hk|]. split; [|split; exact I].
        unfold resolved_entry. rewrite Ex, Ey, Eax, Eay. simpl.
        repeat split; eauto.
      * do 2 eexists. split; [reflexivity|]. split; [reflexivity|].
        left. right. auto.
Qed.

Lemma resolve_lines_result (line_cfg : dict line_data) :
  forall (rs : resolver) (w : world),
    keys_int (data_file_names rs) ->
    exists res w',
      resolve_lines line_cfg rs w = (res, w')
      /\ storage w' = storage w
      /\ match res with
         | Ok cfg' =>
             Forall2 (fun kv kv' => fst kv' = fst kv
                                    /\ resolved_entry (storage w) (snd kv) (snd kv'))
               line_cfg cfg'
             /\ Forall (fun kv => ~ deficient (snd kv)) line_cfg
             /\ refs_resolve (storage w) line_cfg
         | Raise e => Exists (fun kv => unresolvable (storage w) (snd kv)) line_cfg
         end.
Proof.
  induction line_cfg as [|[line_id ld] rest IH]; intros rs w Hk.
  - do 2 eexists. split; [reflexivity|]. split; [reflexivity|].
    simpl. repeat split; constructor.
  - cbn [resolve_lines]. rewrite bind_assoc.
    destruct (resolve_entry_result ld rs w Hk) as (res & w1 & Hrun & Hst & Hres).
    destruct res as [r2|e].
    + rewrite (bind_ok _ _ _ _ _ Hrun). destruct Hres as (Hk2 & Hent & Hrx & Hry).
      destruct (IH (snd r2) w1 Hk2) as (res' & w2 & Hrun' & Hst' & Hres').
      rewrite Hst in Hres'.
      destruct res' as [rest'|e].
      * rewrite (bind_ok _ _ _ _ _ Hrun'). do 2 eexists.
        split; [reflexivity|]. split; [simpl; congruence|].
        destruct Hres' as (Hall & Hnd & Hrr). split; [|split].
        -- constructor; [split; [reflexivity | exact Hent] | exact Hall].
        -- constructor; [|exact Hnd]. simpl.
           destruct Hent as ([ax Hax] & [ay Hay] & Hx & Hy & _).
           unfold resolved_array in *. intros [[H1 H2]|[H1 H2]].
           ++ rewrite H1, H2 in Hx. congruence.
           ++ rewrite H1, H2 in Hy. congruence.
        -- constructor; [split; assumption | exact Hrr].
      * rewrite (bind_raise _ _ _ _ _ Hrun'). do 2 eexists.
        split; [reflexivity|]. split; [simpl; congruence|].
        now apply Exists_cons_tl.
    + rewrite (bind_raise _ _ _ _ _ Hrun). do 2 eexists.
      split; [reflexivity|]. split; [exact Hst|]. now apply Exists_cons_hd.
Qed.

(** X8. The resolver succeeds exactly when every entry has a source for
    its x data and one for its y data, and every (file, column) reference
    names a file of the storage and a column of that file. *)
Theorem resolve_lines_succeeds_iff (line_cfg : dict line_data) (w : world) :
  (exists cfg' w', resolve_lines line_cfg resolver_init w = (Ok cfg', w'))
  <-> Forall (fun kv => ~ deficient (snd kv)) line_cfg
      /\ refs_resolve (storage w) line_cfg.
Proof.
  destruct (resolve_lines_result line_cfg resolver_init w) as (res & w1 & Hrun & _ & Hres);
    [constructor|].
  split.
  - intros (cfg' & w' & Hrun'). rewrite Hrun' in Hrun. injection Hrun as <- <-.
    now destruct Hres as (_ & H1 & H2).
  - intros [Hnd Hrr]. destruct res as [cfg'|e]; [now exists cfg', w1|].
    exfalso. apply Exists_exists in Hres as (kv & Hin & Hbad).
    rewrite Forall_forall in Hnd. unfold refs_resolve in Hrr.
    rewrite Forall_forall in Hrr. destruct (Hrr kv Hin) as [Hx Hy].
    destruct Hbad as [Hd|[Hnx|Hny]]; [exact (Hnd kv Hin Hd) | exact (Hnx Hx) | exact (Hny Hy)].
Qed.

(** X9. When the resolver succeeds, the entries come back under the same
    identifiers and in the same order, each with both arrays: for an axis
    with a (file, column) reference the array is that column of that file
    (an array given beside the reference is replaced), without a
    reference the given array stays; no other field of an entry
    changes. *)
Theorem resolve_lines_arrays (line_cfg cfg' : dict line_data) (w w' : world) :
  resolve_lines line_cfg resolver_init w = (Ok cfg', w') ->
  Forall2 (fun kv kv' => fst kv' = fst kv
                         /\ resolved_entry (storage w) (snd kv) (snd kv'))
    line_cfg cfg'.
Proof.
  intros Hrun'.
  destruct (resolve_lines_result line_cfg resolver_init w) as (res & w1 & Hrun & _ & Hres);
    [constructor|].
  rewrite Hrun' in Hrun. injection Hrun as <- <-. now destruct Hres.
Qed.

(** X10. Entries that bring their arrays and no file reference need no
    storage: the resolver returns them as they are and reads nothing. *)
Theorem resolve_lines_given_arrays (line_cfg : dict line_data) (w : world) :
  Forall (fun kv => xdata (snd kv) = None /\ ydata (snd kv) = None
                    /\ is_Some (xdata_array (snd kv))
                    /\ is_Some (ydata_array (snd kv))) line_cfg ->
  forall rs, resolve_lines line_cfg rs w = (Ok line_cfg, w).
Proof.
  induction 1 as [|[line_id ld] rest (Hx & Hy & [ax Hax] & [ay Hay]) _ IH]; intros rs;
    [reflexivity|].
  cbn [resolve_lines]. unfold resolve_x, resolve_y. simpl in *.
  rewrite Hx, Hax. unfold mbind at 1, M_bind at 1. simpl.
  rewrite Hy, Hay. unfold mbind at 1, M_bind at 1. simpl.
  unfold mbind, M_bind. rewrite IH. reflexivity.
Qed.

Lemma resolve_lines_arrays_witness :
  exists ld' w',
    resolve_lines [(KInt 1, line_of "f.csv" "one")] resolver_init (init_world one_file)
    = (Ok [(KInt 1, ld')], w')
    /\ xdata_array ld' = Some [1%Q; 2%Q] /\ ydata_array ld' = Some [3%Q; 4%Q].
Proof.
  eexists _, _. split; [vm_compute; reflexivity|].
  pose proof (resolve_lines_arrays [(KInt 1, line_of "f.csv" "one")] _
                (init_world one_file) _ eq_refl) as H.
  apply Forall2_cons in H as [[_ (_ & _ & Hx & Hy & _)] _].
  split; [exact Hx | exact Hy].
Defined.

Lemma resolve_lines_given_arrays_witness :
  resolve_lines three_lines resolver_init (init_world ∅)
  = (Ok three_lines, init_world ∅).
Proof.
  apply resolve_lines_given_arrays.
  repeat constructor; eexists; reflexivity.
Defined.

(** *** Steps that read no file and save no figure *)

Section Drawing.

Variable autoscale : call -> ylim -> ylim.

Lemma draws_only_refl (w : world) : draws_only w w.
Proof. repeat split. Qed.

Lemma draws_only_trans (w1 w2 w3 : world) :
  draws_only w1 w2 -> draws_only w2 w3 -> draws_only w1 w3.
Proof. unfold draws_only. intuition congruence. Qed.

Lemma saved_app (cs1 cs2 : list call) : saved (cs1 ++ cs2) = saved cs1 ++ saved cs2.
Proof. apply omap_app. Qed.

Lemma saved_snoc (cs : list call) (c : call) :
  is_save c = false -> saved (cs ++ [c]) = saved cs.
Proof.
  intros Hc. rewrite saved_app. unfold saved at 2. simpl.
  destruct c; try discriminate Hc; now rewrite app_nil_r.
Qed.

Lemma DrawsOnly_ret {A} (a : A) : DrawsOnly (mret a).
Proof. intros w. apply draws_only_refl. Qed.

Lemma DrawsOnly_raise {A} (e : exn) : DrawsOnly (raise (A := A) e).
Proof. intros w. apply draws_only_refl. Qed.

Lemma DrawsOnly_bind {A B} (m : M A) (f : A -> M B) :
  DrawsOnly m -> (forall a, DrawsOnly (f a)) -> DrawsOnly (m ≫= f).
Proof.
  intros Hm Hf w. specialize (Hm w). unfold mbind, M_bind.
  destruct (m w) as [[a|e] w1]; simpl in *; [|exact Hm].
  eapply draws_only_trans; [exact Hm | apply Hf].
Qed.

Lemma DrawsOnly_from_option {A} (e : exn) (o : option A) : DrawsOnly (from_option e o).
Proof. destruct o; [apply DrawsOnly_ret | apply DrawsOnly_raise]. Qed.

Lemma DrawsOnly_if_some {A} (o : option A) (f : A -> M unit) :
  (forall a, DrawsOnly (f a)) -> DrawsOnly (if_some o f).
Proof. intros Hf. destruct o; [apply Hf | apply DrawsOnly_ret]. Qed.

Lemma DrawsOnly_when (c : bool) (m : M unit) : DrawsOnly m -> DrawsOnly (when_ c m).
Proof. intros Hm. destruct c; [exact Hm | apply DrawsOnly_ret]. Qed.

Lemma DrawsOnly_record (c : call) : is_save c = false -> DrawsOnly (record c).
Proof.
  intros Hc w. split; [reflexivity|]. split; [reflexivity|].
  simpl. now apply saved_snoc.
Qed.

Lemma DrawsOnly_update_axes (a : nat) (f : axes_state -> axes_state) :
  DrawsOnly (update_axes a f).
Proof. intros w. repeat split. Qed.

Lemma DrawsOnly_ax_call (a : nat) (c : call) :
  is_save c = false -> DrawsOnly (ax_call autoscale a c).
Proof.
  intros Hc. unfold ax_call. apply DrawsOnly_bind; [now apply DrawsOnly_record|].
  intros _. apply DrawsOnly_update_axes.
Qed.

Lemma DrawsOnly_set_ylim (a : nat) (l : ylim) : DrawsOnly (set_ylim a l).
Proof.
  unfold set_ylim. apply DrawsOnly_bind; [now apply DrawsOnly_record|].
  intros _. apply DrawsOnly_update_axes.
Qed.

Lemma DrawsOnly_get_ylim (a : nat) : DrawsOnly (get_ylim a).
Proof. intros w. apply draws_only_refl. Qed.

Lemma DrawsOnly_twinx (a : nat) : DrawsOnly (twinx a).
Proof.
  intros w. split; [reflexivity|]. split; [reflexivity|].
  simpl. now apply saved_snoc.
Qed.

Lemma DrawsOnly_plot (a : nat) x y c ls mk me lbl kw :
  DrawsOnly (plot autoscale a x y c ls mk me lbl kw).
Proof.
  intros w. split; [reflexivity|]. split; [reflexivity|].
  simpl. now apply saved_snoc.
Qed.

Lemma DrawsOnly_get_legend_handles_labels (a : nat) :
  DrawsOnly (get_legend_handles_labels a).
Proof. intros w. apply draws_only_refl. Qed.

Lemma DrawsOnly_legend_handles (a : nat) hs loc ncol :
  DrawsOnly (legend_handles a hs loc ncol).
Proof.
  unfold legend_handles. apply DrawsOnly_bind; [now apply DrawsOnly_record|].
  intros _. apply DrawsOnly_update_axes.
Qed.

Lemma DrawsOnly_legend_anchor (a : nat) bb : DrawsOnly (legend_anchor a bb).
Proof.
  unfold legend_anchor.
  apply DrawsOnly_bind; [apply DrawsOnly_get_legend_handles_labels|]. intros hl.
  apply DrawsOnly_bind; [now apply DrawsOnly_record|].
  intros _. apply DrawsOnly_update_axes.
Qed.

Lemma DrawsOnly_handles_of (handles : dict nat) (ids : list pykey) :
  DrawsOnly (handles_of handles ids).
Proof.
  induction ids as [|i ids IH]; [apply DrawsOnly_ret|].
  cbn [handles_of]. apply DrawsOnly_bind; [apply DrawsOnly_from_option|]. intros h.
  apply DrawsOnly_bind; [exact IH|]. intros hs. apply DrawsOnly_ret.
Qed.

Lemma DrawsOnly_draw_line line_cfg ax handles line_id :
  DrawsOnly (draw_line autoscale line_cfg ax handles line_id).
Proof.
  unfold draw_line.
  apply DrawsOnly_bind; [apply DrawsOnly_from_option|]. intros ld.
  apply DrawsOnly_bind; [apply DrawsOnly_from_option|]. intros x.
  apply DrawsOnly_bind; [apply DrawsOnly_from_option|]. intros y.
  destruct (truthy_str (rightYAxis ld)).
  - apply DrawsOnly_bind; [apply DrawsOnly_twinx|]. intros ax2.
    apply DrawsOnly_bind; [now apply DrawsOnly_ax_call|]. intros _.
    apply DrawsOnly_bind; [apply DrawsOnly_if_some; intros; apply DrawsOnly_set_ylim|].
    intros _.
    apply DrawsOnly_bind; [now apply DrawsOnly_when, DrawsOnly_ax_call|]. intros _.
    apply DrawsOnly_bind; [apply DrawsOnly_plot|]. intros h. apply DrawsOnly_ret.
  - apply DrawsOnly_bind; [apply DrawsOnly_plot|]. intros h. apply DrawsOnly_ret.
Qed.

Lemma DrawsOnly_draw_lines line_cfg ax ids :
  forall handles, DrawsOnly (draw_lines autoscale line_cfg ax ids handles).
Proof.
  induction ids as [|i ids IH]; intros handles; [apply DrawsOnly_ret|].
  cbn [draw_lines]. apply DrawsOnly_bind; [apply DrawsOnly_draw_line | apply IH].
Qed.

Lemma DrawsOnly_shade_span ax pd : DrawsOnly (shade_span autoscale ax pd).
Proof.
  unfold shade_span. apply DrawsOnly_bind; [apply DrawsOnly_get_ylim|]. intros lim.
  apply DrawsOnly_bind; [|intros _; apply DrawsOnly_set_ylim].
  destruct (xspan pd), (yspan pd); try apply DrawsOnly_ret. now apply DrawsOnly_ax_call.
Qed.

Lemma DrawsOnly_setup_axes ax pd : DrawsOnly (setup_axes autoscale ax pd).
Proof.
  unfold setup_axes.
  repeat first
    [ apply DrawsOnly_ax_call; reflexivity | apply DrawsOnly_set_ylim
    | apply DrawsOnly_if_some; intros | apply DrawsOnly_when
    | apply DrawsOnly_bind; [|intros _] ].
Qed.

Lemma DrawsOnly_subplot_legend ax pd handles :
  DrawsOnly (subplot_legend ax pd handles).
Proof.
  unfold subplot_legend. apply DrawsOnly_if_some. intros ids.
  apply DrawsOnly_bind; [apply DrawsOnly_handles_of|]. intros hs.
  apply DrawsOnly_bind; [apply DrawsOnly_legend_handles|]. intros _.
  apply DrawsOnly_if_some. intros bb. apply DrawsOnly_legend_anchor.
Qed.

Lemma DrawsOnly_render_subplot axs line_cfg (p : Z * plot_data) :
  DrawsOnly (render_subplot autoscale axs line_cfg p).
Proof.
  unfold render_subplot.
  apply DrawsOnly_bind; [apply DrawsOnly_from_option|]. intros ax.
  apply DrawsOnly_bind; [apply DrawsOnly_setup_axes|]. intros _.
  unfold render_lines.
  apply DrawsOnly_bind; [apply DrawsOnly_draw_lines|]. intros handles.
  apply DrawsOnly_bind; [apply DrawsOnly_shade_span|]. intros _.
  apply DrawsOnly_subplot_legend.
Qed.

Lemma DrawsOnly_for_each {A} (l : list A) (body : A -> M unit) :
  (forall a, DrawsOnly (body a)) -> DrawsOnly (for_each l body).
Proof.
  intros Hb. induction l as [|a l IH]; [apply DrawsOnly_ret|].
  cbn [for_each]. apply DrawsOnly_bind; [apply Hb | intros _; exact IH].
Qed.

Lemma DrawsOnly_collect_legends axs ids : DrawsOnly (collect_legends axs ids).
Proof.
  induction ids as [|i ids IH]; [apply DrawsOnly_ret|].
  cbn [collect_legends].
  apply DrawsOnly_bind; [apply DrawsOnly_from_option|]. intros ax.
  apply DrawsOnly_bind; [apply DrawsOnly_get_legend_handles_labels|]. intros hl.
  apply DrawsOnly_bind; [exact IH|]. intros tl. apply DrawsOnly_ret.
Qed.

Lemma DrawsOnly_figure_legend cfg axs : DrawsOnly (figure_legend cfg axs).
Proof.
  unfold figure_legend. apply DrawsOnly_when.
  apply DrawsOnly_bind; [apply DrawsOnly_collect_legends|]. intros hl.
  now apply DrawsOnly_record.
Qed.

End Drawing.

(** *** The phases of plot_line2D *)

Section Phases.

Variable autoscale : call -> ylim -> ylim.

Lemma save_figure_run (cfg : fig_cfg) (w : world) :
  exists w',
    save_figure cfg w = (Ok tt, w')
    /\ calls w' = calls w ++ save_calls cfg
    /\ reads w' = reads w.
Proof.
  unfold save_figure, save_calls. cbv zeta.
  destruct (String.eqb (default "png" (fig_format cfg)) "png");
    (eexists; split; [reflexivity|]; split; [|reflexivity]; simpl;
     rewrite <- ?app_assoc; reflexivity).
Qed.

Lemma subplots_ajdust_draws_only (cfg : fig_cfg) (w : world) :
  exists axs w0, subplots_ajdust cfg w = (Ok axs, w0) /\ draws_only w w0.
Proof.
  do 2 eexists. split; [reflexivity|]. split; [reflexivity|].
  split; [reflexivity|]. simpl. rewrite !saved_snoc by reflexivity. reflexivity.
Qed.

(** The call, phase by phase: the figure, the resolver, the rendering
    with the figure legend, the saving, the showing. *)
Lemma plot_line2D_phases (cfg : fig_cfg) (plot_cfg : list (Z * plot_data))
    (line_cfg : dict line_data) (w : world) :
  exists axs w0,
    subplots_ajdust cfg w = (Ok axs, w0)
    /\ draws_only w w0
    /\ plot_line2D autoscale cfg plot_cfg line_cfg w
       = match resolve_lines line_cfg resolver_init w0 with
         | (Ok cfg1, w1) =>
             match (for_each plot_cfg (render_subplot autoscale axs cfg1) ;;
                    figure_legend cfg axs) w1 with
             | (Ok _, w2) =>
                 (Ok cfg1,
                  set_calls (calls w2 ++ save_calls cfg ++ [PltShow]) w2)
             | (Raise e, w2) => (Raise e, w2)
             end
         | (Raise e, w1) => (Raise e, w1)
         end.
Proof.
  destruct (subplots_ajdust_draws_only cfg w) as (axs & w0 & Hrun0 & Hd0).
  exists axs, w0. split; [exact Hrun0|]. split; [exact Hd0|].
  unfold plot_line2D. rewrite (bind_ok _ _ _ _ _ Hrun0).
  unfold mbind at 1, M_bind at 1.
  destruct (resolve_lines line_cfg resolver_init w0) as [[cfg1|e] w1]; [|reflexivity].
  unfold mbind, M_bind.
  destruct (for_each plot_cfg (render_subplot autoscale axs cfg1) w1) as [[[]|e] w2];
    [|reflexivity].
  destruct (figure_legend cfg axs w2) as [[[]|e] w3]; [|reflexivity].
  unfold save_figure, save_calls, when_, record, set_calls, mret, M_ret. cbv zeta.
  destruct (String.eqb (default "png" (fig_format cfg)) "png"); simpl;
    rewrite <- ?app_assoc; reflexivity.
Qed.

Lemma DrawsOnly_rendering (cfg : fig_cfg) (plot_cfg : list (Z * plot_data))
    (axs : list nat) (line_cfg : dict line_data) :
  DrawsOnly (for_each plot_cfg (render_subplot autoscale axs line_cfg) ;;
             figure_legend cfg axs).
Proof.
  apply DrawsOnly_bind.
  - apply DrawsOnly_for_each. intros p. apply DrawsOnly_render_subplot.
  - intros _. apply DrawsOnly_figure_legend.
Qed.

(** X11. A call that succeeds has read the storage once for every
    (file, column) reference of [line_cfg], entry by entry, x before y:
    a path referenced several times is read as many times, and nothing
    but the referenced paths is read. *)
Theorem plot_line2D_reads (cfg : fig_cfg) (plot_cfg : list (Z * plot_data))
    (line_cfg cfg' : dict line_data) (w w' : world) :
  plot_line2D autoscale cfg plot_cfg line_cfg w = (Ok cfg', w') ->
  reads w' = reads w ++ referenced_paths line_cfg.
Proof.
  intros Hrun.
  destruct (plot_line2D_phases cfg plot_cfg line_cfg w)
    as (axs & w0 & _ & (_ & Hr0 & _) & Heq).
  rewrite Heq in Hrun. clear Heq.
  destruct (resolve_lines_run line_cfg resolver_init w0) as (res & w1 & Hrun1 & _ & Hres);
    [constructor|].
  rewrite Hrun1 in Hrun. destruct res as [cfg1|e]; [|discriminate Hrun].
  destruct Hres as [_ Hr1].
  pose proof (DrawsOnly_rendering cfg plot_cfg axs cfg1 w1) as (_ & Hr2 & _).
  destruct ((for_each plot_cfg (render_subplot autoscale axs cfg1) ;;
             figure_legend cfg axs) w1) as [[[]|e] w2]; [|discriminate Hrun].
  injection Hrun as _ <-. simpl in *. congruence.
Qed.

(** X12. A call ends with an exception when the resolver, the
    rendering of a subplot or the figure legend raises one, and a call
    that ends so has saved nothing: no [savefig] is made before the three
    are through.  ([savefig] and [show] are recorded as calls that do not
    fail; an exception of their own, as for a directory that does not
    exist, comes after the [savefig] call and is not covered here.) *)
Theorem plot_line2D_failure_saves_nothing
    (cfg : fig_cfg) (plot_cfg : list (Z * plot_data))
    (line_cfg : dict line_data) (w w' : world) (e : exn) :
  plot_line2D autoscale cfg plot_cfg line_cfg w = (Raise e, w') ->
  saved (calls w') = saved (calls w)
  /\ exists axs w0,
       subplots_ajdust cfg w = (Ok axs, w0)
       /\ (resolve_lines line_cfg resolver_init w0 = (Raise e, w')
           \/ exists cfg1 w1,
                resolve_lines line_cfg resolver_init w0 = (Ok cfg1, w1)
                /\ (for_each plot_cfg (render_subplot autoscale axs cfg1) ;;
                    figure_legend cfg axs) w1 = (Raise e, w')).
Proof.
  intros Hrun.
  destruct (plot_line2D_phases cfg plot_cfg line_cfg w)
    as (axs & w0 & Hrun0 & (_ & _ & Hs0) & Heq).
  rewrite Heq in Hrun. clear Heq.
  destruct (resolve_lines_run line_cfg resolver_init w0) as (res & w1 & Hrun1 & Hfig & _);
    [constructor|].
  destruct Hfig as (_ & _ & Hc1 & _).
  rewrite Hrun1 in Hrun. destruct res as [cfg1|e1].
  - pose proof (DrawsOnly_rendering cfg plot_cfg axs cfg1 w1) as (_ & _ & Hs2).
    destruct ((for_each plot_cfg (render_subplot autoscale axs cfg1) ;;
               figure_legend cfg axs) w1) as [[[]|e2] w2] eqn:Hrun2; [discriminate Hrun|].
    injection Hrun as <- <-. simpl in Hs2. split; [congruence|].
    exists axs, w0. split; [exact Hrun0|]. right. now exists cfg1, w1.
  - injection Hrun as <- <-. split; [congruence|].
    exists axs, w0. split; [exact Hrun0|]. now left.
Qed.

(** X13. A call that succeeds has saved the figure after everything else
    and shown it last: its calls end with the [savefig] calls of the
    configuration followed by [show], and no other [savefig] was made. *)
Theorem plot_line2D_saves_then_shows
    (cfg : fig_cfg) (plot_cfg : list (Z * plot_data))
    (line_cfg cfg' : dict line_data) (w w' : world) :
  plot_line2D autoscale cfg plot_cfg line_cfg w = (Ok cfg', w') ->
  exists before,
    calls w' = before ++ save_calls cfg ++ [PltShow]
    /\ saved before = saved (calls w).
Proof.
  intros Hrun.
  destruct (plot_line2D_phases cfg plot_cfg line_cfg w)
    as (axs & w0 & _ & (_ & _ & Hs0) & Heq).
  rewrite Heq in Hrun. clear Heq.
  destruct (resolve_lines_run line_cfg resolver_init w0) as (res & w1 & Hrun1 & Hfig & _);
    [constructor|].
  destruct Hfig as (_ & _ & Hc1 & _).
  rewrite Hrun1 in Hrun. destruct res as [cfg1|e1]; [|discriminate Hrun].
  pose proof (DrawsOnly_rendering cfg plot_cfg axs cfg1 w1) as (_ & _ & Hs2).
  destruct ((for_each plot_cfg (render_subplot autoscale axs cfg1) ;;
             figure_legend cfg axs) w1) as [[[]|e2] w2]; [|discriminate Hrun].
  injection Hrun as _ <-. exists (calls w2). split; [reflexivity|].
  simpl in Hs2. congruence.
Qed.

End Phases.

Lemma plot_line2D_reads_witness :
  exists cfg' w',
    plot_line2D no_autoscale empty_fig_cfg [(1, plot_with [KInt 1] None None)]
      [(KInt 1, line_of "f.csv" "one"); (KInt 2, resolved_line "two" None)]
      (init_world one_file) = (Ok cfg', w')
    /\ reads w' = ["f.csv"; "f.csv"].
Proof.
  assert (Hex : exists cfg',
    fst (plot_line2D no_autoscale empty_fig_cfg [(1, plot_with [KInt 1] None None)]
           [(KInt 1, line_of "f.csv" "one"); (KInt 2, resolved_line "two" None)]
           (init_world one_file)) = Ok cfg')
    by (eexists; vm_compute; reflexivity).
  destruct Hex as [cfg' Hok].
  destruct (plot_line2D no_autoscale empty_fig_cfg [(1, plot_with [KInt 1] None None)]
              [(KInt 1, line_of "f.csv" "one"); (KInt 2, resolved_line "two" None)]
              (init_world one_file)) as [res w'] eqn:Hrun.
  simpl in Hok. subst res. exists cfg', w'. split; [reflexivity|].
  rewrite (plot_line2D_reads _ _ _ _ _ _ _ Hrun). reflexivity.
Defined.

Lemma plot_line2D_failure_saves_nothing_witness :
  exists w',
    plot_line2D no_autoscale empty_fig_cfg [(5, plot_with [KInt 1] None None)]
      [(KInt 1, resolved_line "one" None)] (init_world ∅)
    = (Raise IndexError, w')
    /\ saved (calls w') = [].
Proof.
  assert (Hok :
    fst (plot_line2D no_autoscale empty_fig_cfg [(5, plot_with [KInt 1] None None)]
           [(KInt 1, resolved_line "one" None)] (init_world ∅)) = Raise IndexError)
    by (vm_compute; reflexivity).
  destruct (plot_line2D no_autoscale empty_fig_cfg [(5, plot_with [KInt 1] None None)]
              [(KInt 1, resolved_line "one" None)] (init_world ∅)) as [res w'] eqn:Hrun.
  simpl in Hok. subst res. exists w'. split; [reflexivity|].
  destruct (plot_line2D_failure_saves_nothing _ _ _ _ _ _ _ Hrun) as [Hsaved _].
  rewrite Hsaved. reflexivity.
Defined.

Lemma plot_line2D_saves_then_shows_witness :
  exists cfg' w' before,
    plot_line2D no_autoscale pdf_fig_cfg [(1, plot_with [KInt 1] None None)]
      [(KInt 1, resolved_line "one" None)] (init_world ∅) = (Ok cfg', w')
    /\ calls w' = before ++ [Savefig "./new_fig.pdf"; Savefig "./new_fig.png"; PltShow]
    /\ saved before = [].
Proof.
  assert (Hex : exists cfg',
    fst (plot_line2D no_autoscale pdf_fig_cfg [(1, plot_with [KInt 1] None None)]
           [(KInt 1, resolved_line "one" None)] (init_world ∅)) = Ok cfg')
    by (eexists; vm_compute; reflexivity).
  destruct Hex as [cfg' Hok].
  destruct (plot_line2D no_autoscale pdf_fig_cfg [(1, plot_with [KInt 1] None None)]
              [(KInt 1, resolved_line "one" None)] (init_world ∅)) as [res w'] eqn:Hrun.
  simpl in Hok. subst res.
  destruct (plot_line2D_saves_then_shows _ _ _ _ _ _ _ Hrun) as (before & Hc & Hs).
  exists cfg', w', before. split; [reflexivity|]. split; [exact Hc | exact Hs].
Defined.

(** *** The axes of a subplot key *)

Lemma py_index_in_range {A} (l : list A) (i : Z) :
  - Z.of_nat (length l) <= i < Z.of_nat (length l) ->
  py_index l i = l !! Z.to_nat (i mod Z.of_nat (length l)).
Proof.
  intros Hi. unfold py_index.
  destruct (Z.leb_spec 0 i); simpl.
  - destruct (Z.ltb_spec i (Z.of_nat (length l))); [|lia].
    now rewrite Z.mod_small by lia.
  - destruct (Z.leb_spec (- Z.of_nat (length l)) i); [|lia].
    destruct (Z.ltb_spec i 0); [|lia]. simpl.
    replace (i mod Z.of_nat (length l)) with (i + Z.of_nat (length l)); [reflexivity|].
    symmetry. rewrite <- (Z_mod_plus_full i 1 (Z.of_nat (length l))).
    rewrite Z.mod_small; lia.
Qed.

Lemma py_index_out_of_range {A} (l : list A) (i : Z) :
  ~ (- Z.of_nat (length l) <= i < Z.of_nat (length l)) ->
  py_index l i = None.
Proof.
  intros Hi. unfold py_index.
  destruct (Z.leb_spec 0 i), (Z.ltb_spec i (Z.of_nat (length l))); simpl; try lia;
    try reflexivity;
    destruct (Z.leb_spec (- Z.of_nat (length l)) i), (Z.ltb_spec i 0); simpl;
    try lia; reflexivity.
Qed.

Section Keys.

Variable autoscale : call -> ylim -> ylim.
Variable line_cfg : dict line_data.

(** X14. With [n] axes in the grid, a subplot key from [1 - n] to [n] is
    rendered on the axes at position [(key - 1) mod n] of the flattened
    grid: the keys 1 to [n] in order, and the key 0 and the negative keys
    counted from the last axes backwards.  Any other key ends the call
    with IndexError before anything is done for the subplot. *)
Theorem render_subplot_axes (axs : list nat) (p : Z * plot_data) (w : world) :
  let n := Z.of_nat (length axs) in
  (1 - n <= fst p <= n ->
   exists ax,
     axs !! Z.to_nat ((fst p - 1) mod n) = Some ax
     /\ render_subplot autoscale axs line_cfg p w
        = (setup_axes autoscale ax (snd p) ;;
           render_lines autoscale line_cfg ax (snd p)) w)
  /\ (~ (1 - n <= fst p <= n) ->
      render_subplot autoscale axs line_cfg p w = (Raise IndexError, w)).
Proof.
  cbv zeta. split.
  - intros Hk.
    assert (Hin : - Z.of_nat (length axs) <= fst p - 1 < Z.of_nat (length axs)) by lia.
    pose proof (py_index_in_range axs (fst p - 1) Hin) as Hidx.
    destruct (lookup_lt_is_Some_2 axs (Z.to_nat ((fst p - 1) mod Z.of_nat (length axs))))
      as [ax Hax].
    { pose proof (Z.mod_pos_bound (fst p - 1) (Z.of_nat (length axs))). lia. }
    exists ax. split; [exact Hax|].
    unfold render_subplot. rewrite Hidx, Hax. reflexivity.
  - intros Hk. unfold render_subplot.
    rewrite py_index_out_of_range by lia. reflexivity.
Qed.

End Keys.

Lemma render_subplot_axes_witness :
  render_subplot no_autoscale [0%nat; 1%nat; 2%nat] three_lines (0, empty_plot)
    (World ∅ [] None [] [new_axes; new_axes; new_axes] 0)
  = (setup_axes no_autoscale 2 empty_plot ;;
     render_lines no_autoscale three_lines 2 empty_plot)
      (World ∅ [] None [] [new_axes; new_axes; new_axes] 0)
  /\ render_subplot no_autoscale [0%nat; 1%nat; 2%nat] three_lines (4, empty_plot)
       (World ∅ [] None [] [new_axes; new_axes; new_axes] 0)
     = (Raise IndexError, World ∅ [] None [] [new_axes; new_axes; new_axes] 0).
Proof.
  split.
  - destruct (render_subplot_axes no_autoscale three_lines [0%nat; 1%nat; 2%nat]
                (0, empty_plot) (World ∅ [] None [] [new_axes; new_axes; new_axes] 0))
      as [H _].
    destruct H as (ax & Hax & Hrun); [simpl; lia|].
    simpl in Hax. injection Hax as <-. exact Hrun.
  - destruct (render_subplot_axes no_autoscale three_lines [0%nat; 1%nat; 2%nat]
                (4, empty_plot) (World ∅ [] None [] [new_axes; new_axes; new_axes] 0))
      as [_ H].
    apply H. simpl. lia.
Defined.

(** *** Identifiers that are not there *)

Section Missing.

Variable autoscale : call -> ylim -> ylim.
Variable line_cfg : dict line_data.
Variable ax : nat.

Lemma draw_lines_app (pre rest : list pykey) (handles : dict nat) (w : world) :
  draw_lines autoscale line_cfg ax (pre ++ rest) handles w
  = (draw_lines autoscale line_cfg ax pre handles ≫=
       draw_lines autoscale line_cfg ax rest) w.
Proof.
  revert handles w. induction pre as [|i pre IH]; intros handles w; [reflexivity|].
  cbn [app draw_lines]. rewrite <- bind_assoc. unfold mbind, M_bind.
  destruct (draw_line autoscale line_cfg ax handles i w) as [[h1|e] w1]; [|reflexivity].
  apply IH.
Qed.

Lemma draw_line_fails (handles : dict nat) (line_id : pykey) (w : world) :
  ~ drawable line_cfg line_id ->
  draw_line autoscale line_cfg ax handles line_id w
  = (Raise (draw_error line_cfg line_id), w).
Proof.
  intros Hnd. unfold draw_line, draw_error, mbind, M_bind.
  destruct (dict_get line_cfg line_id) as [ld|] eqn:Hld; [|reflexivity]. simpl.
  destruct (xdata_array ld) as [x|] eqn:Hx; [|reflexivity]. simpl.
  destruct (ydata_array ld) as [y|] eqn:Hy; [|reflexivity].
  exfalso. apply Hnd. exists ld. split; [exact Hld|]. split; eauto.
Qed.

(** X15. The loop over the line list stops at the first identifier that
    is not in [line_cfg] (KeyError of the identifier) or lacks an array
    (KeyError of 'xdata_array' or 'ydata_array').  The lines before it
    have been drawn and stay drawn, one [plot] call each; nothing is
    drawn for the identifier or after it. *)
Theorem draw_lines_stops_at_unknown
    (pre post : list pykey) (line_id : pykey) (handles : dict nat) (w : world) :
  Forall (drawable line_cfg) pre ->
  ~ drawable line_cfg line_id ->
  exists w' cs,
    draw_lines autoscale line_cfg ax (pre ++ line_id :: post) handles w
    = (Raise (draw_error line_cfg line_id), w')
    /\ calls w' = calls w ++ cs
    /\ length (plot_axes cs) = length pre
    /\ next_handle w' = (next_handle w + length pre)%nat.
Proof.
  intros Hpre Hbad.
  destruct (draw_lines_run autoscale line_cfg ax pre Hpre handles w)
    as (handles1 & w1 & cs & Hrun & Hcalls & Hnext & _ & _ & Hpl & _).
  exists w1, cs. rewrite draw_lines_app, (bind_ok _ _ _ _ _ Hrun).
  cbn [draw_lines]. rewrite (bind_raise _ _ w1 w1 (draw_error line_cfg line_id)).
  - auto.
  - now apply draw_line_fails.
Qed.

End Missing.

Lemma draw_lines_stops_at_unknown_witness :
  exists w' cs,
    draw_lines no_autoscale three_lines 0 [KInt 1; KInt 2; KInt 7; KInt 3] []
      one_axes_world = (Raise (KeyError (KInt 7)), w')
    /\ calls w' = cs
    /\ length (plot_axes cs) = 2%nat.
Proof.
  destruct (draw_lines_stops_at_unknown no_autoscale three_lines 0
              [KInt 1; KInt 2] [KInt 3] (KInt 7) [] one_axes_world)
    as (w' & cs & Hrun & Hcalls & Hpl & _).
  - pose proof three_lines_drawable as Hd.
    apply Forall_cons in Hd as [H1 Hd]. apply Forall_cons in Hd as [H2 _].
    repeat constructor; assumption.
  - intros (ld & Hld & _). discriminate Hld.
  - exists w', cs. split; [exact Hrun|]. split; [exact Hcalls | exact Hpl].
Defined.

Section LegendMissing.

Variable autoscale : call -> ylim -> ylim.
Variable line_cfg : dict line_data.
Variable ax : nat.

Lemma handles_of_fails (handles : dict nat) (pre post : list pykey)
    (line_id : pykey) (w : world) :
  (forall i, In i pre -> is_Some (dict_get handles i)) ->
  dict_get handles line_id = None ->
  handles_of handles (pre ++ line_id :: post) w = (Raise (KeyError line_id), w).
Proof.
  intros Hpre Hnone. induction pre as [|i pre IH]; cbn [app handles_of].
  - unfold mbind, M_bind. now rewrite Hnone.
  - destruct (Hpre i (or_introl eq_refl)) as [h Hh].
    unfold mbind at 1, M_bind at 1. rewrite Hh. simpl.
    unfold mbind, M_bind. rewrite IH; [reflexivity|].
    intros j Hj. apply Hpre. now right.
Qed.

Lemma shade_span_no_plot (pd : plot_data) (w : world) :
  exists w' cs,
    shade_span autoscale ax pd w = (Ok tt, w')
    /\ calls w' = calls w ++ cs
    /\ plot_axes cs = [].
Proof.
  unfold shade_span.
  destruct (xspan pd) as [xs|], (yspan pd) as [ys|];
    (do 2 eexists; split; [reflexivity|]; split;
     [simpl; rewrite <- ?app_assoc; reflexivity | reflexivity]).
Qed.

(** X16. A legend list that names an identifier which is not in the line
    list of the subplot ends the rendering of the subplot with the
    KeyError of the first such identifier.  By then every line of the
    subplot has been drawn, and the axes has the legend it had before. *)
Theorem render_lines_legend_unknown
    (pd : plot_data) (pre post : list pykey) (line_id : pykey) (w : world) :
  Forall (drawable line_cfg) (default [] (line pd)) ->
  legend pd = Some (pre ++ line_id :: post) ->
  Forall (fun i => In i (default [] (line pd))) pre ->
  ~ In line_id (default [] (line pd)) ->
  (ax < length (axes w))%nat ->
  exists w' cs,
    render_lines autoscale line_cfg ax pd w = (Raise (KeyError line_id), w')
    /\ calls w' = calls w ++ cs
    /\ length (plot_axes cs) = length (default [] (line pd))
    /\ ax_legend (axes_at w' ax) = ax_legend (axes_at w ax).
Proof.
  intros Hdraw Hleg Hpre Hnot Hax. unfold render_lines.
  destruct (draw_lines_run autoscale line_cfg ax _ Hdraw [] w)
    as (handles & w1 & cs1 & Hrun1 & Hcalls1 & _ & _ & _ & Hpl1 & _ & _ & Hold & Hnew).
  destruct (shade_span_no_plot pd w1) as (w2 & cs2 & Hrun2 & Hcalls2 & Hpl2).
  pose proof (Keeps_draw_lines autoscale ax line_cfg ax (default [] (line pd)) [] w)
    as [Hlen1 Hk1].
  pose proof (Keeps_shade_span autoscale ax ax pd w1) as [_ Hk2].
  rewrite Hrun1 in Hlen1, Hk1. rewrite Hrun2 in Hk2. simpl in Hlen1, Hk1, Hk2.
  rewrite (bind_ok _ _ _ _ _ Hrun1), (bind_ok _ _ _ _ _ Hrun2).
  unfold subplot_legend. rewrite Hleg. cbn [if_some].
  rewrite (bind_raise _ _ w2 w2 (KeyError line_id)).
  - exists w2, (cs1 ++ cs2). split; [reflexivity|].
    split; [now rewrite Hcalls2, Hcalls1, app_assoc|].
    split; [now rewrite plot_axes_app, Hpl2, app_nil_r|].
    rewrite Hk2 by lia. now apply Hk1.
  - apply handles_of_fails.
    + intros i Hi. rewrite Forall_forall in Hpre. apply list_elem_of_In in Hi.
      destruct (Hnew i (Hpre i Hi)) as (h & Hh & _). now exists h.
    + now rewrite (Hold line_id Hnot).
Qed.

End LegendMissing.

Lemma render_lines_legend_unknown_witness :
  exists w' cs,
    render_lines no_autoscale three_lines 0
      (plot_with [KInt 1; KInt 2] (Some [KInt 2; KInt 3]) None) one_axes_world
    = (Raise (KeyError (KInt 3)), w')
    /\ calls w' = cs
    /\ length (plot_axes cs) = 2%nat
    /\ ax_legend (axes_at w' 0) = None.
Proof.
  destruct (render_lines_legend_unknown no_autoscale three_lines 0
              (plot_with [KInt 1; KInt 2] (Some [KInt 2; KInt 3]) None)
              [KInt 2] [] (KInt 3) one_axes_world)
    as (w' & cs & Hrun & Hcalls & Hpl & Hleg).
  - pose proof three_lines_drawable as Hd.
    apply Forall_cons in Hd as [H1 Hd]. apply Forall_cons in Hd as [H2 _].
    repeat constructor; assumption.
  - reflexivity.
  - constructor; [simpl; auto | constructor].
  - simpl. intros [H|[H|[]]]; discriminate H.
  - simpl. lia.
  - exists w', cs. split; [exact Hrun|]. split; [exact Hcalls|].
    split; [exact Hpl | exact Hleg].
Defined.

(** *** When the call goes through *)

Section Success.

Variable autoscale : call -> ylim -> ylim.

Lemma resolved_lookup (st : gmap string table) (cfg cfg' : dict line_data) (id : pykey) :
  Forall2 (fun kv kv' => fst kv' = fst kv /\ resolved_entry st (snd kv) (snd kv')) cfg cfg' ->
  is_Some (dict_get cfg id) -> drawable cfg' id.
Proof.
  induction 1 as [|[k ld] [k' ld'] cfg cfg' [Hk Hent] _ IH]; intros [v Hv];
    [discriminate Hv|].
  simpl in Hk. subst k'. unfold drawable. simpl in *.
  destruct (decide (id = k)).
  - exists ld'. split; [reflexivity|]. destruct Hent as (Hx & Hy & _). now split.
  - apply IH. now exists v.
Qed.

Lemma render_lines_ok (line_cfg : dict line_data) (ax : nat) (pd : plot_data) (w : world) :
  Forall (drawable line_cfg) (default [] (line pd)) ->
  (forall ids, legend pd = Some ids ->
               Forall (fun id => In id (default [] (line pd))) ids) ->
  exists w', render_lines autoscale line_cfg ax pd w = (Ok tt, w').
Proof.
  intros Hdraw Hsub. unfold render_lines.
  destruct (draw_lines_run autoscale line_cfg ax _ Hdraw [] w)
    as (handles & w1 & cs1 & Hrun1 & _ & _ & _ & _ & _ & _ & _ & _ & Hnew).
  destruct (shade_span_run autoscale ax pd w1) as (w2 & cs2 & Hrun2 & _).
  rewrite (bind_ok _ _ _ _ _ Hrun1), (bind_ok _ _ _ _ _ Hrun2).
  unfold subplot_legend. destruct (legend pd) as [ids|]; cbn [if_some]; [|now eexists].
  pose proof (Hsub ids eq_refl) as Hin. rewrite Forall_forall in Hin.
  destruct (handles_of_run handles ids w2) as (hs & Hrun3 & _).
  { intros id Hid. apply list_elem_of_In in Hid.
    destruct (Hnew id (Hin id Hid)) as (h & Hh & _). now exists h. }
  rewrite (bind_ok _ _ _ _ _ Hrun3).
  destruct (bbox_to_anchor pd); eexists; reflexivity.
Qed.

Lemma for_each_subplot_ok (line_cfg : dict line_data) (axs : list nat)
    (plot_cfg : list (Z * plot_data)) :
  Forall (fun p => is_Some (py_index axs (fst p - 1))
                   /\ Forall (drawable line_cfg) (default [] (line (snd p)))
                   /\ forall ids, legend (snd p) = Some ids ->
                        Forall (fun id => In id (default [] (line (snd p)))) ids)
    plot_cfg ->
  forall w, exists w',
    for_each plot_cfg (render_subplot autoscale axs line_cfg) w = (Ok tt, w').
Proof.
  induction 1 as [|p rest ([ax Hax] & Hdraw & Hsub) _ IH]; intros w; [now eexists|].
  assert (Hp : exists w2, render_subplot autoscale axs line_cfg p w = (Ok tt, w2)).
  { unfold render_subplot. rewrite Hax.
    destruct (Quiet_setup_axes autoscale ax (snd p) w) as (w1 & cs & Hrun1 & _).
    destruct (render_lines_ok line_cfg ax (snd p) w1 Hdraw Hsub) as (w2 & Hrun2).
    exists w2. unfold mbind, M_bind in *. simpl. now rewrite Hrun1. }
  destruct Hp as (w2 & Hrun). cbn [for_each]. rewrite (bind_ok _ _ _ _ _ Hrun).
  apply IH.
Qed.

Lemma collect_legends_ok (axs : list nat) (ids : list Z) (w : world) :
  Forall (fun i => is_Some (py_index axs (i - 1))) ids ->
  exists hl, collect_legends axs ids w = (Ok hl, w).
Proof.
  induction 1 as [|i ids [ax Hax] _ [hl IH]]; [now eexists|].
  cbn [collect_legends]. unfold mbind, M_bind. rewrite Hax. simpl.
  rewrite IH. now eexists.
Qed.

Lemma py_index_seq (first n : nat) (k : Z) :
  1 - Z.of_nat n <= k <= Z.of_nat n -> is_Some (py_index (seq first n) (k - 1)).
Proof.
  intros Hk. rewrite py_index_in_range by (rewrite length_seq; lia).
  rewrite length_seq. apply lookup_lt_is_Some_2. rewrite length_seq.
  pose proof (Z.mod_pos_bound (k - 1) (Z.of_nat n)). lia.
Qed.

(** X17. The call raises none of its exceptions and runs to the end
    when: every entry of [line_cfg] has a source for x and for y and its
    (file, column) references can be served; every subplot key addresses
    an axes of the grid, every line of a subplot is an entry of
    [line_cfg], every identifier of a legend list is in the line list of
    its subplot; and the keys of the figure legend address axes of the
    grid. *)
Theorem plot_line2D_succeeds (cfg : fig_cfg) (plot_cfg : list (Z * plot_data))
    (line_cfg : dict line_data) (w : world) :
  Forall (fun kv => ~ deficient (snd kv)) line_cfg ->
  refs_resolve (storage w) line_cfg ->
  Forall (subplot_ok line_cfg (Z.of_nat (grid_size cfg))) plot_cfg ->
  Forall (fun i => 1 - Z.of_nat (grid_size cfg) <= i <= Z.of_nat (grid_size cfg))
    (default [] (legend_id cfg)) ->
  exists cfg' w', plot_line2D autoscale cfg plot_cfg line_cfg w = (Ok cfg', w').
Proof.
  intros Hcomplete Hrefs Hplots Hfig.
  destruct (plot_line2D_phases autoscale cfg plot_cfg line_cfg w)
    as (axs & w0 & Hrun0 & (Hst0 & _) & Heq).
  rewrite Heq. clear Heq.
  assert (Haxs : axs = seq (length (axes w)) (grid_size cfg)).
  { unfold subplots_ajdust in Hrun0. now injection Hrun0 as <- _. }
  destruct (resolve_lines_result line_cfg resolver_init w0) as (res & w1 & Hrun1 & _ & Hres);
    [constructor|].
  rewrite Hrun1. destruct res as [cfg1|e].
  2:{ exfalso. apply Exists_exists in Hres as (kv & Hin & Hbad).
      rewrite Forall_forall in Hcomplete. unfold refs_resolve in Hrefs.
      rewrite Forall_forall in Hrefs. rewrite Hst0 in Hbad.
      destruct (Hrefs kv Hin) as [Hx Hy].
      destruct Hbad as [Hd|[Hnx|Hny]];
        [exact (Hcomplete kv Hin Hd) | exact (Hnx Hx) | exact (Hny Hy)]. }
  destruct Hres as (Hall & _).
  destruct (for_each_subplot_ok cfg1 axs plot_cfg) with (w := w1) as (w2 & Hrun2).
  { eapply Forall_impl; [exact Hplots|]. intros p (Hk & Hlines & Hleg).
    split; [rewrite Haxs; now apply py_index_seq|]. split; [|exact Hleg].
    eapply Forall_impl; [exact Hlines|]. intros id Hid.
    now apply (resolved_lookup _ _ _ _ Hall). }
  rewrite (bind_ok _ _ _ _ _ Hrun2).
  unfold figure_legend, when_.
  destruct (truthy_list (legend_id cfg)); [|now eexists _, _].
  destruct (collect_legends_ok axs (default [] (legend_id cfg)) w2) as (hl & Hrun3).
  { eapply Forall_impl; [exact Hfig|]. intros i Hi. rewrite Haxs. now apply py_index_seq. }
  rewrite (bind_ok _ _ _ _ _ Hrun3). now eexists _, _.
Qed.

End Success.

Lemma plot_line2D_succeeds_witness :
  exists cfg' w',
    plot_line2D no_autoscale empty_fig_cfg
      [(1, plot_with [KInt 1; KInt 2] (Some [KInt 2]) (Some [1%Q; 1%Q]))]
      [(KInt 1, line_of "f.csv" "one"); (KInt 2, resolved_line "two" (Some "%"))]
      (init_world one_file) = (Ok cfg', w').
Proof.
  apply plot_line2D_succeeds.
  - constructor; [|constructor; [|constructor]];
      intros [[H1 H2]|[H1 H2]]; try discriminate H1; discriminate H2.
  - assert (Hf : ref_resolves (storage (init_world one_file)) (Some ("f.csv", "x"))
                 /\ ref_resolves (storage (init_world one_file)) (Some ("f.csv", "y"))).
    { split; exists xy_table; (split; [reflexivity | eexists; reflexivity]). }
    constructor; [exact Hf|]. constructor; [split; exact I | constructor].
  - constructor; [|constructor]. split; [unfold grid_size; simpl; lia|]. split.
    + constructor; [eexists; reflexivity|]. constructor; [eexists; reflexivity | constructor].
    + intros ids [= <-]. constructor; [simpl; auto | constructor].
  - constructor.
Defined.

(** *** The figure legend *)

Section FigureLegend.

Variable autoscale : call -> ylim -> ylim.
Variable n : nat.

Lemma plots_app (cs1 cs2 : list call) : plots (cs1 ++ cs2) = plots cs1 ++ plots cs2.
Proof. apply omap_app. Qed.

Lemma fig_legends_app (cs1 cs2 : list call) :
  fig_legends (cs1 ++ cs2) = fig_legends cs1 ++ fig_legends cs2.
Proof. apply omap_app. Qed.

Lemma plain_snoc (cs : list call) (c : call) :
  plain c = true ->
  plots (cs ++ [c]) = plots cs
  /\ twinx_created (cs ++ [c]) = twinx_created cs
  /\ fig_legends (cs ++ [c]) = fig_legends cs.
Proof.
  intros Hc. rewrite plots_app, twinx_created_app, fig_legends_app.
  destruct c; try discriminate Hc; cbn; rewrite !app_nil_r; now repeat split.
Qed.

Lemma consistent_frame (w w' : world) :
  consistent n w ->
  (length (axes w) <= length (axes w'))%nat ->
  plots (calls w') = plots (calls w) ->
  twinx_created (calls w') = twinx_created (calls w) ->
  fig_legends (calls w') = fig_legends (calls w) ->
  next_handle w' = next_handle w ->
  (forall a, ax_lines (axes_at w' a) = ax_lines (axes_at w a)) ->
  consistent n w'.
Proof.
  intros (Hn & Ht & Hf & Hl & Hh & Hu) Hlen Hp Htw Hfl Hnh Hax.
  unfold consistent. rewrite Hp, Htw, Hfl, Hnh.
  split; [lia|]. split; [exact Ht|]. split; [exact Hf|].
  split; [|split; [exact Hh | exact Hu]].
  intros a h lbl Hin. rewrite Hax in Hin. now apply Hl.
Qed.

Lemma Preserves_ret {A} (a : A) : Preserves n (mret a).
Proof. intros w Hw. exact Hw. Qed.

Lemma Preserves_raise {A} (e : exn) : Preserves n (raise (A := A) e).
Proof. intros w Hw. exact Hw. Qed.

Lemma Preserves_bind {A B} (m : M A) (f : A -> M B) :
  Preserves n m -> (forall a, Preserves n (f a)) -> Preserves n (m ≫= f).
Proof.
  intros Hm Hf w Hw. specialize (Hm w Hw). unfold mbind, M_bind.
  destruct (m w) as [[a|e] w1]; simpl in *; [|exact Hm].
  now apply Hf.
Qed.

Lemma Preserves_from_option {A} (e : exn) (o : option A) : Preserves n (from_option e o).
Proof. destruct o; [apply Preserves_ret | apply Preserves_raise]. Qed.

Lemma Preserves_if_some {A} (o : option A) (f : A -> M unit) :
  (forall a, Preserves n (f a)) -> Preserves n (if_some o f).
Proof. intros Hf. destruct o; [apply Hf | apply Preserves_ret]. Qed.

Lemma Preserves_when (c : bool) (m : M unit) : Preserves n m -> Preserves n (when_ c m).
Proof. intros Hm. destruct c; [exact Hm | apply Preserves_ret]. Qed.

Lemma Preserves_record (c : call) : plain c = true -> Preserves n (record c).
Proof.
  intros Hc w Hw. destruct (plain_snoc (calls w) c Hc) as (Hp & Ht & Hf).
  apply (consistent_frame w); simpl; auto.
Qed.

Lemma lines_alter (f : axes_state -> axes_state) (a b : nat) (l : list axes_state) :
  (forall s, ax_lines (f s) = ax_lines s) ->
  ax_lines (default new_axes (alter f a l !! b))
  = ax_lines (default new_axes (l !! b)).
Proof.
  intros Hf. destruct (decide (a = b)) as [->|Hne].
  - rewrite list_lookup_alter_eq. destruct (l !! b); simpl; [apply Hf | reflexivity].
  - now rewrite list_lookup_alter_ne.
Qed.

Lemma Preserves_update_axes (a : nat) (f : axes_state -> axes_state) :
  (forall s, ax_lines (f s) = ax_lines s) -> Preserves n (update_axes a f).
Proof.
  intros Hf w Hw. apply (consistent_frame w); simpl; auto.
  - now rewrite length_alter.
  - intros b. unfold axes_at. simpl. now apply lines_alter.
Qed.

Lemma Preserves_ax_call (a : nat) (c : call) :
  plain c = true -> Preserves n (ax_call autoscale a c).
Proof.
  intros Hc. unfold ax_call. apply Preserves_bind; [now apply Preserves_record|].
  intros _. now apply Preserves_update_axes.
Qed.

Lemma Preserves_set_ylim (a : nat) (l : ylim) : Preserves n (set_ylim a l).
Proof.
  unfold set_ylim. apply Preserves_bind; [now apply Preserves_record|].
  intros _. now apply Preserves_update_axes.
Qed.

Lemma Preserves_get_ylim (a : nat) : Preserves n (get_ylim a).
Proof. intros w Hw. exact Hw. Qed.

Lemma Preserves_get_legend_handles_labels (a : nat) :
  Preserves n (get_legend_handles_labels a).
Proof. intros w Hw. exact Hw. Qed.

Lemma Preserves_legend_handles (a : nat) hs loc ncol :
  Preserves n (legend_handles a hs loc ncol).
Proof.
  unfold legend_handles. apply Preserves_bind; [now apply Preserves_record|].
  intros _. now apply Preserves_update_axes.
Qed.

Lemma Preserves_legend_anchor (a : nat) bb : Preserves n (legend_anchor a bb).
Proof.
  unfold legend_anchor.
  apply Preserves_bind; [apply Preserves_get_legend_handles_labels|]. intros hl.
  apply Preserves_bind; [now apply Preserves_record|].
  intros _. now apply Preserves_update_axes.
Qed.

Lemma axes_at_snoc (l : list axes_state) (b : nat) :
  default new_axes ((l ++ [new_axes]) !! b) = default new_axes (l !! b).
Proof.
  destruct (decide (b < length l)%nat) as [Hlt|Hge].
  - now rewrite lookup_app_l.
  - rewrite lookup_app_r by lia. rewrite (lookup_ge_None_2 l b) by lia.
    destruct (b - length l)%nat; reflexivity.
Qed.

(** [twinx] makes its axes beyond the grid. *)
Lemma Preserves_twinx (a : nat) : Preserves n (twinx a).
Proof.
  intros w (Hn & Ht & Hf & Hl & Hh & Hu). unfold consistent. simpl.
  rewrite plots_app, twinx_created_app, fig_legends_app. cbn.
  rewrite !app_nil_r, length_app. simpl.
  split; [lia|]. split.
  { apply Forall_app. split; [exact Ht|]. constructor; [exact Hn | constructor]. }
  split; [exact Hf|]. split; [|split; [exact Hh | exact Hu]].
  intros b h lbl Hin. unfold axes_at in Hin. simpl in Hin.
  rewrite axes_at_snoc in Hin. now apply Hl.
Qed.

(** [plot] puts its line on the axes it is called on, under a handle not
    given out before. *)
Lemma Preserves_plot (a : nat) x y c ls mk me lbl kw :
  Preserves n (plot autoscale a x y c ls mk me lbl kw).
Proof.
  intros w (Hn & Ht & Hf & Hl & Hh & Hu). unfold consistent. simpl.
  rewrite plots_app, twinx_created_app, fig_legends_app. cbn.
  rewrite !app_nil_r, length_alter.
  split; [exact Hn|]. split; [exact Ht|]. split; [exact Hf|].
  split; [|split].
  - intros b h l0 Hin. apply in_or_app. unfold axes_at in Hin. simpl in Hin.
    destruct (decide (a = b)) as [->|Hne].
    + rewrite list_lookup_alter_eq in Hin.
      destruct (axes w !! b) as [s|] eqn:Hs; simpl in Hin; [|contradiction].
      apply in_app_or in Hin as [Hin|[Hin|[]]].
      * left. apply Hl. unfold axes_at. now rewrite Hs.
      * right. injection Hin as <- <-. now left.
    + rewrite list_lookup_alter_ne in Hin by exact Hne. left. now apply Hl.
  - intros b h l0 Hin. apply in_app_or in Hin as [Hin|[Hin|[]]].
    + specialize (Hh _ _ _ Hin). lia.
    + injection Hin as _ <- _. lia.
  - intros b b' h l0 l0' Hin Hin'.
    apply in_app_or in Hin as [Hin|[Hin|[]]];
      apply in_app_or in Hin' as [Hin'|[Hin'|[]]].
    + exact (Hu _ _ _ _ _ Hin Hin').
    + injection Hin' as _ <- _. specialize (Hh _ _ _ Hin). lia.
    + injection Hin as _ <- _. specialize (Hh _ _ _ Hin'). lia.
    + injection Hin as <- _ _. injection Hin' as <- _ _. reflexivity.
Qed.

Lemma Preserves_handles_of (handles : dict nat) (ids : list pykey) :
  Preserves n (handles_of handles ids).
Proof.
  induction ids as [|i ids IH]; [apply Preserves_ret|].
  cbn [handles_of]. apply Preserves_bind; [apply Preserves_from_option|]. intros h.
  apply Preserves_bind; [exact IH|]. intros hs. apply Preserves_ret.
Qed.

Lemma Preserves_draw_line line_cfg ax handles line_id :
  Preserves n (draw_line autoscale line_cfg ax handles line_id).
Proof.
  unfold draw_line.
  apply Preserves_bind; [apply Preserves_from_option|]. intros ld.
  apply Preserves_bind; [apply Preserves_from_option|]. intros x.
  apply Preserves_bind; [apply Preserves_from_option|]. intros y.
  destruct (truthy_str (rightYAxis ld)).
  - apply Preserves_bind; [apply Preserves_twinx|]. intros ax2.
    apply Preserves_bind; [now apply Preserves_ax_call|]. intros _.
    apply Preserves_bind; [apply Preserves_if_some; intros; apply Preserves_set_ylim|].
    intros _.
    apply Preserves_bind; [now apply Preserves_when, Preserves_ax_call|]. intros _.
    apply Preserves_bind; [apply Preserves_plot|]. intros h. apply Preserves_ret.
  - apply Preserves_bind; [apply Preserves_plot|]. intros h. apply Preserves_ret.
Qed.

Lemma Preserves_draw_lines line_cfg ax ids :
  forall handles, Preserves n (draw_lines autoscale line_cfg ax ids handles).
Proof.
  induction ids as [|i ids IH]; intros handles; [apply Preserves_ret|].
  cbn [draw_lines]. apply Preserves_bind; [apply Preserves_draw_line | apply IH].
Qed.

Lemma Preserves_shade_span ax pd : Preserves n (shade_span autoscale ax pd).
Proof.
  unfold shade_span. apply Preserves_bind; [apply Preserves_get_ylim|]. intros lim.
  apply Preserves_bind; [|intros _; apply Preserves_set_ylim].
  destruct (xspan pd), (yspan pd); try apply Preserves_ret. now apply Preserves_ax_call.
Qed.

Lemma Preserves_setup_axes ax pd : Preserves n (setup_axes autoscale ax pd).
Proof.
  unfold setup_axes.
  repeat first
    [ apply Preserves_ax_call; reflexivity | apply Preserves_set_ylim
    | apply Preserves_if_some; intros | apply Preserves_when
    | apply Preserves_bind; [|intros _] ].
Qed.

Lemma Preserves_subplot_legend ax pd handles :
  Preserves n (subplot_legend ax pd handles).
Proof.
  unfold subplot_legend. apply Preserves_if_some. intros ids.
  apply Preserves_bind; [apply Preserves_handles_of|]. intros hs.
  apply Preserves_bind; [apply Preserves_legend_handles|]. intros _.
  apply Preserves_if_some. intros bb. apply Preserves_legend_anchor.
Qed.

Lemma Preserves_render_subplot axs line_cfg (p : Z * plot_data) :
  Preserves n (render_subplot autoscale axs line_cfg p).
Proof.
  unfold render_subplot.
  apply Preserves_bind; [apply Preserves_from_option|]. intros ax.
  apply Preserves_bind; [apply Preserves_setup_axes|]. intros _.
  unfold render_lines.
  apply Preserves_bind; [apply Preserves_draw_lines|]. intros handles.
  apply Preserves_bind; [apply Preserves_shade_span|]. intros _.
  apply Preserves_subplot_legend.
Qed.

Lemma Preserves_for_each {A} (l : list A) (body : A -> M unit) :
  (forall a, Preserves n (body a)) -> Preserves n (for_each l body).
Proof.
  intros Hb. induction l as [|a l IH]; [apply Preserves_ret|].
  cbn [for_each]. apply Preserves_bind; [apply Hb | intros _; exact IH].
Qed.

Lemma legend_label_Some (o : option string) (s : string) :
  legend_label o = Some s -> o = Some s.
Proof.
  destruct o as [[|c t]|]; simpl; try discriminate.
  destruct (Ascii.eqb c "_"); [discriminate | congruence].
Qed.

(** The handles and labels that lines 267-268 collect: as many labels
    as handles, each handle that of a labelled line of the axes of one of
    the listed subplots. *)
Lemma collect_legends_run (axs : list nat) (ids : list Z) (w : world) :
  forall res w',
    collect_legends axs ids w = (res, w') ->
    w' = w
    /\ match res with
       | Ok hl =>
           length (fst hl) = length (snd hl)
           /\ Forall (fun h => exists i a lbl,
                          In i ids /\ py_index axs (i - 1) = Some a
                          /\ In (h, Some lbl) (ax_lines (axes_at w a))
                          /\ legend_label (Some lbl) = Some lbl) (fst hl)
       | Raise _ => True
       end.
Proof.
  induction ids as [|i ids IH]; intros res w' Hrun.
  - injection Hrun as <- <-. repeat split. constructor.
  - cbn [collect_legends] in Hrun. unfold mbind at 1, M_bind at 1 in Hrun.
    destruct (py_index axs (i - 1)) as [a|] eqn:Ha; simpl in Hrun;
      [|injection Hrun as <- <-; now split].
    unfold mbind at 1, M_bind at 1 in Hrun. simpl in Hrun.
    unfold mbind at 1, M_bind at 1 in Hrun.
    destruct (collect_legends axs ids w) as [[tl|e] w1] eqn:Hrest;
      destruct (IH _ _ eq_refl) as [-> Htl];
      injection Hrun as <- <-; [|now split].
    split; [reflexivity|]. destruct Htl as [Hlen Hall]. simpl. split.
    + rewrite !length_app, !length_map. lia.
    + apply Forall_app. split.
      * apply Forall_forall. intros h Hh.
        apply list_elem_of_In, in_map_iff in Hh as ([h0 s] & <- & Hin).
        apply list_elem_of_In, list_elem_of_omap in Hin as ([h1 l1] & Hin & Heq).
        simpl in Heq. destruct (legend_label l1) as [s1|] eqn:Hlab; [|discriminate Heq].
        injection Heq as <- <-. apply legend_label_Some in Hlab as Hl1. subst l1.
        exists i, a, s1. split; [now left|]. split; [exact Ha|].
        split; [now apply list_elem_of_In | exact Hlab].
      * eapply Forall_impl; [exact Hall|]. intros h (j & b & lbl & Hj & Hrest').
        exists j, b, lbl. split; [now right | exact Hrest'].
Qed.

Lemma subplots_ajdust_fresh (cfg : fig_cfg) (st : gmap string table) :
  n = grid_size cfg ->
  exists w0,
    subplots_ajdust cfg (init_world st) = (Ok (seq 0 n), w0) /\ consistent n w0.
Proof.
  intros ->. eexists. split; [reflexivity|]. unfold consistent. simpl.
  rewrite length_replicate. split; [unfold grid_size; lia|].
  split; [constructor|]. split; [reflexivity|].
  split; [|split; [intros a h lbl [] | intros a a' h lbl lbl' []]].
  intros a h lbl Hin. unfold axes_at in Hin. simpl in Hin.
  destruct (replicate _ new_axes !! a) as [s|] eqn:Hs; simpl in Hin; [|contradiction].
  apply lookup_replicate in Hs as [-> _]. contradiction.
Qed.

End FigureLegend.

Section FigureLegendCall.

Variable autoscale : call -> ylim -> ylim.

(** X18. A call that starts on a fresh figure and succeeds makes a
    figure legend exactly when 'legend_id' is a non-empty list, once,
    after the subplots and right before saving.  It gets as many labels
    as handles, and each handle is that of a line plotted on the axes of
    one of the listed subplots, and on no other axes, with a label that
    a legend shows (non-empty, no leading underscore): a line plotted on
    an axes made by [twinx] is never in the figure legend. *)
Theorem plot_line2D_figure_legend (cfg : fig_cfg) (plot_cfg : list (Z * plot_data))
    (line_cfg cfg' : dict line_data) (st : gmap string table) (w' : world) :
  Forall (fun p => shade_unlabelled (snd p)) plot_cfg ->
  plot_line2D autoscale cfg plot_cfg line_cfg (init_world st) = (Ok cfg', w') ->
  if truthy_list (legend_id cfg) then
    exists before hs ls,
      calls w' = before
                 ++ FigLegend hs ls (default [] (legend_kwargs cfg))
                    :: save_calls cfg ++ [PltShow]
      /\ fig_legends before = []
      /\ length hs = length ls
      /\ Forall (grid_line (grid_size cfg) (default [] (legend_id cfg)) (calls w')) hs
  else fig_legends (calls w') = [].
Proof.
  intros _ Hrun.
  destruct (plot_line2D_phases autoscale cfg plot_cfg line_cfg (init_world st))
    as (axs & w0 & Hrun0 & _ & Heq).
  rewrite Heq in Hrun. clear Heq.
  destruct (subplots_ajdust_fresh (grid_size cfg) cfg st eq_refl) as (w0' & Hrun0' & Hc0).
  rewrite Hrun0' in Hrun0. injection Hrun0 as <- <-.
  destruct (resolve_lines_run line_cfg resolver_init w0') as (res & w1 & Hrun1 & Hfig & _);
    [constructor|].
  rewrite Hrun1 in Hrun. destruct res as [cfg1|e1]; [|discriminate Hrun].
  destruct Hfig as (_ & _ & Hcs1 & Hax1 & Hnh1).
  assert (Hc1 : consistent (grid_size cfg) w1).
  { apply (consistent_frame _ w0'); [exact Hc0 | rewrite Hax1; lia | | | | exact Hnh1 |].
    1-3: now rewrite Hcs1.
    intros a. unfold axes_at. now rewrite Hax1. }
  pose proof (Preserves_for_each (grid_size cfg) plot_cfg
                (render_subplot autoscale (seq 0 (grid_size cfg)) cfg1)
                (Preserves_render_subplot autoscale _ _ cfg1) w1 Hc1) as Hc2.
  unfold mbind at 1, M_bind at 1 in Hrun.
  destruct (for_each plot_cfg (render_subplot autoscale (seq 0 (grid_size cfg)) cfg1) w1)
    as [[[]|e2] w2]; [|discriminate Hrun].
  simpl in Hc2. destruct Hc2 as (Hn & Ht & Hf & Hl & Hh & Hu).
  assert (Hshown : fig_legends (save_calls cfg ++ [PltShow]) = []).
  { rewrite fig_legends_app. unfold save_calls. cbv zeta.
    now destruct (String.eqb (default "png" (fig_format cfg)) "png"). }
  assert (Hplain : plots (save_calls cfg ++ [PltShow]) = []
                   /\ twinx_created (save_calls cfg ++ [PltShow]) = []).
  { rewrite plots_app, twinx_created_app. unfold save_calls. cbv zeta.
    now destruct (String.eqb (default "png" (fig_format cfg)) "png"). }
  destruct Hplain as [Hpl Htw].
  remember (save_calls cfg ++ [PltShow]) as rest eqn:Hrest. clear Hrest.
  unfold figure_legend, when_ in Hrun.
  destruct (truthy_list (legend_id cfg)).
  - unfold mbind at 1, M_bind at 1 in Hrun.
    destruct (collect_legends (seq 0 (grid_size cfg)) (default [] (legend_id cfg)) w2)
      as [[[hs ls]|e3] w3] eqn:Hrun3; [|discriminate Hrun].
    apply collect_legends_run in Hrun3 as [-> [Hlen Hall]].
    injection Hrun as _ <-. simpl in *.
    exists (calls w2), hs, ls. rewrite <- app_assoc. split; [reflexivity|].
    split; [exact Hf|]. split; [exact Hlen|].
    eapply Forall_impl; [exact Hall|]. intros h (i & a & lbl & Hi & Ha & Hin & Hlab).
    exists i, a, lbl. split; [exact Hi|]. split; [exact Ha|].
    rewrite !plots_app, !twinx_created_app, Hpl, Htw. cbn. rewrite !app_nil_r.
    split; [now apply Hl|]. split; [exact Hlab|].
    split; [|intros a' lbl' Hin'; exact (Hu _ _ _ _ _ (Hl _ _ _ Hin) Hin')].
    intros Hbad. rewrite Forall_forall in Ht.
    apply list_elem_of_In in Hbad. specialize (Ht _ Hbad).
    assert (Hlt : (a < grid_size cfg)%nat).
    { unfold py_index in Ha. rewrite length_seq in Ha.
      assert (Hsome : forall j, seq 0 (grid_size cfg) !! j = Some a ->
                                (a < grid_size cfg)%nat).
      { intros j Hj. apply lookup_seq in Hj. lia. }
      destruct (_ && _) in Ha; [now apply Hsome in Ha|].
      destruct (_ && _) in Ha; [now apply Hsome in Ha | discriminate Ha]. }
    lia.
  - injection Hrun as _ <-. simpl. rewrite fig_legends_app, Hf, Hshown. reflexivity.
Qed.

End FigureLegendCall.

Lemma plot_line2D_figure_legend_witness :
  exists cfg' w' before hs ls,
    plot_line2D no_autoscale legend_fig_cfg
      [(1, plot_with [KInt 1; KInt 2] None None)] three_lines (init_world ∅)
    = (Ok cfg', w')
    /\ calls w' = before ++ FigLegend hs ls [] :: save_calls legend_fig_cfg ++ [PltShow]
    /\ fig_legends before = []
    /\ length hs = length ls
    /\ Forall (grid_line 1 [1] (calls w')) hs.
Proof.
  assert (Hex : exists cfg',
    fst (plot_line2D no_autoscale legend_fig_cfg
           [(1, plot_with [KInt 1; KInt 2] None None)] three_lines (init_world ∅))
    = Ok cfg')
    by (eexists; vm_compute; reflexivity).
  destruct Hex as [cfg' Hok].
  destruct (plot_line2D no_autoscale legend_fig_cfg
              [(1, plot_with [KInt 1; KInt 2] None None)] three_lines (init_world ∅))
    as [res w'] eqn:Hrun.
  simpl in Hok. subst res.
  assert (Hshade : Forall (fun p => shade_unlabelled (snd p))
                     [(1, plot_with [KInt 1; KInt 2] None None)])
    by (constructor; [left; reflexivity | constructor]).
  destruct (plot_line2D_figure_legend _ _ _ _ _ _ _ Hshade Hrun)
    as (before & hs & ls & Hc & Hb & Hlen & Hall).
  exists cfg', w', before, hs, ls. split; [reflexivity|].
  split; [exact Hc|]. split; [exact Hb|]. split; [exact Hlen | exact Hall].
Defined.

(** *** The resolver on its own result *)

Lemma resolved_entry_refs (st : gmap string table) (ld ld' : line_data) :
  resolved_entry st ld ld' -> xdata ld' = xdata ld /\ ydata ld' = ydata ld.
Proof.
  intros (_ & _ & _ & _ & Heq).
  split; [exact (f_equal xdata Heq) | exact (f_equal ydata Heq)].
Qed.

Lemma resolved_entry_again (st : gmap string table) (ld ld' ld'' : line_data) :
  resolved_entry st ld ld' -> resolved_entry st ld' ld'' -> ld'' = ld'.
Proof.
  intros H1 H2. destruct (resolved_entry_refs _ _ _ H1) as [Hx Hy].
  destruct H1 as (_ & _ & Hxa & Hya & _). destruct H2 as (_ & _ & Hxa' & Hya' & Heq).
  rewrite Hx in Hxa'. rewrite Hy in Hya'.
  assert (Hax : xdata_array ld'' = xdata_array ld').
  { rewrite Hxa'. unfold resolved_array in *.
    destruct (xdata ld); [now rewrite Hxa | reflexivity]. }
  assert (Hay : ydata_array ld'' = ydata_array ld').
  { rewrite Hya'. unfold resolved_array in *.
    destruct (ydata ld); [now rewrite Hya | reflexivity]. }
  pose proof (f_equal xdata Heq) as E1. pose proof (f_equal ydata Heq) as E2.
  pose proof (f_equal rightYAxis Heq) as E3. pose proof (f_equal ylim_right Heq) as E4.
  pose proof (f_equal rightYAxis_percentage Heq) as E5.
  pose proof (f_equal color Heq) as E6. pose proof (f_equal linestyle Heq) as E7.
  pose proof (f_equal marker Heq) as E8. pose proof (f_equal markevery Heq) as E9.
  pose proof (f_equal label Heq) as E10. pose proof (f_equal line_kwargs Heq) as E11.
  clear Heq Hx Hy Hxa Hya Hxa' Hya'. destruct ld', ld''. simpl in *.
  now subst.
Qed.

Lemma resolved_referenced (st : gmap string table) (cfg cfg' : dict line_data) :
  Forall2 (fun kv kv' => fst kv' = fst kv /\ resolved_entry st (snd kv) (snd kv')) cfg cfg' ->
  referenced_paths cfg' = referenced_paths cfg.
Proof.
  induction 1 as [|kv kv' cfg cfg' [_ Hent] _ IH]; [reflexivity|].
  unfold referenced_paths in *. simpl. rewrite IH. f_equal.
  destruct (resolved_entry_refs _ _ _ Hent) as [Hx Hy].
  unfold referenced. now rewrite Hx, Hy.
Qed.

(** X19. The entries the resolver returns are a fixed point of it: run
    on them again over the same storage, it succeeds and returns them as
    they are.  The arrays it stored the first time are not used for that:
    every (file, column) reference is read from the storage once more. *)
Theorem resolve_lines_again (line_cfg cfg1 : dict line_data) (w w1 w2 : world) :
  resolve_lines line_cfg resolver_init w = (Ok cfg1, w1) ->
  storage w2 = storage w ->
  exists w3,
    resolve_lines cfg1 resolver_init w2 = (Ok cfg1, w3)
    /\ reads w3 = reads w2 ++ referenced_paths line_cfg.
Proof.
  intros Hrun Hst.
  destruct (resolve_lines_result line_cfg resolver_init w) as (res & w1' & Hrun' & _ & Hres);
    [constructor|].
  rewrite Hrun in Hrun'. injection Hrun' as <- <-. destruct Hres as (Hall & _ & Hrefs).
  destruct (resolve_lines_result cfg1 resolver_init w2) as (res & w3 & Hrun2 & _ & Hres2);
    [constructor|].
  destruct (resolve_lines_run cfg1 resolver_init w2) as (res' & w3' & Hrun2' & _ & Hreads);
    [constructor|].
  rewrite Hrun2 in Hrun2'. injection Hrun2' as <- <-.
  rewrite Hst in Hres2. destruct res as [cfg2|e].
  - destruct Hres2 as (Hall2 & _). destruct Hreads as [_ Hreads].
    exists w3. rewrite (resolved_referenced _ _ _ Hall) in Hreads.
    split; [|exact Hreads]. rewrite Hrun2. f_equal. f_equal.
    clear -Hall Hall2. revert cfg2 Hall2.
    induction Hall as [|kv kv' cfg cfg' [Hk Hent] _ IH]; intros cfg2 Hall2.
    + now inversion Hall2.
    + inversion Hall2 as [|? kv2 ? rest2 [Hk2 Hent2] Hrest]; subst.
      rewrite (IH _ Hrest). f_equal.
      destruct kv' as [k' ld'], kv2 as [k2 ld2]. simpl in *. subst k2.
      now rewrite (resolved_entry_again _ _ _ _ Hent Hent2).
  - exfalso. apply Exists_exists in Hres2 as ([k' ld'] & Hin & Hbad).
    apply list_elem_of_In in Hin.
    assert (Hex : exists kv, In kv line_cfg /\ resolved_entry (storage w) (snd kv) ld').
    { clear -Hall Hin. induction Hall as [|kv kv2 cfg cfg' [_ Hent] _ IH]; [contradiction|].
      destruct Hin as [->|Hin].
      - exists kv. split; [now left | exact Hent].
      - destruct (IH Hin) as (kv0 & Hkv0 & H0). exists kv0. split; [now right | exact H0]. }
    destruct Hex as (kv & Hkv & Hent).
    destruct (resolved_entry_refs _ _ _ Hent) as [Hx Hy].
    unfold refs_resolve in Hrefs. rewrite Forall_forall in Hrefs.
    apply list_elem_of_In in Hkv. destruct (Hrefs kv Hkv) as [Hrx Hry].
    destruct Hent as ([ax Hax] & [ay Hay] & _).
    simpl in Hbad. destruct Hbad as [[[_ Hd]|[_ Hd]]|[Hnx|Hny]].
    + congruence.
    + congruence.
    + apply Hnx. now rewrite Hx.
    + apply Hny. now rewrite Hy.
Qed.

Lemma resolve_lines_again_witness :
  exists cfg1 w1 w3,
    resolve_lines [(KInt 1, line_of "f.csv" "one")] resolver_init (init_world one_file)
    = (Ok cfg1, w1)
    /\ resolve_lines cfg1 resolver_init w1 = (Ok cfg1, w3)
    /\ reads w3 = reads w1 ++ ["f.csv"; "f.csv"].
Proof.
  assert (Hrun : resolve_lines [(KInt 1, line_of "f.csv" "one")] resolver_init
                   (init_world one_file)
                 = (Ok [(KInt 1, LineData (Some ("f.csv", "x")) (Some [1%Q; 2%Q])
                                   (Some ("f.csv", "y")) (Some [3%Q; 4%Q]) None None None
                                   None None None None (Some "one") None)],
                    add_read "f.csv" (add_read "f.csv" (init_world one_file))))
    by (vm_compute; reflexivity).
  destruct (resolve_lines_again _ _ _ _
              (add_read "f.csv" (add_read "f.csv" (init_world one_file))) Hrun eq_refl)
    as (w3 & Hrun3 & Hreads).
  eexists _, _, w3. split; [exact Hrun|]. split; [exact Hrun3 | exact Hreads].
Defined.

End DataPlotMore.
